(** * Timing clusters, modulation guess and RfRaw encoding of rtl_433_rabbitmq

    A shallow embedding of the algorithmic core of two scripts,

    - [pulse_data_analyzer.py]: class [PulseDataAnalyzer] with
      [_create_histogram], [_guess_modulation], [_suggest_flex_decoder];
    - [rabbitmq_to_triq.py]: [create_histogram], [find_timing_bin_index],
      [generate_rfraw_from_rabbitmq].

    Numbers.  Durations and counts are Python [int]s: [Z].  Bin means are
    Python [float]s, that is IEEE 754 binary64 numbers.  A float is
    embedded as the rational it denotes, and the tolerance test and the
    update of the running mean round as the code does, operation by
    operation ([rnd] below: to the nearest binary64 number, ties to the
    even mantissa).  The rounding decides which values are merged: on
    [50, 52, 53, 62] the code keeps 62 apart from the bin of mean
    51.666666666666664, where exact arithmetic meets a tie and merges it
    (lemma [rounding_decides_the_bins]).

    Two things are left out.  The exponent of [rnd] is not bounded, so
    overflow to infinity and subnormal numbers are not modelled.  And past
    the histogram, the conversions to microseconds ([to_us], [mean * to_us]
    and the widths derived from them) are exact rationals, [int(x)]
    truncating the exact product; the statements about them are relative
    to the bins, or evaluated where each product is a binary64 number.

    Printing is not modelled: a function that only prints returns here the
    values it prints. *)

From Stdlib Require Import ZArith QArith Qabs Qminmax Qround Qpower Qreduction Lqa Lia.
From Stdlib Require Import List Bool String Ascii Sorted Permutation.
From stdpp Require Import base list.

Local Open Scope Z_scope.

(* ------------------------------------------------------------------ *)
(** ** Bins *)

(** A bin is the 4-tuple [(mean, count, min, max)] of the source; the
    projections are the tuple indices 0..3. *)
Record bin : Type := Bin {
  mean : Q;      (* x[0] *)
  count : Z;     (* x[1] *)
  bmin : Z;      (* x[2] *)
  bmax : Z       (* x[3] *)
}.

(** An [int] [n] where a number is expected: the number [n] itself. *)
Definition fl (n : Z) : Q := inject_Z n.

(* ------------------------------------------------------------------ *)
(** ** Binary64 arithmetic *)

(** [floor(log2 x)] of a positive [x]: the difference of the bit lengths
    of numerator and denominator, or one less. *)
Definition ilog2 (x : Q) : Z :=
  let a := Z.log2 (Qnum x) in
  let b := Z.log2 (Zpos (Qden x)) in
  if 2 ^ a * Zpos (Qden x) <=? Qnum x * 2 ^ b then a - b else a - b - 1.

(** The integer nearest to [x]; of two equally near ones, the even one. *)
Definition rni (x : Q) : Z :=
  let f := Qfloor x in
  match (x - inject_Z f ?= 1 # 2)%Q with
  | Lt => f
  | Gt => f + 1
  | Eq => if Z.even f then f else f + 1
  end.

(** [x] rounded to binary64: the nearest number [q * 2^e] with a mantissa
    [q] of 53 bits, ties to the even mantissa.  This is what [float(n)]
    does to an [int] and what every operation on floats does to its exact
    result. *)
Definition rnd (x : Q) : Q :=
  if Qeq_bool x 0 then 0%Q
  else
    let e := ilog2 (Qabs x) - 52 in
    Qred (inject_Z (rni (x / 2 ^ e)) * 2 ^ e).

(** Python's [+], [-], [*] and [/] with a float among the operands: an
    [int] operand is converted first, and the exact result is rounded.
    ([rnd] leaves a float as it is.)  The operations are used below also
    where both operands are [int]s, which is the case for the mean of a
    bin that holds one value: Python then computes [value - bin_mean] and
    [bin_mean * bin_count + value] exactly and rounds the quotient only.
    For durations below 2^52 these differences and sums are binary64
    numbers, and the two readings give the same result. *)
Definition fadd (x y : Q) : Q := rnd (rnd x + rnd y).
Definition fsub (x y : Q) : Q := rnd (rnd x - rnd y).
Definition fmul (x y : Q) : Q := rnd (rnd x * rnd y).
Definition fdiv (x y : Q) : Q := rnd (rnd x / rnd y).

(* ------------------------------------------------------------------ *)
(** ** The tolerance test and the update of a bin *)

(** [abs(value - bin_mean) <= bin_mean * tolerance] *)
Definition within (tolerance : Q) (value : Z) (bin_mean : Q) : bool :=
  Qle_bool (Qabs (fsub (fl value) bin_mean)) (fmul bin_mean tolerance).

(** The tuple written back by the merge branch. *)
Definition merged (b : bin) (value : Z) : bin :=
  let new_count := count b + 1 in
  let new_mean := fdiv (fadd (fmul (mean b) (fl (count b))) (fl value)) (fl new_count) in
  let new_min := Z.min (bmin b) value in
  let new_max := Z.max (bmax b) value in
  Bin new_mean new_count new_min new_max.

(** [(value, 1, value, value)] *)
Definition fresh (value : Z) : bin := Bin (fl value) 1 value value.

(* ------------------------------------------------------------------ *)
(** ** Sorting *)

(** [sorted(values)] and [list.sort(key=...)] are stable sorts; on a total
    preorder of keys the stable sorted rearrangement of a list is unique,
    so a stable insertion sort computes the same list. *)
Section StableSort.
Context {A : Type} (leb : A -> A -> bool).

Fixpoint insert_sorted (x : A) (l : list A) : list A :=
  match l with
  | [] => [x]
  | y :: l' => if leb x y then x :: l else y :: insert_sorted x l'
  end.

Definition stable_sort (l : list A) : list A :=
  foldr insert_sorted [] l.
End StableSort.

(** [sorted(values)] on a list of [int]. *)
Definition sorted (values : list Z) : list Z := stable_sort Z.leb values.

(** [bins.sort(key=lambda x: x[0])] *)
Definition sort_by_mean (bins : list bin) : list bin :=
  stable_sort (fun a b => Qle_bool (mean a) (mean b)) bins.

(** [bins.sort(key=lambda x: x[1])] *)
Definition sort_by_count (bins : list bin) : list bin :=
  stable_sort (fun a b => Z.leb (count a) (count b)) bins.

(* ------------------------------------------------------------------ *)
(** ** pulse_data_analyzer.py *)

Module PulseDataAnalyzer.

(** The attributes set by [__init__]. *)
Record t : Type := Self {
  sample_rate : Z;
  to_us : Q;
  to_ms : Q;
  TOLERANCE : Q
}.

(** [__init__], given [pulse_data.get('rate_Hz')]: [None] of the argument
    is the absent key, with the default 250000; [None] of the result is
    the [ZeroDivisionError] of [1e6 / self.sample_rate] at the rate 0,
    which leaves no object.  [TOLERANCE] is the literal [0.2]; the
    operations that use it round it to binary64. *)
Definition init (rate_Hz : option Z) : option t :=
  let sample_rate := default 250000 rate_Hz in
  if sample_rate =? 0 then None
  else
    Some {| sample_rate := sample_rate;
            to_us := 1000000 / fl sample_rate;
            to_ms := 1000 / fl sample_rate;
            TOLERANCE := 2 # 10 |}.

(** *** [_create_histogram] *)

(** The inner [for i, (bin_mean, ...) in enumerate(bins)] loop: [rest] is
    what is left to enumerate, [i] the index of its head.  [Some bins'] is
    the [break] exit with [found_bin = True], after [bins[i] = ...];
    [None] is the exhausted loop with [found_bin = False]. *)
Fixpoint find_bin (self : t) (value : Z) (bins : list bin)
    (i : nat) (rest : list bin) : option (list bin) :=
  match rest with
  | [] => None
  | b :: rest' =>
      if within (TOLERANCE self) value (mean b)
      then Some (<[i := merged b value]> bins)
      else find_bin self value bins (S i) rest'
  end.

(** One turn of the outer [for value in sorted_values] loop. *)
Definition add_value (self : t) (bins : list bin) (value : Z) : list bin :=
  match find_bin self value bins 0%nat bins with
  | Some bins' => bins'
  | None => bins ++ [fresh value]
  end.

Definition _create_histogram (self : t) (values : list Z) : list bin :=
  match values with
  | [] => []
  | _ =>
      let sorted_values := sorted values in
      fold_left (add_value self) sorted_values []
  end.

(** *** [_suggest_flex_decoder] *)

(** What the two [print] branches show. *)
Inductive flex_decoder : Type :=
| FlexPPM (short_width long_width gap_limit reset_limit : Q)
| FlexPWM (short_width long_width reset_limit tolerance sync_width : Q).

Inductive flex_outcome : Type :=
| NoSuggestion                  (* returned without printing a decoder *)
| Suggested (d : flex_decoder)
| IndexError.                   (* raised by an index out of range *)

(** The two argument lists are Python list objects shared with the
    caller: [list.sort] reorders them in place.  The call is therefore
    modelled with the lists as state, and returns them as they are
    when the call ends. *)
Record flex_call : Type := FlexCall {
  pulse_bins_after : list bin;
  gap_bins_after : list bin;
  outcome : flex_outcome
}.

(** [l[i]] and [l[-1]] on a list: [None] stands for the [IndexError]
    Python raises out of range. *)
Definition item (l : list bin) (i : nat) : option bin := l !! i.
Definition item_last (l : list bin) : option bin := last l.

Definition raised_or (r : option flex_decoder) : flex_outcome :=
  from_option Suggested IndexError r.

(** The lines common to both [OOK_PWM] branches, from
    [reset_limit = ...] on. *)
Definition pwm_params (self : t) (gap_bins : list bin)
    (short_width long_width sync_width : Q) : option flex_decoder :=
  reset_limit ←
    (match gap_bins with
     | [] => Some 10000%Q
     | _ => g ← item_last gap_bins;
            Some (fl (bmin g) * to_us self + 100)%Q     (* gap_bins[-1][2] *)
     end);
  let tolerance := (Qabs (long_width - short_width) * (4 # 10))%Q in
  Some (FlexPWM short_width long_width reset_limit tolerance sync_width).

Definition _suggest_flex_decoder (self : t) (modulation : string)
    (pulse_bins gap_bins : list bin) (has_sync : bool) : flex_call :=
  match pulse_bins with
  | [] => FlexCall pulse_bins gap_bins NoSuggestion
  | _ =>
    let pulse_bins := sort_by_mean pulse_bins in
    let gap_bins := sort_by_mean gap_bins in
    if String.eqb modulation "OOK_PPM" then
      FlexCall pulse_bins gap_bins (raised_or (
        g0 ← item gap_bins 0;
        let short_width := (mean g0 * to_us self)%Q in
        long_width ←
          (if 1 <? Z.of_nat (length gap_bins)
           then g1 ← item gap_bins 1; Some (mean g1 * to_us self)%Q
           else Some (short_width * 2)%Q);
        let gap_limit := (long_width + 100)%Q in
        g ← item_last gap_bins;
        let reset_limit := (fl (bmin g) * to_us self + 100)%Q in  (* gap_bins[-1][2] *)
        Some (FlexPPM short_width long_width gap_limit reset_limit)))
    else if String.eqb modulation "OOK_PWM" then
      if has_sync && (3 <=? Z.of_nat (length pulse_bins)) then
        let pulse_bins := sort_by_count pulse_bins in
        FlexCall pulse_bins gap_bins (raised_or (
          b0 ← item pulse_bins 0;
          let sync_width := (mean b0 * to_us self)%Q in
          b1 ← item pulse_bins 1;
          let p1 := (mean b1 * to_us self)%Q in
          b2 ← item pulse_bins 2;
          let p2 := (mean b2 * to_us self)%Q in
          let short_width := Qmin p1 p2 in
          let long_width := Qmax p1 p2 in
          pwm_params self gap_bins short_width long_width sync_width))
      else
        FlexCall pulse_bins gap_bins (raised_or (
          b0 ← item pulse_bins 0;
          let short_width := (mean b0 * to_us self)%Q in
          long_width ←
            (if 1 <? Z.of_nat (length pulse_bins)
             then b1 ← item pulse_bins 1; Some (mean b1 * to_us self)%Q
             else Some (short_width * 2)%Q);
          let sync_width := 0%Q in
          pwm_params self gap_bins short_width long_width sync_width))
    else FlexCall pulse_bins gap_bins NoSuggestion
  end.

(** *** [_guess_modulation] *)

(** One constructor per branch of the [if]/[elif] chain, named after the
    message the branch prints. *)
Inductive guess : Type :=
| SinglePulse        (* "Single pulse detected. ..." *)
| Unmodulated        (* "Un-modulated signal. ..." *)
| PpmFixedPulse      (* "Pulse Position Modulation with fixed pulse width" *)
| PwmFixedGap        (* "Pulse Width Modulation with fixed gap" *)
| PwmFixedPeriod     (* "Pulse Width Modulation with fixed period" *)
| PwmWithSync        (* "Pulse Width Modulation with sync/delimiter" *)
| Unknown.           (* "No clue..." *)

(** The branch taken, and the call to [_suggest_flex_decoder] it makes,
    if any. *)
Definition _guess_modulation (self : t) (pulse_widths gap_widths : list Z)
    : guess * option flex_call :=
  let pulse_bins := _create_histogram self pulse_widths in
  let gap_bins := _create_histogram self gap_widths in
  let pulse_count := Z.of_nat (length pulse_bins) in
  let gap_count := Z.of_nat (length gap_bins) in
  let num_pulses := Z.of_nat (length pulse_widths) in
  if num_pulses =? 1 then (SinglePulse, None)
  else if (pulse_count =? 1) && (gap_count =? 1) then (Unmodulated, None)
  else if (pulse_count =? 1) && (gap_count >? 1) then
    (PpmFixedPulse,
     Some (_suggest_flex_decoder self "OOK_PPM" pulse_bins gap_bins false))
  else if (pulse_count =? 2) && (gap_count =? 1) then
    (PwmFixedGap,
     Some (_suggest_flex_decoder self "OOK_PWM" pulse_bins gap_bins false))
  else if (pulse_count =? 2) && (gap_count =? 2) then
    (PwmFixedPeriod,
     Some (_suggest_flex_decoder self "OOK_PWM" pulse_bins gap_bins false))
  else if pulse_count =? 3 then
    (PwmWithSync,
     Some (_suggest_flex_decoder self "OOK_PWM" pulse_bins gap_bins true))
  else (Unknown, None).

(** *** [analyze] *)

(** [l[::2]] *)
Fixpoint every_other {A : Type} (l : list A) : list A :=
  match l with
  | [] => []
  | x :: l' => x :: match l' with [] => [] | _ :: l'' => every_other l'' end
  end.

(** The path of [analyze] from the message to [_guess_modulation]; the
    statistics it prints on the way are left out.  [None] is one of the
    two early [return]s. *)
Definition analyze (self : t) (pulses : list Z) : option (guess * option flex_call) :=
  if Z.of_nat (length pulses) <? 2 then None
  else
    let pulse_widths := every_other pulses in          (* pulses[::2] *)
    let gap_widths := every_other (tail pulses) in     (* pulses[1::2] *)
    let num_pulses := Z.of_nat (length pulse_widths) in
    if num_pulses =? 0 then None
    else Some (_guess_modulation self pulse_widths gap_widths).

End PulseDataAnalyzer.

(* ------------------------------------------------------------------ *)
(** ** rabbitmq_to_triq.py *)

Module RabbitmqToTriq.

(** The default of the [tolerance=0.2] keyword arguments. *)
Definition default_tolerance : Q := 2 # 10.

(** *** [create_histogram] *)

(** The inner [enumerate(bins)] loop, as in the analyzer: [Some bins']
    after [bins[i] = ...; break], [None] when no bin was found. *)
Fixpoint find_bin (tolerance : Q) (value : Z) (bins : list bin)
    (i : nat) (rest : list bin) : option (list bin) :=
  match rest with
  | [] => None
  | b :: rest' =>
      if within tolerance value (mean b)
      then Some (<[i := merged b value]> bins)
      else find_bin tolerance value bins (S i) rest'
  end.

Definition add_value (tolerance : Q) (bins : list bin) (value : Z) : list bin :=
  match find_bin tolerance value bins 0%nat bins with
  | Some bins' => bins'
  | None => bins ++ [fresh value]
  end.

Definition create_histogram (values : list Z) (tolerance : Q) : list bin :=
  match values with
  | [] => []
  | _ =>
      let sorted_values := sorted values in
      let bins := fold_left (add_value tolerance) sorted_values [] in
      sort_by_mean bins
  end.

(** *** [find_timing_bin_index] *)

Fixpoint find_from (tolerance : Q) (value : Z) (i : Z) (rest : list bin) : Z :=
  match rest with
  | [] => -1
  | b :: rest' =>
      if within tolerance value (mean b) then i
      else find_from tolerance value (i + 1) rest'
  end.

Definition find_timing_bin_index (value : Z) (timing_bins : list bin)
    (tolerance : Q) : Z :=
  find_from tolerance value 0 timing_bins.

(** *** Formatting *)

Definition hex_digit (d : Z) : ascii :=
  match d with
  | 0 => "0" | 1 => "1" | 2 => "2" | 3 => "3" | 4 => "4" | 5 => "5"
  | 6 => "6" | 7 => "7" | 8 => "8" | 9 => "9" | 10 => "A" | 11 => "B"
  | 12 => "C" | 13 => "D" | 14 => "E" | _ => "F"
  end%char.

Fixpoint hex_upper_from (fuel : nat) (n : Z) (acc : string) : string :=
  match fuel with
  | O => acc
  | S fuel' =>
      let acc' := String (hex_digit (n mod 16)) acc in
      if n / 16 =? 0 then acc' else hex_upper_from fuel' (n / 16) acc'
  end.

(** The uppercase hexadecimal digits of [n >= 0], most significant first. *)
Definition hex_upper (n : Z) : string :=
  hex_upper_from (S (Z.to_nat (Z.log2 n))) n "".

Fixpoint zeros (k : nat) : string :=
  match k with
  | O => ""
  | S k' => String "0" (zeros k')
  end.

Definition zero_pad (width : nat) (digits : string) : string :=
  zeros (width - String.length digits) ++ digits.

(** [f"{n:0<width>X}"]: the sign, if any, counts in the width. *)
Definition format_X (width : nat) (n : Z) : string :=
  if n <? 0 then String "-" (zero_pad (width - 1) (hex_upper (- n)))
  else zero_pad width (hex_upper n).

(** [int(x)] of a float: truncation toward zero. *)
Definition int_of (x : Q) : Z := Z.quot (Qnum x) (Zpos (Qden x)).

(** *** [generate_rfraw_from_rabbitmq] *)

(** The keys of the message the function reads with a bearing on the
    result ([mod] and [count] are printed only); [None] is an absent
    key. *)
Record json_data : Type := Json {
  pulses : option (list Z);
  rate_Hz : option Z
}.

Inductive rfraw_result : Type :=
| InsufficientPulseData          (* return None, "Insufficient pulse data" *)
| TooManyTimings (n : nat)       (* return None, "Too many timings (n > 8)" *)
| ZeroDivisionError              (* raised by 1e6 / rate_hz *)
| RfRaw (rfraw : string).        (* return rfraw *)

(** [range(0, n, 2)] *)
Definition range_by_2 (n : nat) : list nat :=
  map (fun k => 2 * k)%nat (seq 0 (Nat.div2 (n + 1))).

(** The loop that fills [pulse_widths] and [gap_widths]: its body at
    index [i], and the loop. *)
Definition separate_at (pulses : list Z) (lists : list Z * list Z) (i : nat)
    : list Z * list Z :=
  let '(pulse_widths, gap_widths) := lists in
  let pulse_widths :=
    match pulses !! i with
    | Some p => pulse_widths ++ [p]
    | None => pulse_widths                    (* not i < len(pulses) *)
    end in
  let gap_widths :=
    match pulses !! (i + 1)%nat with
    | Some g => gap_widths ++ [g]
    | None => gap_widths                      (* not i + 1 < len(pulses) *)
    end in
  (pulse_widths, gap_widths).

Definition separate (pulses : list Z) : list Z * list Z :=
  fold_left (separate_at pulses) (range_by_2 (length pulses)) ([], []).

(** The "Timing table" loop. *)
Definition timing_table (to_us : Q) (timing_bins : list bin) : list string :=
  map (fun b =>
         let timing_us := int_of (mean b * to_us) in
         let timing_us := Z.min timing_us 65535 in
         format_X 4 timing_us)
      timing_bins.

(** The "Encode pulses" loop: what its body appends to [hex_parts] once
    [pulse] and [gap] are set, and the loop. *)
Definition encode_pair (pulse gap : Z) (timing_bins : list bin) : list string :=
  let pulse_idx := find_timing_bin_index pulse timing_bins default_tolerance in
  let gap_idx := find_timing_bin_index gap timing_bins default_tolerance in
  if (pulse_idx >=? 0) && (gap_idx >=? 0) then
    let encoded := Z.lor 128 (Z.lor (Z.shiftl pulse_idx 4) gap_idx) in
    [format_X 2 encoded]
  else [].

Definition encode_pulses (pulse_widths gap_widths : list Z)
    (timing_bins : list bin) : list string :=
  flat_map
    (fun i =>
       match pulse_widths !! i with
       | None => []
       | Some pulse =>
           let gap := default 0 (gap_widths !! i) in   (* ... if i < len(gap_widths) else 0 *)
           encode_pair pulse gap timing_bins
       end)
    (seq 0 (length pulse_widths)).

Definition generate_rfraw_from_rabbitmq (json : json_data) : rfraw_result :=
  let pulses := default [] (pulses json) in
  let rate_hz := default 250000 (rate_Hz json) in
  if Z.of_nat (length pulses) <? 2 then InsufficientPulseData
  else if rate_hz =? 0 then ZeroDivisionError
  else
    let to_us := (1000000 / fl rate_hz)%Q in
    let '(pulse_widths, gap_widths) := separate pulses in
    let all_timings := pulse_widths ++ gap_widths in
    let timing_bins := create_histogram all_timings default_tolerance in
    if 8 <? Z.of_nat (length timing_bins) then TooManyTimings (length timing_bins)
    else
      let hex_parts :=
        ["AA"%string; "B1"%string; format_X 2 (Z.of_nat (length timing_bins))]
        ++ timing_table to_us timing_bins
        ++ encode_pulses pulse_widths gap_widths timing_bins
        ++ ["55"%string] in
      RfRaw (String.concat "" hex_parts).

End RabbitmqToTriq.

(* ------------------------------------------------------------------ *)
(** ** What the specification says, in its own words *)

Module Spec.

(** "All widths are floats internally": the operations of the
    specification on means are those of binary64. *)

(** "a value joins a bin iff |value − bin.mean| ≤ bin.mean × tolerance" *)
Definition joins (t : Q) (value : Z) (b : bin) : Prop :=
  (Qabs (fsub (inject_Z value) (mean b)) <= fmul (mean b) t)%Q.

(** "On merge: mean' = (mean·count + v)/(count+1), count+1,
    min' = min(min,v), max' = max(max,v)." *)
Definition merge (b : bin) (v : Z) : bin :=
  {| mean := fdiv (fadd (fmul (mean b) (inject_Z (count b))) (inject_Z v))
                  (inject_Z (count b + 1));
     count := count b + 1;
     bmin := Z.min (bmin b) v;
     bmax := Z.max (bmax b) v |}.

(** The same two with the operations of the rationals, for comparison. *)
Definition joins_exactly (t : Q) (value : Z) (b : bin) : Prop :=
  (Qabs (inject_Z value - mean b) <= mean b * t)%Q.

Definition merge_exactly (b : bin) (v : Z) : bin :=
  {| mean := (mean b * inject_Z (count b) + inject_Z v) / inject_Z (count b + 1);
     count := count b + 1;
     bmin := Z.min (bmin b) v;
     bmax := Z.max (bmax b) v |}.

(** "scan existing bins in creation order and merge into the first bin
    satisfying the tolerance test ...  If no bin matches, append a new
    bin (v,1,v,v)." *)
Inductive place (t : Q) (v : Z) (bins : list bin) : list bin -> Prop :=
| place_merge (i : nat) (b : bin) :
    bins !! i = Some b ->
    joins t v b ->
    (forall j b', (j < i)%nat -> bins !! j = Some b' -> ~ joins t v b') ->
    place t v bins (<[i := merge b v]> bins)
| place_append :
    (forall b, b ∈ bins -> ~ joins t v b) ->
    place t v bins (bins ++ [Bin (inject_Z v) 1 v v]).

(** "For each sorted value ...": the values are placed one after the
    other, from the first on. *)
Inductive built (t : Q) : list Z -> list bin -> list bin -> Prop :=
| built_nil (bins : list bin) : built t [] bins bins
| built_cons (v : Z) (vs : list Z) (bins bins' bins'' : list bin) :
    place t v bins bins' ->
    built t vs bins' bins'' ->
    built t (v :: vs) bins bins''.

(** The bins of a list are ascending by mean. *)
Definition by_mean (a b : bin) : Prop := (mean a <= mean b)%Q.
Definition by_count (a b : bin) : Prop := count a <= count b.

(** A group of input values and the bin that stands for it: the bin
    counts the group and keeps its least and its greatest value. *)
Definition sum_list (g : list Z) : Z := fold_right Z.add 0 g.

Record stands_for (g : list Z) (b : bin) : Prop := {
  group_inhabited : g <> [];
  group_count : count b = Z.of_nat (length g);
  group_min : Forall (fun v => bmin b <= v) g /\ bmin b ∈ g;
  group_max : Forall (fun v => v <= bmax b) g /\ bmax b ∈ g
}.

(** The classification table of 4.2, rows in order. *)
Definition table : list ((Z -> Z -> Z -> bool) * PulseDataAnalyzer.guess) :=
  [ (fun N P G => N =? 1, PulseDataAnalyzer.SinglePulse);
    (fun N P G => (P =? 1) && (G =? 1), PulseDataAnalyzer.Unmodulated);
    (fun N P G => (P =? 1) && (1 <? G), PulseDataAnalyzer.PpmFixedPulse);
    (fun N P G => (P =? 2) && (G =? 1), PulseDataAnalyzer.PwmFixedGap);
    (fun N P G => (P =? 2) && (G =? 2), PulseDataAnalyzer.PwmFixedPeriod);
    (fun N P G => P =? 3, PulseDataAnalyzer.PwmWithSync) ].

(** "Evaluate in order, first match wins", else Unknown. *)
Fixpoint first_match (rows : list ((Z -> Z -> Z -> bool) * PulseDataAnalyzer.guess))
    (N P G : Z) : PulseDataAnalyzer.guess :=
  match rows with
  | [] => PulseDataAnalyzer.Unknown
  | (cond, verdict) :: rows' =>
      if cond N P G then verdict else first_match rows' N P G
  end.

Definition classify (N P G : Z) : PulseDataAnalyzer.guess := first_match table N P G.

(** Frames as bytes. *)
Definition hex_byte (b : Z) : string :=
  String (RabbitmqToTriq.hex_digit (b / 16))
    (String (RabbitmqToTriq.hex_digit (b mod 16)) EmptyString).

Definition to_hex (bytes : list Z) : string :=
  String.concat "" (map hex_byte bytes).

(** A 16-bit entry, most significant byte first. *)
Definition be16 (x : Z) : list Z := [Z.shiftr x 8; Z.land x 255].

(** "timing_us: 2 bytes clamped to 65535" *)
Definition timing_us (to_us : Q) (b : bin) : Z :=
  Z.min (RabbitmqToTriq.int_of (mean b * to_us)) 65535.

(** "0xAA, 0xB1, N, (timing_us)×N, (data)×pairs, 0x55" *)
Definition frame (to_us : Q) (timing_bins : list bin) (data : list Z) : list Z :=
  [170; 177; Z.of_nat (length timing_bins)]
  ++ flat_map (fun b => be16 (timing_us to_us b)) timing_bins
  ++ data ++ [85].

(** "Split by position into pulse_widths (even indices) and gap_widths
    (odd indices)"; a captured pair is a pulse with the gap after it. *)
Definition pulse_widths (pulse_train : list Z) : list Z :=
  PulseDataAnalyzer.every_other pulse_train.
Definition gap_widths (pulse_train : list Z) : list Z :=
  PulseDataAnalyzer.every_other (tail pulse_train).
Definition captured_pairs (pulse_train : list Z) : list (Z * Z) :=
  zip (pulse_widths pulse_train) (gap_widths pulse_train).

(** The index of the first bin a value joins, if any. *)
Definition first_index (t : Q) (v : Z) (bins : list bin) (k : nat) : Prop :=
  (exists b, bins !! k = Some b /\ joins t v b) /\
  (forall j b', (j < k)%nat -> bins !! j = Some b' -> ~ joins t v b').

Definition unmatched (t : Q) (v : Z) (bins : list bin) : Prop :=
  forall b, b ∈ bins -> ~ joins t v b.

(** "0x80 | pulse_idx<<4 | gap_idx" *)
Definition data_byte (pulse_idx gap_idx : Z) : Z :=
  Z.lor 128 (Z.lor (Z.shiftl pulse_idx 4) gap_idx).

(** The data bytes of one pulse/gap pair: one byte when both durations
    have an index in the timing table, none otherwise. *)
Inductive pair_bytes (t : Q) (bins : list bin) : Z * Z -> list Z -> Prop :=
| pair_encoded (p g : Z) (pulse_idx gap_idx : nat) :
    first_index t p bins pulse_idx ->
    first_index t g bins gap_idx ->
    pair_bytes t bins (p, g) [data_byte (Z.of_nat pulse_idx) (Z.of_nat gap_idx)]
| pair_skipped (p g : Z) :
    unmatched t p bins \/ unmatched t g bins ->
    pair_bytes t bins (p, g) [].

Definition is_byte (b : Z) : Prop := 0 <= b <= 255.

End Spec.

(* ------------------------------------------------------------------ *)
(** ** pulse_data_analyzer.py: the report *)

(** The remaining methods of [PulseDataAnalyzer]: what [analyze] computes
    on its way, [_analyze_distribution] and [_generate_rfraw].  They print;
    the model returns the numbers handed to the format strings, before the
    rounding of the format. *)
Module Report.

(** One line of [_analyze_distribution]. *)
Record row : Type := Row {
  row_index : nat;       (* i *)
  row_count : Z;         (* count *)
  us_value : Q;          (* value * self.to_us *)
  us_min : Q;            (* min_val * self.to_us *)
  us_max : Q;            (* max_val * self.to_us *)
  samples : Z            (* int(samples) *)
}.

(** [None] is the early [return] after "... distribution: No data". *)
Definition _analyze_distribution (self : PulseDataAnalyzer.t) (values : list Z)
    : option (list row) :=
  match values with
  | [] => None
  | _ =>
      let bins := PulseDataAnalyzer._create_histogram self values in
      Some (imap (fun i b =>
                    let us_value := (mean b * PulseDataAnalyzer.to_us self)%Q in
                    let us_min := (fl (bmin b) * PulseDataAnalyzer.to_us self)%Q in
                    let us_max := (fl (bmax b) * PulseDataAnalyzer.to_us self)%Q in
                    let samples := mean b in
                    Row i (count b) us_value us_min us_max
                        (RabbitmqToTriq.int_of samples))
                 bins)
  end.

(** [sum(l)] *)
Definition sum (l : list Z) : Z := fold_left Z.add l 0.

(** [total_period = sum(pulses[:-1])] *)
Definition total_period (pulses : list Z) : Z := sum (removelast pulses).

(** The loop that fills [periods_pg]. *)
Definition periods_pg (pulse_widths gap_widths : list Z) : list Z :=
  fold_left
    (fun periods i =>
       match pulse_widths !! i, gap_widths !! i with
       | Some p, Some g => periods ++ [p + g]
       | _, _ => periods                       (* out of range: not reached *)
       end)
    (seq 0 (Nat.min (length pulse_widths) (length gap_widths))) [].

(** [None] is the early [return] on more than 16 durations. *)
Definition _generate_rfraw (self : PulseDataAnalyzer.t) (pulses : list Z)
    : option (list Z) :=
  if 16 <? Z.of_nat (length pulses) then None
  else
    Some (map (fun pulse =>
                 RabbitmqToTriq.int_of (fl pulse * PulseDataAnalyzer.to_us self))
              pulses).

(** What [analyze] computes from [self.data['pulses']]. *)
Record report : Type := Report {
  num_pulses : nat;
  total : Z;
  pulse_distribution : option (list row);
  gap_distribution : option (list row);
  period_distribution : option (list row);
  modulation : PulseDataAnalyzer.guess * option PulseDataAnalyzer.flex_call;
  rfraw_timings : option (list Z)
}.

(** [analyze]; [None] is one of its two early [return]s.  The lines that
    only echo fields of the message (levels, RSSI, frequency offsets) are
    left out. *)
Definition analyze (self : PulseDataAnalyzer.t) (pulses : list Z) : option report :=
  if Z.of_nat (length pulses) <? 2 then None
  else
    let pulse_widths := PulseDataAnalyzer.every_other pulses in
    let gap_widths := PulseDataAnalyzer.every_other (tail pulses) in
    let num_pulses := length pulse_widths in
    if Z.of_nat num_pulses =? 0 then None
    else
      let total_period := total_period pulses in
      let pulse_rows := _analyze_distribution self pulse_widths in
      let gap_rows := _analyze_distribution self gap_widths in
      let periods_pg := periods_pg pulse_widths gap_widths in
      let period_rows := _analyze_distribution self periods_pg in
      let guessed := PulseDataAnalyzer._guess_modulation self pulse_widths gap_widths in
      let timings := _generate_rfraw self pulses in
      Some (Report num_pulses total_period pulse_rows gap_rows period_rows
              guessed timings).

End Report.

(* ------------------------------------------------------------------ *)
(** ** Properties of bin lists used below *)

Module Cluster.

(** Durations between 0 and [hi], so few of them that [hi] times their
    number, and their number, stay below 2^53: the sums the running mean
    goes through then lie between integers that binary64 holds exactly. *)
Definition in_range (hi : Z) (values : list Z) : Prop :=
  Forall (fun v => 0 <= v <= hi) values /\
  (hi + 1) * Z.of_nat (length values) < 2 ^ 53.

(** A bin as the loop keeps it after [k] values of such an input: it
    counts between 1 and [k] values, they lie between 0 and [hi], and its
    mean lies between its least and its greatest value. *)
Definition bounded (hi k : Z) (b : bin) : Prop :=
  1 <= count b <= k /\
  0 <= bmin b /\ bmax b <= hi /\
  (inject_Z (bmin b) <= mean b <= inject_Z (bmax b))%Q.

(** The next bin starts where this one ends or later, with a value that
    its tolerance test turns down. *)
Definition closed (t : Q) (b b' : bin) : Prop :=
  bmax b <= bmin b' /\ within t (bmin b') (mean b) = false.

(** The characters of an uppercase hexadecimal string. *)
Definition is_hex_char (c : ascii) : Prop :=
  In c (list_ascii_of_string "0123456789ABCDEF").

End Cluster.


(* ------------------------------------------------------------------ *)
(** ** Facts about the stable sort *)

Section StableSortFacts.
Context {A : Type} (leb : A -> A -> bool).
Hypothesis leb_total : forall x y, leb x y = false -> leb y x = true.

Local Abbreviation le := (fun x y : A => leb x y = true).

Lemma insert_sorted_perm (x : A) (l : list A) :
  Permutation (insert_sorted leb x l) (x :: l).
Proof.
  induction l as [|y l IH]; simpl; [reflexivity|].
  destruct (leb x y); [reflexivity|].
  rewrite IH. apply perm_swap.
Qed.

Lemma stable_sort_perm (l : list A) : Permutation (stable_sort leb l) l.
Proof.
  induction l as [|x l IH]; simpl; [reflexivity|].
  rewrite insert_sorted_perm. now constructor.
Qed.

Lemma stable_sort_length (l : list A) : length (stable_sort leb l) = length l.
Proof. apply Permutation_length, stable_sort_perm. Qed.

Lemma insert_sorted_hd (x y : A) (l : list A) :
  le y x -> HdRel le y l -> HdRel le y (insert_sorted leb x l).
Proof.
  intros Hyx Hl. destruct l as [|z l]; simpl.
  - now constructor.
  - destruct (leb x z); constructor; [assumption|].
    now inversion Hl.
Qed.

Lemma insert_sorted_Sorted (x : A) (l : list A) :
  Sorted le l -> Sorted le (insert_sorted leb x l).
Proof.
  induction 1 as [|y l Hs IH Hhd]; simpl.
  - repeat constructor.
  - destruct (leb x y) eqn:E.
    + constructor; [now constructor|]. now constructor.
    + constructor; [exact IH|].
      apply insert_sorted_hd; [|exact Hhd]. now apply leb_total.
Qed.

Lemma stable_sort_Sorted (l : list A) : Sorted le (stable_sort leb l).
Proof.
  induction l as [|x l IH]; simpl; [constructor|].
  now apply insert_sorted_Sorted.
Qed.

(** A list that is already in order is left as it is. *)
Lemma insert_sorted_front (x : A) (l : list A) :
  HdRel le x l -> insert_sorted leb x l = x :: l.
Proof.
  destruct l as [|y l]; simpl; [reflexivity|].
  intros H. inversion H as [|? ? Hxy]; subst. cbv beta in Hxy. now rewrite Hxy.
Qed.

Lemma stable_sort_of_Sorted (l : list A) : Sorted le l -> stable_sort leb l = l.
Proof.
  induction 1 as [|x l Hs IH Hhd]; simpl; [reflexivity|].
  rewrite IH. now apply insert_sorted_front.
Qed.
End StableSortFacts.

Lemma Sorted_weaken {A : Type} (R R' : A -> A -> Prop) (l : list A) :
  (forall x y, R x y -> R' x y) -> Sorted R l -> Sorted R' l.
Proof.
  intros HR. induction 1 as [|x l Hs IH Hhd]; constructor; [exact IH|].
  destruct Hhd; constructor. now apply HR.
Qed.

Lemma sorted_perm (values : list Z) : Permutation (sorted values) values.
Proof. apply stable_sort_perm. Qed.

Lemma sorted_Sorted (values : list Z) : Sorted Z.le (sorted values).
Proof.
  unfold sorted. eapply Sorted_weaken; [|apply stable_sort_Sorted].
  - intros x y H. now apply Z.leb_le.
  - intros x y H. lia.
Qed.

Lemma sorted_nil_inv (values : list Z) : sorted values = [] -> values = [].
Proof.
  intros H. apply Permutation_nil. rewrite <- H. apply sorted_perm.
Qed.

Lemma Qle_bool_total (x y : Q) : Qle_bool x y = false -> Qle_bool y x = true.
Proof.
  intros H. apply Qle_bool_iff. destruct (Qlt_le_dec y x) as [Hlt|Hle].
  - now apply Qlt_le_weak.
  - apply Qle_bool_iff in Hle. congruence.
Qed.

Lemma sort_by_mean_perm (bins : list bin) : Permutation (sort_by_mean bins) bins.
Proof. apply stable_sort_perm. Qed.

Lemma sort_by_mean_Sorted (bins : list bin) : Sorted Spec.by_mean (sort_by_mean bins).
Proof.
  unfold sort_by_mean. eapply Sorted_weaken; [|apply stable_sort_Sorted].
  - intros x y H. now apply Qle_bool_iff.
  - intros x y. apply Qle_bool_total.
Qed.

Lemma sort_by_count_perm (bins : list bin) : Permutation (sort_by_count bins) bins.
Proof. apply stable_sort_perm. Qed.

Lemma sort_by_count_Sorted (bins : list bin) : Sorted Spec.by_count (sort_by_count bins).
Proof.
  unfold sort_by_count. eapply Sorted_weaken; [|apply stable_sort_Sorted].
  - intros x y H. now apply Z.leb_le.
  - intros x y H. lia.
Qed.

(* ------------------------------------------------------------------ *)
(** ** Facts about binary64 rounding *)

Lemma pow2_pos (e : Z) : (0 < 2 ^ e)%Q.
Proof. apply Qpower_0_lt. reflexivity. Qed.

Lemma pow2_nonzero (e : Z) : ~ (2 ^ e == 0)%Q.
Proof. intros H. pose proof (pow2_pos e) as Hp. rewrite H in Hp. discriminate Hp. Qed.

Lemma pow2_add (a b : Z) : (2 ^ (a + b) == 2 ^ a * 2 ^ b)%Q.
Proof. apply Qpower_plus. discriminate. Qed.

Lemma pow2_le (a b : Z) : a <= b -> (2 ^ a <= 2 ^ b)%Q.
Proof. intros H. apply Qpower_le_compat_l; [exact H|discriminate]. Qed.

Lemma pow2_lt (a b : Z) : a < b -> (2 ^ a < 2 ^ b)%Q.
Proof. intros H. apply Qpower_lt_compat_l; [exact H|reflexivity]. Qed.

Lemma pow2_Z (a : Z) : 0 <= a -> (2 ^ a == inject_Z (2 ^ a))%Q.
Proof. intros H. symmetry. exact (Zpower_Qpower 2 a H). Qed.

Lemma pow2_scale (x : Q) (e : Z) : (x / 2 ^ e * 2 ^ e == x)%Q.
Proof. field. apply pow2_nonzero. Qed.

Lemma pow2_frac (a b : Z) (n : Z) (d : positive) :
  0 <= a -> 0 <= b ->
  ((2 ^ (a - b) <= n # d)%Q <-> 2 ^ a * Zpos d <= n * 2 ^ b) /\
  ((n # d < 2 ^ (a - b))%Q <-> n * 2 ^ b < 2 ^ a * Zpos d).
Proof.
  intros Ha Hb.
  assert (2 ^ (a - b) == inject_Z (2 ^ a) / inject_Z (2 ^ b))%Q as ->.
  { rewrite Qpower_minus by discriminate. now rewrite !pow2_Z. }
  pose proof (Z.pow_pos_nonneg 2 b ltac:(lia) Hb) as HB.
  destruct (2 ^ b) as [|B|B]; try lia.
  rewrite <- Qmake_Qdiv. unfold Qle, Qlt. simpl. split; split; lia.
Qed.

Lemma ilog2_spec (x : Q) : (0 < x)%Q -> (2 ^ ilog2 x <= x < 2 ^ (ilog2 x + 1))%Q.
Proof.
  destruct x as [n d]. intros Hx.
  assert (0 < n) as Hn by (unfold Qlt in Hx; simpl in Hx; lia).
  unfold ilog2. cbn [Qnum Qden].
  set (a := Z.log2 n). set (b := Z.log2 (Zpos d)).
  destruct (Z.log2_spec n Hn) as [Ha1 Ha2]. fold a in Ha1, Ha2.
  destruct (Z.log2_spec (Zpos d) ltac:(lia)) as [Hb1 Hb2]. fold b in Hb1, Hb2.
  assert (0 <= a) as Ha by apply Z.log2_nonneg.
  assert (0 <= b) as Hb by apply Z.log2_nonneg.
  replace (Z.succ a) with (a + 1) in Ha2 by lia.
  replace (Z.succ b) with (b + 1) in Hb2 by lia.
  rewrite Z.pow_add_r in Ha2, Hb2 by lia. change (2 ^ 1) with 2 in Ha2, Hb2.
  assert (0 < 2 ^ a) by (apply Z.pow_pos_nonneg; lia).
  assert (0 < 2 ^ b) by (apply Z.pow_pos_nonneg; lia).
  destruct (Z.leb_spec (2 ^ a * Zpos d) (n * 2 ^ b)) as [Hle|Hlt].
  - split.
    + now apply (pow2_frac a b n d).
    + replace (a - b + 1) with ((a + 1) - b) by lia.
      apply (pow2_frac (a + 1) b n d); [lia|lia|].
      rewrite Z.pow_add_r by lia. change (2 ^ 1) with 2. nia.
  - split.
    + replace (a - b - 1) with (a - (b + 1)) by lia.
      apply (pow2_frac a (b + 1) n d); [lia|lia|].
      rewrite Z.pow_add_r by lia. change (2 ^ 1) with 2. nia.
    + replace (a - b - 1 + 1) with (a - b) by lia.
      now apply (pow2_frac a b n d).
Qed.

Lemma ilog2_unique (x : Q) (k : Z) :
  (2 ^ k <= x < 2 ^ (k + 1))%Q -> ilog2 x = k.
Proof.
  intros [H1 H2].
  assert (0 < x)%Q as Hx by (eapply Qlt_le_trans; [apply (pow2_pos k)|exact H1]).
  destruct (ilog2_spec x Hx) as [H3 H4].
  destruct (Z.lt_trichotomy (ilog2 x) k) as [Hlt|[Heq|Hgt]]; [|exact Heq|].
  - exfalso. apply (Qlt_irrefl x). eapply Qlt_le_trans; [exact H4|].
    eapply Qle_trans; [|exact H1]. apply pow2_le. lia.
  - exfalso. apply (Qlt_irrefl x). eapply Qlt_le_trans; [exact H2|].
    eapply Qle_trans; [|exact H3]. apply pow2_le. lia.
Qed.

Lemma ilog2_comp (x y : Q) : (0 < x)%Q -> (x == y)%Q -> ilog2 x = ilog2 y.
Proof.
  intros Hx Hxy. symmetry. apply ilog2_unique. rewrite <- Hxy. now apply ilog2_spec.
Qed.

Lemma ilog2_le (x y : Q) : (0 < x)%Q -> (x <= y)%Q -> ilog2 x <= ilog2 y.
Proof.
  intros Hx Hxy.
  assert (0 < y)%Q as Hy by (eapply Qlt_le_trans; eassumption).
  destruct (ilog2_spec x Hx) as [H1 _]. destruct (ilog2_spec y Hy) as [_ H2].
  assert (2 ^ ilog2 x < 2 ^ (ilog2 y + 1))%Q as H
    by (eapply Qle_lt_trans; [exact H1|]; eapply Qle_lt_trans; eassumption).
  apply Qpower_lt_compat_l_inv in H; [lia|reflexivity].
Qed.

(** The mantissa of a positive number lies in [2^52, 2^53). *)
Lemma mantissa_range (x : Q) :
  (0 < x)%Q ->
  (inject_Z (2 ^ 52) <= x / 2 ^ (ilog2 x - 52) < inject_Z (2 ^ 53))%Q.
Proof.
  intros Hx. destruct (ilog2_spec x Hx) as [H1 H2].
  set (k := ilog2 x) in *.
  rewrite <- !pow2_Z by lia. split.
  - apply Qle_shift_div_l; [apply pow2_pos|]. rewrite <- pow2_add.
    now replace (52 + (k - 52)) with k by lia.
  - apply Qlt_shift_div_r; [apply pow2_pos|]. rewrite <- pow2_add.
    now replace (53 + (k - 52)) with (k + 1) by lia.
Qed.

Lemma Qfloor_unique (x : Q) (z : Z) :
  (inject_Z z <= x < inject_Z (z + 1))%Q -> Qfloor x = z.
Proof.
  intros [H1 H2]. pose proof (Qfloor_le x) as H3. pose proof (Qlt_floor x) as H4.
  assert (inject_Z z < inject_Z (Qfloor x + 1))%Q as H5 by (eapply Qle_lt_trans; eassumption).
  assert (inject_Z (Qfloor x) < inject_Z (z + 1))%Q as H6 by (eapply Qle_lt_trans; eassumption).
  rewrite <- Zlt_Qlt in H5, H6. lia.
Qed.

Lemma rni_Z (z : Z) : rni (inject_Z z) = z.
Proof.
  unfold rni. rewrite Qfloor_Z.
  assert ((inject_Z z - inject_Z z ?= 1 # 2) = (0 ?= 1 # 2))%Q as ->
    by (apply Qcompare_comp; [ring|reflexivity]).
  reflexivity.
Qed.

Lemma rni_comp (x y : Q) : (x == y)%Q -> rni x = rni y.
Proof.
  intros H. unfold rni. rewrite (Qfloor_comp x y H).
  assert ((x - inject_Z (Qfloor y) ?= 1 # 2) = (y - inject_Z (Qfloor y) ?= 1 # 2))%Q as ->
    by (apply Qcompare_comp; [now rewrite H|reflexivity]).
  reflexivity.
Qed.

Lemma rni_cases (x : Q) :
  let f := Qfloor x in
  (inject_Z f <= x < inject_Z f + 1)%Q /\
  ((rni x = f /\ (x - inject_Z f <= 1 # 2)%Q) \/
   (rni x = f + 1 /\ (1 # 2 <= x - inject_Z f)%Q)).
Proof.
  intros f. split.
  - split; [apply Qfloor_le|]. pose proof (Qlt_floor x) as H.
    rewrite inject_Z_plus in H. exact H.
  - unfold rni. fold f.
    destruct (Qcompare_spec (x - inject_Z f) (1 # 2)) as [H|H|H].
    + destruct (Z.even f); [left|right]; (split; [reflexivity|lra]).
    + left. split; [reflexivity|now apply Qlt_le_weak].
    + right. split; [reflexivity|now apply Qlt_le_weak].
Qed.

Lemma rni_mono (x y : Q) : (x <= y)%Q -> rni x <= rni y.
Proof.
  intros Hxy. pose proof (Qfloor_resp_le x y Hxy) as Hf.
  unfold rni.
  set (fx := Qfloor x) in *. set (fy := Qfloor y) in *.
  assert (fx = fy \/ fx + 1 <= fy) as [Heq|Hlt] by lia.
  - rewrite <- Heq.
    assert (x - inject_Z fx <= y - inject_Z fx)%Q as Hr by lra.
    destruct (Qcompare_spec (x - inject_Z fx) (1 # 2)) as [H|H|H];
      destruct (Qcompare_spec (y - inject_Z fx) (1 # 2)) as [H'|H'|H'];
      try destruct (Z.even fx); try lia; exfalso; lra.
  - destruct (x - inject_Z fx ?= 1 # 2)%Q; destruct (y - inject_Z fy ?= 1 # 2)%Q;
      try destruct (Z.even fx); try destruct (Z.even fy); lia.
Qed.

Lemma rni_opp (x : Q) : rni (- x) = - rni x.
Proof.
  pose proof (Qfloor_le x) as H1. pose proof (Qlt_floor x) as H2.
  rewrite inject_Z_plus in H2. change (inject_Z 1) with 1%Q in H2.
  set (f := Qfloor x) in *.
  destruct (Qeq_dec x (inject_Z f)) as [Heq|Hne].
  - rewrite (rni_comp x (inject_Z f) Heq).
    rewrite (rni_comp (- x) (inject_Z (- f))) by (rewrite Heq, inject_Z_opp; reflexivity).
    now rewrite !rni_Z.
  - assert (inject_Z f < x)%Q as H3.
    { apply Qnot_le_lt. intros H. apply Hne. now apply Qle_antisym. }
    assert (Qfloor (- x) = - f - 1) as Hf.
    { apply Qfloor_unique. replace (- f - 1 + 1) with (- f) by lia.
      unfold Z.sub. rewrite inject_Z_plus, !inject_Z_opp.
      change (inject_Z 1) with 1%Q. split; lra. }
    unfold rni. rewrite Hf. fold f.
    assert ((- x - inject_Z (- f - 1) ?= 1 # 2) = (1 - (x - inject_Z f) ?= 1 # 2))%Q as ->.
    { apply Qcompare_comp; [|reflexivity]. unfold Z.sub.
      rewrite inject_Z_plus, !inject_Z_opp. change (inject_Z (-1)) with (-1)%Q. ring. }
    assert (Z.even (- f - 1) = negb (Z.even f)) as ->.
    { replace (- f - 1) with (- (f + 1)) by lia.
      rewrite Z.even_opp, Z.add_1_r, Z.even_succ, <- Z.negb_even. reflexivity. }
    destruct (Qcompare_spec (x - inject_Z f) (1 # 2)) as [H|H|H];
      destruct (Qcompare_spec (1 - (x - inject_Z f)) (1 # 2)) as [H'|H'|H'];
      try (exfalso; lra); try destruct (Z.even f); simpl; lia.
Qed.

Lemma rnd_eq (x : Q) :
  ~ (x == 0)%Q ->
  (rnd x == inject_Z (rni (x / 2 ^ (ilog2 (Qabs x) - 52))) * 2 ^ (ilog2 (Qabs x) - 52))%Q.
Proof.
  intros Hx. unfold rnd.
  destruct (Qeq_bool x 0) eqn:E; [apply Qeq_bool_eq in E; contradiction|].
  apply Qred_correct.
Qed.

Lemma rnd_zero (x : Q) : (x == 0)%Q -> rnd x = 0%Q.
Proof.
  intros Hx. unfold rnd. now rewrite (proj2 (Qeq_bool_iff x 0) Hx).
Qed.

Lemma Qabs_pos_nonzero (x : Q) : ~ (x == 0)%Q -> (0 < Qabs x)%Q.
Proof.
  intros Hx. apply Qnot_le_lt. intros H.
  apply Hx. apply Qabs_Qle_condition in H. lra.
Qed.

Lemma rnd_comp (x y : Q) : (x == y)%Q -> (rnd x == rnd y)%Q.
Proof.
  intros Hxy. destruct (Qeq_dec x 0) as [Hx|Hx].
  - rewrite (rnd_zero x Hx), (rnd_zero y) by (now rewrite <- Hxy). reflexivity.
  - assert (~ (y == 0)%Q) as Hy by (now rewrite <- Hxy).
    rewrite (rnd_eq x Hx), (rnd_eq y Hy).
    assert (ilog2 (Qabs x) = ilog2 (Qabs y)) as ->
      by (apply ilog2_comp; [now apply Qabs_pos_nonzero|now rewrite Hxy]).
    rewrite (rni_comp (x / _) (y / 2 ^ (ilog2 (Qabs y) - 52))) by (now rewrite Hxy).
    reflexivity.
Qed.

Lemma rnd_opp (x : Q) : (rnd (- x) == - rnd x)%Q.
Proof.
  destruct (Qeq_dec x 0) as [Hx|Hx].
  - rewrite (rnd_zero x Hx), (rnd_zero (- x)) by (rewrite Hx; reflexivity). reflexivity.
  - assert (~ (- x == 0)%Q) as Hx' by (intros H; apply Hx; lra).
    rewrite (rnd_eq x Hx), (rnd_eq _ Hx').
    assert (ilog2 (Qabs (- x)) = ilog2 (Qabs x)) as ->
      by (apply ilog2_comp; [now apply Qabs_pos_nonzero|apply Qabs_opp]).
    set (e := ilog2 (Qabs x) - 52).
    rewrite (rni_comp (- x / 2 ^ e) (- (x / 2 ^ e)))
      by (field; apply pow2_nonzero).
    rewrite rni_opp, inject_Z_opp. ring.
Qed.

(** The rounded value of a positive number: mantissa in [2^52, 2^53]. *)
Lemma rnd_pos_eq (x : Q) :
  (0 < x)%Q ->
  exists q, 2 ^ 52 <= q <= 2 ^ 53 /\ q = rni (x / 2 ^ (ilog2 x - 52)) /\
            (rnd x == inject_Z q * 2 ^ (ilog2 x - 52))%Q.
Proof.
  intros Hx. exists (rni (x / 2 ^ (ilog2 x - 52))).
  destruct (mantissa_range x Hx) as [H1 H2].
  split; [|split; [reflexivity|]].
  - split.
    + rewrite <- (rni_Z (2 ^ 52)). now apply rni_mono.
    + rewrite <- (rni_Z (2 ^ 53)). apply rni_mono. now apply Qlt_le_weak.
  - rewrite rnd_eq by (intros H; rewrite H in Hx; discriminate Hx).
    assert (Qabs x == x)%Q as Ha by (apply Qabs_pos; now apply Qlt_le_weak).
    rewrite (ilog2_comp (Qabs x) x) by (rewrite ?Ha; first [assumption|reflexivity]).
    reflexivity.
Qed.

Lemma rnd_pos (x : Q) : (0 < x)%Q -> (0 < rnd x)%Q.
Proof.
  intros Hx. destruct (rnd_pos_eq x Hx) as (q & Hq & _ & ->).
  apply Qmult_lt_0_compat; [|apply pow2_pos].
  change 0%Q with (inject_Z 0). rewrite <- Zlt_Qlt. lia.
Qed.

Lemma rnd_nonneg (x : Q) : (0 <= x)%Q -> (0 <= rnd x)%Q.
Proof.
  intros Hx. destruct (Qeq_dec x 0) as [H0|H0].
  - rewrite (rnd_zero x H0). apply Qle_refl.
  - apply Qlt_le_weak, rnd_pos. apply Qnot_le_lt. intros H. apply H0. lra.
Qed.

Lemma rnd_mono_pos (x y : Q) : (0 < x)%Q -> (x <= y)%Q -> (rnd x <= rnd y)%Q.
Proof.
  intros Hx Hxy.
  assert (0 < y)%Q as Hy by (eapply Qlt_le_trans; eassumption).
  destruct (rnd_pos_eq x Hx) as (qx & Hqx & Eqx & ->).
  destruct (rnd_pos_eq y Hy) as (qy & Hqy & Eqy & ->).
  pose proof (ilog2_le x y Hx Hxy) as Hk.
  set (kx := ilog2 x) in *. set (ky := ilog2 y) in *.
  assert (kx = ky \/ kx + 1 <= ky) as [Heq|Hlt] by lia.
  - rewrite <- Heq in *. apply Qmult_le_compat_r; [|apply Qlt_le_weak, pow2_pos].
    rewrite <- Zle_Qle. subst qx qy. apply rni_mono.
    apply Qmult_le_compat_r; [exact Hxy|]. apply Qlt_le_weak, Qinv_lt_0_compat, pow2_pos.
  - apply Qle_trans with (inject_Z (2 ^ 53) * 2 ^ (kx - 52))%Q.
    { apply Qmult_le_compat_r; [|apply Qlt_le_weak, pow2_pos]. rewrite <- Zle_Qle. lia. }
    apply Qle_trans with (inject_Z (2 ^ 52) * 2 ^ (ky - 52))%Q.
    2:{ apply Qmult_le_compat_r; [|apply Qlt_le_weak, pow2_pos]. rewrite <- Zle_Qle. lia. }
    rewrite <- !pow2_Z by lia. rewrite <- !pow2_add. apply pow2_le. lia.
Qed.

Lemma rnd_mono (x y : Q) : (x <= y)%Q -> (rnd x <= rnd y)%Q.
Proof.
  intros Hxy. destruct (Qlt_le_dec 0 x) as [Hx|Hx].
  - now apply rnd_mono_pos.
  - destruct (Qlt_le_dec y 0) as [Hy|Hy].
    + assert (rnd (- y) <= rnd (- x))%Q as H by (apply rnd_mono_pos; lra).
      rewrite !rnd_opp in H. lra.
    + assert (0 <= rnd y)%Q by now apply rnd_nonneg.
      assert (0 <= rnd (- x))%Q as H' by (apply rnd_nonneg; lra).
      rewrite rnd_opp in H'. lra.
Qed.

(** Integers below 2^53 in magnitude are binary64 numbers. *)
Lemma rnd_Z_pos (n : Z) : 0 < n < 2 ^ 53 -> (rnd (inject_Z n) == inject_Z n)%Q.
Proof.
  intros Hn.
  assert (0 < inject_Z n)%Q as Hx by (change 0%Q with (inject_Z 0); rewrite <- Zlt_Qlt; lia).
  destruct (rnd_pos_eq _ Hx) as (q & _ & Eq & ->).
  destruct (ilog2_spec _ Hx) as [H1 _].
  set (k := ilog2 (inject_Z n)) in *.
  assert (k < 53) as Hk.
  { apply (Qpower_lt_compat_l_inv 2); [|reflexivity].
    eapply Qle_lt_trans; [exact H1|]. rewrite pow2_Z by lia. rewrite <- Zlt_Qlt. lia. }
  assert (inject_Z n / 2 ^ (k - 52) == inject_Z (n * 2 ^ (52 - k)))%Q as Hm.
  { rewrite inject_Z_mult, <- pow2_Z by lia.
    replace (52 - k) with (- (k - 52)) by lia. rewrite Qpower_opp. reflexivity. }
  rewrite (rni_comp _ _ Hm), rni_Z in Eq. subst q.
  rewrite <- Hm. apply pow2_scale.
Qed.

Lemma rnd_Z (n : Z) : Z.abs n < 2 ^ 53 -> (rnd (inject_Z n) == inject_Z n)%Q.
Proof.
  intros Hn. destruct (Z.lt_trichotomy n 0) as [H|[H|H]].
  - assert (rnd (inject_Z (- n)) == inject_Z (- n))%Q as H' by (apply rnd_Z_pos; lia).
    rewrite inject_Z_opp, rnd_opp in H'. lra.
  - subst n. reflexivity.
  - apply rnd_Z_pos. lia.
Qed.

Lemma rnd_pow2 (k : Z) : (rnd (2 ^ k) == 2 ^ k)%Q.
Proof.
  destruct (rnd_pos_eq _ (pow2_pos k)) as (q & _ & Eq & ->).
  assert (ilog2 (2 ^ k) = k) as Hk.
  { apply ilog2_unique. split; [apply Qle_refl|apply pow2_lt; lia]. }
  rewrite Hk in *.
  assert (2 ^ k / 2 ^ (k - 52) == inject_Z (2 ^ 52))%Q as Hm.
  { rewrite <- pow2_Z by lia. rewrite <- Qpower_minus by discriminate.
    now replace (k - (k - 52)) with 52 by lia. }
  rewrite (rni_comp _ _ Hm), rni_Z in Eq. subst q.
  rewrite <- Hm. apply pow2_scale.
Qed.

(** Rounding does not cross an integer of magnitude below 2^53. *)
Lemma rnd_le_Z (x : Q) (n : Z) :
  Z.abs n < 2 ^ 53 -> (x <= inject_Z n)%Q -> (rnd x <= inject_Z n)%Q.
Proof. intros Hn Hx. rewrite <- (rnd_Z n Hn). now apply rnd_mono. Qed.

Lemma rnd_ge_Z (x : Q) (n : Z) :
  Z.abs n < 2 ^ 53 -> (inject_Z n <= x)%Q -> (inject_Z n <= rnd x)%Q.
Proof. intros Hn Hx. rewrite <- (rnd_Z n Hn). now apply rnd_mono. Qed.

Lemma rnd_between (lo hi : Z) (x : Q) :
  Z.abs lo < 2 ^ 53 -> Z.abs hi < 2 ^ 53 ->
  (inject_Z lo <= x <= inject_Z hi)%Q -> (inject_Z lo <= rnd x <= inject_Z hi)%Q.
Proof. intros Hlo Hhi [H1 H2]. split; [now apply rnd_ge_Z|now apply rnd_le_Z]. Qed.

Lemma rnd_eq_zero (x : Q) : (rnd x == 0)%Q -> (x == 0)%Q.
Proof.
  intros H. destruct (Q_dec x 0) as [[Hlt|Hgt]|Heq]; [| |exact Heq]; exfalso.
  - assert (0 < rnd (- x))%Q as H' by (apply rnd_pos; lra).
    rewrite rnd_opp, H in H'. discriminate H'.
  - pose proof (rnd_pos x Hgt) as H'. rewrite H in H'. discriminate H'.
Qed.

(** A quarter of a positive number, or less, rounds strictly below it. *)
Lemma rnd_scale_lt (y c : Q) :
  (0 < y)%Q -> (0 <= c)%Q -> (c <= 1 # 4)%Q -> (rnd (y * c) < rnd y)%Q.
Proof.
  intros Hy Hc0 Hc. destruct (ilog2_spec y Hy) as [H1 H2].
  set (k := ilog2 y) in *.
  assert (2 ^ (k + 1) == 2 ^ (k - 1) * 4)%Q as E.
  { replace (k + 1) with ((k - 1) + 2) by lia. rewrite pow2_add. reflexivity. }
  assert (y * c <= 2 ^ (k - 1))%Q as H3.
  { apply Qle_trans with (y * (1 # 4))%Q.
    - rewrite !(Qmult_comm y). apply Qmult_le_compat_r; [exact Hc|now apply Qlt_le_weak].
    - rewrite E in H2. lra. }
  apply Qle_lt_trans with (2 ^ (k - 1))%Q.
  - rewrite <- (rnd_pow2 (k - 1)). now apply rnd_mono.
  - apply Qlt_le_trans with (2 ^ k)%Q; [apply pow2_lt; lia|].
    rewrite <- (rnd_pow2 k). now apply rnd_mono.
Qed.

(** The three steps of the running mean, between integer bounds. *)
Lemma fmul_count (lo hi c : Z) (m : Q) :
  0 <= lo -> 0 <= c -> c < 2 ^ 53 -> hi < 2 ^ 53 -> hi * c < 2 ^ 53 ->
  (inject_Z lo <= m <= inject_Z hi)%Q ->
  (inject_Z (lo * c) <= fmul m (fl c) <= inject_Z (hi * c))%Q.
Proof.
  intros Hlo Hc Hc53 Hhi53 Hhc [H1 H2].
  assert (lo <= hi) as Hlh by (rewrite Zle_Qle; lra).
  assert (inject_Z lo <= rnd m <= inject_Z hi)%Q as [H3 H4]
    by (apply rnd_between; [lia|lia|now split]).
  assert (0 <= inject_Z c)%Q as HcQ
    by (change 0%Q with (inject_Z 0); now rewrite <- Zle_Qle).
  unfold fmul, fl.
  rewrite (rnd_comp (rnd m * rnd (inject_Z c)) (rnd m * inject_Z c))
    by (rewrite (rnd_Z c) by lia; reflexivity).
  apply rnd_between; [nia|nia|]. rewrite !inject_Z_mult.
  split; apply Qmult_le_compat_r; assumption.
Qed.

Lemma fadd_value (lo hi v : Z) (s : Q) :
  0 <= lo -> 0 <= v -> hi + v < 2 ^ 53 ->
  (inject_Z lo <= s <= inject_Z hi)%Q ->
  (inject_Z (lo + v) <= fadd s (fl v) <= inject_Z (hi + v))%Q.
Proof.
  intros Hlo Hv Hhv [H1 H2].
  assert (lo <= hi) as Hlh by (rewrite Zle_Qle; lra).
  assert (inject_Z lo <= rnd s <= inject_Z hi)%Q as [H3 H4]
    by (apply rnd_between; [lia|lia|now split]).
  unfold fadd, fl.
  rewrite (rnd_comp (rnd s + rnd (inject_Z v)) (rnd s + inject_Z v))
    by (rewrite (rnd_Z v) by lia; reflexivity).
  apply rnd_between; [lia|lia|]. rewrite !inject_Z_plus. split; lra.
Qed.

Lemma fdiv_count (lo hi n : Z) (s : Q) :
  0 <= lo -> 0 < n -> n < 2 ^ 53 -> hi * n < 2 ^ 53 ->
  (inject_Z (lo * n) <= s <= inject_Z (hi * n))%Q ->
  (inject_Z lo <= fdiv s (fl n) <= inject_Z hi)%Q.
Proof.
  intros Hlo Hn Hn53 Hhn [H1 H2].
  assert (lo * n <= hi * n) as Hlh by (rewrite Zle_Qle; lra).
  assert (inject_Z (lo * n) <= rnd s <= inject_Z (hi * n))%Q as [H3 H4]
    by (apply rnd_between; [nia|nia|now split]).
  assert (0 < inject_Z n)%Q as HnQ
    by (change 0%Q with (inject_Z 0); now rewrite <- Zlt_Qlt).
  unfold fdiv, fl.
  rewrite (rnd_comp (rnd s / rnd (inject_Z n)) (rnd s / inject_Z n))
    by (rewrite (rnd_Z n) by lia; reflexivity).
  rewrite inject_Z_mult in H3, H4.
  apply rnd_between; [nia|nia|]. split.
  - now apply Qle_shift_div_l.
  - now apply Qle_shift_div_r.
Qed.

(** The same steps keep the sign. *)
Lemma merged_mean_sign (b : bin) (v : Z) :
  0 <= count b -> (0 <= mean b)%Q -> 0 <= v ->
  (0 <= mean (merged b v))%Q /\ (0 < v -> (0 < mean (merged b v))%Q).
Proof.
  intros Hc Hm Hv. unfold merged, fdiv, fadd, fmul, fl. cbn [mean].
  assert (0 <= inject_Z (count b))%Q as HcQ
    by (change 0%Q with (inject_Z 0); now rewrite <- Zle_Qle).
  assert (0 <= inject_Z v)%Q as HvQ
    by (change 0%Q with (inject_Z 0); now rewrite <- Zle_Qle).
  assert (0 < inject_Z (count b + 1))%Q as Hc1
    by (change 0%Q with (inject_Z 0); rewrite <- Zlt_Qlt; lia).
  pose proof (rnd_nonneg _ Hm) as H1. pose proof (rnd_nonneg _ HcQ) as H2.
  pose proof (rnd_nonneg _ (Qmult_le_0_compat _ _ H1 H2)) as H3.
  pose proof (rnd_nonneg _ H3) as H4. pose proof (rnd_nonneg _ HvQ) as H5.
  pose proof (rnd_pos _ Hc1) as H6.
  set (p := rnd (rnd (mean b) * rnd (inject_Z (count b)))) in *.
  split.
  - apply rnd_nonneg, Qle_shift_div_l; [exact H6|].
    rewrite Qmult_0_l. do 2 apply rnd_nonneg. lra.
  - intros Hv0.
    assert (0 < inject_Z v)%Q as Hv0Q
      by (change 0%Q with (inject_Z 0); now rewrite <- Zlt_Qlt).
    pose proof (rnd_pos _ Hv0Q) as H7.
    apply rnd_pos, Qlt_shift_div_l; [exact H6|].
    rewrite Qmult_0_l. do 2 apply rnd_pos. lra.
Qed.

(* ------------------------------------------------------------------ *)
(** ** The histogram loop places each value as the specification says *)

Lemma within_joins (t : Q) (v : Z) (b : bin) :
  within t v (mean b) = true <-> Spec.joins t v b.
Proof. unfold within, Spec.joins, fl. apply Qle_bool_iff. Qed.

Lemma within_false (t : Q) (v : Z) (b : bin) :
  within t v (mean b) = false <-> ~ Spec.joins t v b.
Proof.
  rewrite <- within_joins. destruct (within t v (mean b)); split; intros H;
    try discriminate; try reflexivity; try (intros H'; discriminate).
  now destruct H.
Qed.

Lemma merged_merge (b : bin) (v : Z) : merged b v = Spec.merge b v.
Proof. reflexivity. Qed.

Lemma find_bin_Some (t : Q) (v : Z) (bins rest : list bin) (i : nat) (bins' : list bin) :
  RabbitmqToTriq.find_bin t v bins i rest = Some bins' ->
  exists k b,
    rest !! k = Some b /\ Spec.joins t v b /\
    (forall j b', (j < k)%nat -> rest !! j = Some b' -> ~ Spec.joins t v b') /\
    bins' = <[(i + k)%nat := Spec.merge b v]> bins.
Proof.
  revert i. induction rest as [|b rest IH]; intros i; simpl; [discriminate|].
  destruct (within t v (mean b)) eqn:E.
  - intros [= <-]. exists 0%nat, b. rewrite Nat.add_0_r.
    repeat split; [now apply within_joins|intros j b' Hj; lia].
  - intros H. destruct (IH _ H) as (k & b0 & Hk & Hj & Hfirst & ->).
    exists (S k), b0. repeat split; [exact Hk|exact Hj| |f_equal; lia].
    intros [|j] b' Hlt Hb'; simpl in Hb'.
    + injection Hb' as <-. now apply within_false.
    + apply (Hfirst j); [lia|exact Hb'].
Qed.

Lemma find_bin_None (t : Q) (v : Z) (bins rest : list bin) (i : nat) :
  RabbitmqToTriq.find_bin t v bins i rest = None ->
  forall b, b ∈ rest -> ~ Spec.joins t v b.
Proof.
  revert i. induction rest as [|b rest IH]; intros i; simpl.
  - intros _ b Hb. inversion Hb.
  - destruct (within t v (mean b)) eqn:E; [discriminate|].
    intros H b' Hb'. apply elem_of_cons in Hb' as [->|Hb'].
    + now apply within_false.
    + now apply (IH _ H).
Qed.

Lemma add_value_place (t : Q) (bins : list bin) (v : Z) :
  Spec.place t v bins (RabbitmqToTriq.add_value t bins v).
Proof.
  unfold RabbitmqToTriq.add_value.
  destruct (RabbitmqToTriq.find_bin t v bins 0 bins) as [bins'|] eqn:E.
  - apply find_bin_Some in E as (k & b & Hk & Hj & Hfirst & ->).
    now apply Spec.place_merge.
  - apply Spec.place_append. now apply (find_bin_None _ _ _ _ _ E).
Qed.


Lemma fold_add_value_built (t : Q) (vs : list Z) (bins : list bin) :
  Spec.built t vs bins (fold_left (RabbitmqToTriq.add_value t) vs bins).
Proof.
  revert bins. induction vs as [|v vs IH]; intros bins; simpl.
  - constructor.
  - econstructor; [apply add_value_place|apply IH].
Qed.


(** The loop of the analyzer is the loop of [rabbitmq_to_triq.py] run
    with [self.TOLERANCE]. *)
Lemma analyzer_find_bin (self : PulseDataAnalyzer.t) (v : Z) (bins rest : list bin) (i : nat) :
  PulseDataAnalyzer.find_bin self v bins i rest
  = RabbitmqToTriq.find_bin (PulseDataAnalyzer.TOLERANCE self) v bins i rest.
Proof.
  revert i. induction rest as [|b rest IH]; intros i; simpl; [reflexivity|].
  now rewrite IH.
Qed.

Lemma analyzer_add_value (self : PulseDataAnalyzer.t) (bins : list bin) (v : Z) :
  PulseDataAnalyzer.add_value self bins v
  = RabbitmqToTriq.add_value (PulseDataAnalyzer.TOLERANCE self) bins v.
Proof.
  unfold PulseDataAnalyzer.add_value, RabbitmqToTriq.add_value.
  now rewrite analyzer_find_bin.
Qed.

Lemma analyzer_fold (self : PulseDataAnalyzer.t) (vs : list Z) (bins : list bin) :
  fold_left (PulseDataAnalyzer.add_value self) vs bins
  = fold_left (RabbitmqToTriq.add_value (PulseDataAnalyzer.TOLERANCE self)) vs bins.
Proof.
  revert bins. induction vs as [|v vs IH]; intros bins; simpl; [reflexivity|].
  now rewrite analyzer_add_value, IH.
Qed.

(** Both builders, without the early [return []]: the test on [values] is
    subsumed by the loop, which does not run on an empty list. *)
Lemma analyzer_histogram_fold (self : PulseDataAnalyzer.t) (values : list Z) :
  PulseDataAnalyzer._create_histogram self values
  = fold_left (RabbitmqToTriq.add_value (PulseDataAnalyzer.TOLERANCE self)) (sorted values) [].
Proof.
  destruct values as [|v values]; [reflexivity|].
  unfold PulseDataAnalyzer._create_histogram. apply analyzer_fold.
Qed.

Lemma triq_histogram_fold (values : list Z) (t : Q) :
  RabbitmqToTriq.create_histogram values t
  = sort_by_mean (fold_left (RabbitmqToTriq.add_value t) (sorted values) []).
Proof. destruct values as [|v values]; reflexivity. Qed.

(* ------------------------------------------------------------------ *)
(** ** Every bin stands for a group of input values *)


Lemma stands_for_fresh (v : Z) : Spec.stands_for [v] (fresh v).
Proof.
  split; simpl.
  - discriminate.
  - reflexivity.
  - split; [repeat constructor; lia|apply list_elem_of_here].
  - split; [repeat constructor; lia|apply list_elem_of_here].
Qed.

Lemma stands_for_merge (g : list Z) (b : bin) (v : Z) :
  Spec.stands_for g b -> Spec.stands_for (v :: g) (Spec.merge b v).
Proof.
  intros [Hne Hc [Hmin Hmin_in] [Hmax Hmax_in]].
  split; simpl.
  - discriminate.
  - rewrite Hc. lia.
  - split.
    + constructor; [lia|]. eapply Forall_impl; [exact Hmin|]. simpl. intros; lia.
    + destruct (Z.min_spec (bmin b) v) as [[_ ->]|[_ ->]];
        [now apply list_elem_of_further|apply list_elem_of_here].
  - split.
    + constructor; [lia|]. eapply Forall_impl; [exact Hmax|]. simpl. intros; lia.
    + destruct (Z.max_spec (bmax b) v) as [[_ ->]|[_ ->]];
        [apply list_elem_of_here|now apply list_elem_of_further].
Qed.

Lemma concat_insert_cons (groups : list (list Z)) (i : nat) (g : list Z) (v : Z) :
  groups !! i = Some g ->
  Permutation (concat (<[i := v :: g]> groups)) (v :: concat groups).
Proof.
  revert i. induction groups as [|g0 groups IH]; intros [|i] H; simpl in *;
    try discriminate.
  - now injection H as ->.
  - rewrite (IH _ H). symmetry. apply Permutation_middle.
Qed.

Lemma place_groups (t : Q) (v : Z) (bins bins' : list bin) (groups : list (list Z)) :
  Spec.place t v bins bins' ->
  Forall2 Spec.stands_for groups bins ->
  exists groups',
    Forall2 Spec.stands_for groups' bins' /\
    Permutation (concat groups') (v :: concat groups).
Proof.
  intros [i b Hi _ _|_] HF.
  - destruct (Forall2_lookup_r _ _ _ _ _ HF Hi) as (g & Hg & Hgb).
    exists (<[i := v :: g]> groups). split.
    + apply Forall2_insert; [exact HF|now apply stands_for_merge].
    + now apply concat_insert_cons.
  - exists (groups ++ [[v]]). split.
    + apply Forall2_app; [exact HF|]. constructor; [apply stands_for_fresh|constructor].
    + rewrite concat_app. simpl. symmetry. apply Permutation_cons_append.
Qed.

Lemma built_groups (t : Q) (vs : list Z) (bins bins' : list bin) (groups : list (list Z)) :
  Spec.built t vs bins bins' ->
  Forall2 Spec.stands_for groups bins ->
  exists groups',
    Forall2 Spec.stands_for groups' bins' /\
    Permutation (concat groups') (vs ++ concat groups).
Proof.
  intros H. revert groups. induction H as [bins|v vs bins mid bins' Hp _ IH]; intros groups HF.
  - exists groups. split; [exact HF|reflexivity].
  - destruct (place_groups _ _ _ _ _ Hp HF) as (g1 & HF1 & HP1).
    destruct (IH _ HF1) as (g2 & HF2 & HP2).
    exists g2. split; [exact HF2|].
    rewrite HP2, HP1. simpl. symmetry. apply Permutation_middle.
Qed.

(** The groups behind the bins the loop returns. *)
Lemma histogram_groups (t : Q) (values : list Z) :
  exists groups,
    Permutation (concat groups) values /\
    Forall2 Spec.stands_for groups
      (fold_left (RabbitmqToTriq.add_value t) (sorted values) []).
Proof.
  destruct (built_groups t (sorted values) [] _ [] (fold_add_value_built _ _ _))
    as (groups & HF & HP); [constructor|].
  exists groups. split; [|exact HF].
  rewrite HP. simpl. rewrite app_nil_r. apply sorted_perm.
Qed.

Lemma stands_for_count_sum (groups : list (list Z)) (bins : list bin) :
  Forall2 Spec.stands_for groups bins ->
  Spec.sum_list (map count bins) = Z.of_nat (length (concat groups)).
Proof.
  induction 1 as [|g b groups bins Hgb _ IH]; simpl; [reflexivity|].
  rewrite length_app, IH, (Spec.group_count _ _ Hgb). lia.
Qed.

(* ------------------------------------------------------------------ *)
(** ** The running mean between the least and the greatest value *)

Lemma bounded_weaken (hi k k' : Z) (b : bin) :
  k <= k' -> Cluster.bounded hi k b -> Cluster.bounded hi k' b.
Proof. unfold Cluster.bounded. intros Hk (Hc & H). split; [lia|exact H]. Qed.

Lemma fresh_bounded (hi k v : Z) :
  0 <= v <= hi -> 1 <= k -> Cluster.bounded hi k (fresh v).
Proof.
  intros Hv Hk. unfold Cluster.bounded, fresh, fl. cbn.
  repeat split; try lia; apply Qle_refl.
Qed.

Lemma bounded_min_max (hi k : Z) (b : bin) : Cluster.bounded hi k b -> bmin b <= bmax b.
Proof. intros (_ & _ & _ & H1 & H2). rewrite Zle_Qle. lra. Qed.

Lemma merged_bounded (hi k : Z) (b : bin) (v : Z) :
  0 <= v <= hi -> (hi + 1) * (k + 1) < 2 ^ 53 ->
  Cluster.bounded hi k b -> Cluster.bounded hi (k + 1) (merged b v).
Proof.
  intros Hv Hr Hb. pose proof (bounded_min_max _ _ _ Hb) as Hmm.
  destruct Hb as ((Hc1 & Hck) & Hmin & Hmax & Hlo & Hhi).
  unfold Cluster.bounded, merged. cbn [mean count bmin bmax].
  set (L := Z.min (bmin b) v). set (M := Z.max (bmax b) v). set (c := count b) in *.
  assert (0 <= L /\ L <= bmin b /\ L <= v) as (HL0 & HLb & HLv) by (subst L; lia).
  assert (M <= hi /\ bmax b <= M /\ v <= M) as (HMh & HMb & HMv) by (subst M; lia).
  assert (M * (c + 1) < 2 ^ 53 /\ c + 1 < 2 ^ 53 /\ M < 2 ^ 53) as (HMc & Hc53 & HM53) by nia.
  split; [lia|]. split; [exact HL0|]. split; [exact HMh|].
  apply fdiv_count; [exact HL0|lia|exact Hc53|exact HMc|].
  assert (inject_Z (L * c + v)
          <= fadd (fmul (mean b) (fl c)) (fl v)
          <= inject_Z (M * c + v))%Q as [H1 H2].
  { apply fadd_value; [nia|lia|nia|].
    apply fmul_count; [exact HL0|lia|lia|exact HM53|nia|].
    split.
    - eapply Qle_trans; [|exact Hlo]. now rewrite <- Zle_Qle.
    - eapply Qle_trans; [exact Hhi|]. now rewrite <- Zle_Qle. }
  split.
  - eapply Qle_trans; [|exact H1]. rewrite <- Zle_Qle. nia.
  - eapply Qle_trans; [exact H2|]. rewrite <- Zle_Qle. nia.
Qed.

Lemma place_bounded (hi k : Z) (t : Q) (v : Z) (bins bins' : list bin) :
  Spec.place t v bins bins' ->
  0 <= v <= hi -> 0 <= k -> (hi + 1) * (k + 1) < 2 ^ 53 ->
  Forall (Cluster.bounded hi k) bins -> Forall (Cluster.bounded hi (k + 1)) bins'.
Proof.
  intros [i b Hi _ _|_] Hv Hk Hr HF.
  - apply Forall_insert.
    + eapply Forall_impl; [exact HF|]. intros b'. apply bounded_weaken. lia.
    + rewrite <- merged_merge. apply merged_bounded; [exact Hv|exact Hr|].
      rewrite Forall_forall in HF. apply HF, list_elem_of_lookup. eauto.
  - apply Forall_app. split.
    + eapply Forall_impl; [exact HF|]. intros b'. apply bounded_weaken. lia.
    + constructor; [|constructor]. apply (fresh_bounded hi (k + 1) v); [exact Hv|lia].
Qed.

Lemma built_bounded (hi k : Z) (t : Q) (vs : list Z) (bins bins' : list bin) :
  Spec.built t vs bins bins' ->
  Forall (fun v => 0 <= v <= hi) vs -> 0 <= k ->
  (hi + 1) * (k + Z.of_nat (length vs)) < 2 ^ 53 ->
  Forall (Cluster.bounded hi k) bins ->
  Forall (Cluster.bounded hi (k + Z.of_nat (length vs))) bins'.
Proof.
  intros H. revert k. induction H as [bins|v vs bins mid bins' Hp _ IH];
    intros k Hvs Hk Hr HF.
  - cbn [length]. now rewrite Z.add_0_r.
  - inversion Hvs as [|? ? Hv Hvs']; subst. cbn [length] in *.
    rewrite Nat2Z.inj_succ in *.
    replace (k + Z.succ (Z.of_nat (length vs))) with ((k + 1) + Z.of_nat (length vs))
      in * by lia.
    apply IH; [exact Hvs'|lia|exact Hr|].
    apply (place_bounded hi k t v bins mid Hp Hv Hk); [nia|exact HF].
Qed.

(** On an input in range the loop leaves bins whose mean lies between
    their least and their greatest value. *)
Lemma histogram_bounded (hi : Z) (t : Q) (values : list Z) :
  Cluster.in_range hi values ->
  Forall (Cluster.bounded hi (Z.of_nat (length values)))
    (fold_left (RabbitmqToTriq.add_value t) (sorted values) []).
Proof.
  intros [Hv Hr].
  rewrite <- (Permutation_length (sorted_perm values)) in *.
  apply (built_bounded hi 0 t (sorted values) [] _ (fold_add_value_built _ _ _));
    [now rewrite sorted_perm|lia|exact Hr|constructor].
Qed.

(* ------------------------------------------------------------------ *)
(** ** The histogram builder *)
(* ------------------------------------------------------------------ *)
(** ** The histogram builder *)


(** C2, amended.  The bins returned by [_create_histogram] partition the
    input, whatever the integers and the tolerance: there are groups of
    input values, one per bin and together a rearrangement of the input,
    such that each bin counts its group and has the least and the greatest
    value of the group as [min] and [max]; hence the counts add up to the
    length of the input.  The mean of a bin is a running mean rounded at
    every step, and [min <= mean <= max] holds in every bin when the
    durations lie between 0 and a bound [hi] with (hi + 1) times their
    number below 2^53. *)
Theorem C2_histogram_partitions_input
    (self : PulseDataAnalyzer.t) (hi : Z) (values : list Z) :
  let bins := PulseDataAnalyzer._create_histogram self values in
  (exists groups,
     Permutation (concat groups) values /\ Forall2 Spec.stands_for groups bins) /\
  Spec.sum_list (map count bins) = Z.of_nat (length values) /\
  (Cluster.in_range hi values ->
   Forall (fun b => (inject_Z (bmin b) <= mean b <= inject_Z (bmax b))%Q) bins).
Proof.
  intros bins. subst bins. rewrite analyzer_histogram_fold.
  destruct (histogram_groups (PulseDataAnalyzer.TOLERANCE self) values)
    as (groups & HP & HF).
  split; [now exists groups|]. split.
  - rewrite (stands_for_count_sum _ _ HF). now rewrite HP.
  - intros Hr. eapply Forall_impl; [apply (histogram_bounded hi _ values Hr)|].
    intros b Hb. apply Hb.
Qed.

(** C2 on the capture [50, 52, 53, 62], which the loop splits into the
    bins of 50, 52, 53 and of 62. *)
Lemma C2_histogram_partitions_witness :
  exists self,
    PulseDataAnalyzer.init None = Some self /\
    Cluster.in_range 62 [50; 52; 53; 62] /\
    length (PulseDataAnalyzer._create_histogram self [50; 52; 53; 62]) = 2%nat /\
    Forall (fun b => (inject_Z (bmin b) <= mean b <= inject_Z (bmax b))%Q)
      (PulseDataAnalyzer._create_histogram self [50; 52; 53; 62]).
Proof.
  eexists. split; [reflexivity|].
  assert (Cluster.in_range 62 [50; 52; 53; 62]) as H
    by (split; [repeat constructor; lia|reflexivity]).
  split; [exact H|]. split; [vm_compute; reflexivity|].
  exact (proj2 (proj2 (C2_histogram_partitions_input _ 62 [50; 52; 53; 62])) H).
Defined.

(** C2 refuted as stated: three equal durations below 2^53, which binary64
    holds exactly, give one bin whose mean is below its [min].  The first
    merge is exact, [(v + v) / 2 = v].  In the second, [v * 2 + v] is not
    a binary64 number: it lies half-way between two of them and is rounded
    to the lower one, and its third is rounded down to [v - 1]. *)
Lemma C2_mean_below_min :
  exists self b,
    PulseDataAnalyzer.init None = Some self /\
    9007199254740902 < 2 ^ 53 /\
    PulseDataAnalyzer._create_histogram self
      [9007199254740902; 9007199254740902; 9007199254740902] = [b] /\
    count b = 3 /\ bmin b = 9007199254740902 /\ bmax b = 9007199254740902 /\
    (mean b == 9007199254740901)%Q /\
    ~ (inject_Z (bmin b) <= mean b)%Q.
Proof.
  eexists _, _. split; [reflexivity|]. split; [reflexivity|].
  split; [vm_compute; reflexivity|]. cbn [count bmin bmax mean].
  repeat split. intros H. vm_compute in H. now apply H.
Qed.

(** Rounding decides the bins.  On [50, 52, 53, 62] the mean of the first
    three values is the binary64 number 51.666666666666664, which turns
    62 down; on the exact mean 155/3 the test is a tie, which holds. *)
Lemma rounding_decides_the_bins :
  let exact := Spec.merge_exactly (Spec.merge_exactly (fresh 50) 52) 53 in
  exists b,
    RabbitmqToTriq.create_histogram [50; 52; 53; 62] (2 # 10) = [b; fresh 62] /\
    mean b = 7271436898358613 # 140737488355328 /\
    count b = 3 /\ bmin b = 50 /\ bmax b = 53 /\
    within (2 # 10) 62 (mean b) = false /\
    (mean exact == 155 # 3)%Q /\
    Spec.joins_exactly (2 # 10) 62 exact.
Proof.
  intros exact. eexists. split; [vm_compute; reflexivity|]. cbn [mean count bmin bmax].
  repeat split; unfold Spec.joins_exactly; vm_compute; discriminate.
Qed.

(* ------------------------------------------------------------------ *)
(** ** Classification *)
(* ------------------------------------------------------------------ *)
(** ** Classification *)

(** C3.  The branch [_guess_modulation] takes is the first matching row
    of the table over N = |pulse_widths|, P = |pulse bins|, G = |gap bins|,
    and Unknown when no row matches. *)
Theorem C3_guess_is_first_matching_row
    (self : PulseDataAnalyzer.t) (pulse_widths gap_widths : list Z) :
  let N := Z.of_nat (length pulse_widths) in
  let P := Z.of_nat (length (PulseDataAnalyzer._create_histogram self pulse_widths)) in
  let G := Z.of_nat (length (PulseDataAnalyzer._create_histogram self gap_widths)) in
  fst (PulseDataAnalyzer._guess_modulation self pulse_widths gap_widths)
  = Spec.classify N P G.
Proof.
  intros N P G. unfold PulseDataAnalyzer._guess_modulation, Spec.classify.
  fold N P G. cbn [Spec.first_match Spec.table]. rewrite Z.gtb_ltb.
  destruct (N =? 1); [reflexivity|].
  destruct (P =? 1), (G =? 1), (1 <? G), (P =? 2), (G =? 2), (P =? 3); reflexivity.
Qed.

(* ------------------------------------------------------------------ *)
(** ** The two copies of the histogram *)

(** C10.  With the tolerance 0.2 of both scripts, [create_histogram]
    returns the list of [_create_histogram] sorted ascending by mean: the
    same bins, in ascending order of mean, where [_create_histogram]
    leaves them in the order in which the loop created them.  [self] is
    any analyzer object [__init__] returns. *)
Theorem C10_triq_histogram_is_sorted_analyzer_histogram
    (rate_Hz : option Z) (self : PulseDataAnalyzer.t) (values : list Z) :
  PulseDataAnalyzer.init rate_Hz = Some self ->
  let created := PulseDataAnalyzer._create_histogram self values in
  let by_mean := RabbitmqToTriq.create_histogram values RabbitmqToTriq.default_tolerance in
  by_mean = sort_by_mean created /\
  Permutation by_mean created /\
  Sorted Spec.by_mean by_mean /\
  Spec.built (2 # 10) (sorted values) [] created.
Proof.
  intros Hself created by_mean. subst created by_mean.
  rewrite analyzer_histogram_fold, triq_histogram_fold.
  assert (PulseDataAnalyzer.TOLERANCE self = RabbitmqToTriq.default_tolerance) as ->.
  { unfold PulseDataAnalyzer.init in Hself.
    destruct (default 250000 rate_Hz =? 0); [discriminate|].
    now injection Hself as <-. }
  split; [reflexivity|]. split; [apply sort_by_mean_perm|].
  split; [apply sort_by_mean_Sorted|apply fold_add_value_built].
Qed.

(** C10 on the capture [400, 100, 118, 440] at the default rate. *)
Lemma C10_triq_histogram_witness :
  exists self,
    PulseDataAnalyzer.init None = Some self /\
    let created := PulseDataAnalyzer._create_histogram self [400; 100; 118; 440] in
    let by_mean :=
      RabbitmqToTriq.create_histogram [400; 100; 118; 440]
        RabbitmqToTriq.default_tolerance in
    by_mean = sort_by_mean created /\
    Permutation by_mean created /\
    Sorted Spec.by_mean by_mean /\
    Spec.built (2 # 10) (sorted [400; 100; 118; 440]) [] created.
Proof.
  eexists. split; [reflexivity|].
  exact (C10_triq_histogram_is_sorted_analyzer_histogram None _ [400; 100; 118; 440]
           eq_refl).
Defined.

(* ------------------------------------------------------------------ *)
(** ** The flex decoder suggestion *)





(** The field the reset limit is computed from, in the [OOK_PPM] branch
    and with at least one gap bin: it is [x[2]] of the last gap bin, the
    [min] of the tuple [(mean, count, min, max)]. *)
Lemma suggest_ppm_reset_limit (self : PulseDataAnalyzer.t)
    (p : bin) (pulse_bins : list bin) (g : bin) (gap_bins : list bin) :
  exists g_last short_width long_width gap_limit,
    last (sort_by_mean (g :: gap_bins)) = Some g_last /\
    PulseDataAnalyzer.outcome
      (PulseDataAnalyzer._suggest_flex_decoder self "OOK_PPM"
         (p :: pulse_bins) (g :: gap_bins) false)
    = PulseDataAnalyzer.Suggested
        (PulseDataAnalyzer.FlexPPM short_width long_width gap_limit
           (fl (bmin g_last) * PulseDataAnalyzer.to_us self + 100)).
Proof.
  unfold PulseDataAnalyzer._suggest_flex_decoder.
  cbn [String.eqb Ascii.eqb Bool.eqb PulseDataAnalyzer.outcome].
  assert (length (sort_by_mean (g :: gap_bins)) = S (length gap_bins)) as Hlen
    by (unfold sort_by_mean; now rewrite stable_sort_length).
  destruct (sort_by_mean (g :: gap_bins)) as [|g0 gs] eqn:E; [discriminate|].
  destruct (last (g0 :: gs)) as [gl|] eqn:El; [|apply last_None in El; discriminate].
  unfold PulseDataAnalyzer.item, PulseDataAnalyzer.item_last. rewrite El.
  cbn [lookup list_lookup mbind option_bind].
  destruct (1 <? Z.of_nat (length (g0 :: gs))) eqn:E1.
  - destruct gs as [|g1 gs]; [discriminate|]. cbn. eauto 8.
  - cbn. eauto 8.
Qed.

(** The same field in the [OOK_PWM] branches, with at least one gap bin. *)
Lemma pwm_params_reset_limit (self : PulseDataAnalyzer.t) (gap_bins : list bin)
    (g_last : bin) (short_width long_width sync_width : Q) :
  last gap_bins = Some g_last ->
  PulseDataAnalyzer.pwm_params self gap_bins short_width long_width sync_width
  = Some (PulseDataAnalyzer.FlexPWM short_width long_width
            (fl (bmin g_last) * PulseDataAnalyzer.to_us self + 100)
            (Qabs (long_width - short_width) * (4 # 10)) sync_width).
Proof.
  intros H. unfold PulseDataAnalyzer.pwm_params, PulseDataAnalyzer.item_last.
  destruct gap_bins; [discriminate|]. now rewrite H.
Qed.

(** C4.  On the capture [100,200,100,400,100,200,100,440] at 250 kHz
    (one pulse bin, two gap bins: PpmFixedPulse) the last gap bin has
    min 400 and max 440; the suggested reset limit is 400·4 + 100 = 1700,
    where the maximum gives 440·4 + 100 = 1860.  The [OOK_PWM] branch
    reads the same field: on [100,300,200,330,100,300,200,330]
    (PwmFixedGap, one gap bin with min 300 and max 330) the reset limit
    is 1300, not 1420. *)
Theorem C4_reset_limit_reads_min_field :
  exists self,
  PulseDataAnalyzer.init (Some 250000) = Some self /\
  (exists call g_last short_width long_width gap_limit reset_limit,
     PulseDataAnalyzer.analyze self [100; 200; 100; 400; 100; 200; 100; 440]
     = Some (PulseDataAnalyzer.PpmFixedPulse, Some call) /\
     PulseDataAnalyzer.outcome call
     = PulseDataAnalyzer.Suggested
         (PulseDataAnalyzer.FlexPPM short_width long_width gap_limit reset_limit) /\
     last (PulseDataAnalyzer.gap_bins_after call) = Some g_last /\
     bmin g_last = 400 /\ bmax g_last = 440 /\
     (reset_limit == 1700)%Q /\
     (inject_Z (bmax g_last) * PulseDataAnalyzer.to_us self + 100 == 1860)%Q) /\
  (exists call g_last short_width long_width reset_limit tolerance sync_width,
     PulseDataAnalyzer.analyze self [100; 300; 200; 330; 100; 300; 200; 330]
     = Some (PulseDataAnalyzer.PwmFixedGap, Some call) /\
     PulseDataAnalyzer.outcome call
     = PulseDataAnalyzer.Suggested
         (PulseDataAnalyzer.FlexPWM short_width long_width reset_limit
            tolerance sync_width) /\
     last (PulseDataAnalyzer.gap_bins_after call) = Some g_last /\
     bmin g_last = 300 /\ bmax g_last = 330 /\
     (reset_limit == 1300)%Q /\
     (inject_Z (bmax g_last) * PulseDataAnalyzer.to_us self + 100 == 1420)%Q).
Proof.
  eexists. split; [reflexivity|]. split.
  - eexists _, _, _, _, _, _.
    split; [vm_compute; reflexivity|]. split; [reflexivity|].
    split; [reflexivity|]. repeat split; reflexivity.
  - eexists _, _, _, _, _, _, _.
    split; [vm_compute; reflexivity|]. split; [reflexivity|].
    split; [reflexivity|]. repeat split; reflexivity.
Qed.

(* ------------------------------------------------------------------ *)
(** ** What a suggestion does to the lists it is given *)

Lemma suggest_lists_after (self : PulseDataAnalyzer.t) (modulation : string)
    (p : bin) (pulse_bins gap_bins : list bin) (has_sync : bool) :
  let call := PulseDataAnalyzer._suggest_flex_decoder self modulation
                (p :: pulse_bins) gap_bins has_sync in
  PulseDataAnalyzer.gap_bins_after call = sort_by_mean gap_bins /\
  PulseDataAnalyzer.pulse_bins_after call
  = if String.eqb modulation "OOK_PWM" && has_sync
       && (3 <=? Z.of_nat (length (p :: pulse_bins)))
    then sort_by_count (sort_by_mean (p :: pulse_bins))
    else sort_by_mean (p :: pulse_bins).
Proof.
  unfold PulseDataAnalyzer._suggest_flex_decoder.
  assert (length (sort_by_mean (p :: pulse_bins)) = length (p :: pulse_bins)) as Hlen
    by (unfold sort_by_mean; now rewrite stable_sort_length).
  rewrite Hlen.
  destruct (String.eqb modulation "OOK_PPM") eqn:Eppm.
  - apply String.eqb_eq in Eppm. subst modulation. split; reflexivity.
  - destruct (String.eqb modulation "OOK_PWM"); [|split; reflexivity].
    cbn [andb]. destruct (has_sync && _); split; reflexivity.
Qed.

(** C9, as the code has it.  A suggestion reorders the lists it is given
    and keeps their bins: with no pulse bin both lists are left alone;
    otherwise the gap bins are left sorted ascending by mean, and the
    pulse bins sorted ascending by mean, or by count (ties by mean) when
    an [OOK_PWM] suggestion with sync is asked on three bins or more. *)
Theorem C9_suggestion_sorts_its_lists_in_place
    (self : PulseDataAnalyzer.t) (modulation : string)
    (pulse_bins gap_bins : list bin) (has_sync : bool) :
  let call := PulseDataAnalyzer._suggest_flex_decoder self modulation
                pulse_bins gap_bins has_sync in
  Permutation (PulseDataAnalyzer.pulse_bins_after call) pulse_bins /\
  Permutation (PulseDataAnalyzer.gap_bins_after call) gap_bins /\
  match pulse_bins with
  | [] =>
      PulseDataAnalyzer.pulse_bins_after call = [] /\
      PulseDataAnalyzer.gap_bins_after call = gap_bins
  | _ :: _ =>
      PulseDataAnalyzer.gap_bins_after call = sort_by_mean gap_bins /\
      Sorted Spec.by_mean (PulseDataAnalyzer.gap_bins_after call) /\
      PulseDataAnalyzer.pulse_bins_after call
      = (if String.eqb modulation "OOK_PWM" && has_sync
            && (3 <=? Z.of_nat (length pulse_bins))
         then sort_by_count (sort_by_mean pulse_bins)
         else sort_by_mean pulse_bins) /\
      (Sorted Spec.by_mean (PulseDataAnalyzer.pulse_bins_after call) \/
       Sorted Spec.by_count (PulseDataAnalyzer.pulse_bins_after call))
  end.
Proof.
  destruct pulse_bins as [|p pulse_bins].
  - cbn. repeat split; reflexivity.
  - intros call.
    destruct (suggest_lists_after self modulation p pulse_bins gap_bins has_sync)
      as [Hg Hp].
    fold call in Hg, Hp. rewrite Hg, Hp.
    split; [|split; [apply sort_by_mean_perm|]].
    + destruct (_ && _); [rewrite sort_by_count_perm|]; apply sort_by_mean_perm.
    + split; [reflexivity|]. split; [apply sort_by_mean_Sorted|].
      split; [reflexivity|].
      destruct (_ && _); [right; apply sort_by_count_Sorted|left; apply sort_by_mean_Sorted].
Qed.

(** C9 refuted as stated: the three pulse bins of the capture
    [100,100,200,200,400] are created in the order 100, 200, 400; after
    the suggestion with sync the list starts with the bin of 400. *)
Lemma C9_suggestion_mutates_pulse_bins :
  exists self,
  PulseDataAnalyzer.init None = Some self /\
  let pulse_bins := PulseDataAnalyzer._create_histogram self [100; 100; 200; 200; 400] in
  let gap_bins := PulseDataAnalyzer._create_histogram self [300; 300; 300; 300] in
  PulseDataAnalyzer.pulse_bins_after
    (PulseDataAnalyzer._suggest_flex_decoder self "OOK_PWM" pulse_bins gap_bins true)
  <> pulse_bins.
Proof. eexists. split; [reflexivity|]. vm_compute. discriminate. Qed.

(* ------------------------------------------------------------------ *)
(** ** Hexadecimal rendering *)

Lemma append_empty_r (s : string) : (s ++ "")%string = s.
Proof. induction s as [|c s IH]; simpl; [reflexivity|now rewrite IH]. Qed.

Lemma append_assoc (s1 s2 s3 : string) :
  ((s1 ++ s2) ++ s3)%string = (s1 ++ (s2 ++ s3))%string.
Proof. induction s1 as [|c s1 IH]; simpl; [reflexivity|now rewrite IH]. Qed.

Lemma append_length (s1 s2 : string) :
  String.length (s1 ++ s2) = (String.length s1 + String.length s2)%nat.
Proof. induction s1 as [|c s1 IH]; simpl; [reflexivity|now rewrite IH]. Qed.

(** ["".join(l)] *)
Lemma join_cons (x : string) (l : list string) :
  String.concat "" (x :: l) = (x ++ String.concat "" l)%string.
Proof. destruct l; simpl; [now rewrite append_empty_r|reflexivity]. Qed.

Lemma join_app (l1 l2 : list string) :
  String.concat "" (l1 ++ l2)
  = (String.concat "" l1 ++ String.concat "" l2)%string.
Proof.
  induction l1 as [|x l1 IH]; [reflexivity|].
  change ((x :: l1) ++ l2) with (x :: (l1 ++ l2)).
  now rewrite !join_cons, IH, append_assoc.
Qed.

Lemma to_hex_app (l1 l2 : list Z) :
  Spec.to_hex (l1 ++ l2) = (Spec.to_hex l1 ++ Spec.to_hex l2)%string.
Proof. unfold Spec.to_hex. now rewrite map_app, join_app. Qed.

Lemma to_hex_length (bytes : list Z) :
  String.length (Spec.to_hex bytes) = (2 * length bytes)%nat.
Proof.
  unfold Spec.to_hex. induction bytes as [|b bytes IH]; [reflexivity|].
  cbn [map]. rewrite join_cons, append_length, IH. cbn [length Spec.hex_byte String.length].
  lia.
Qed.

(** The two formats of the source on the values they are used for,
    checked value by value. *)
Lemma format_X_2_table :
  forallb (fun n => String.eqb (RabbitmqToTriq.format_X 2 (Z.of_nat n))
                      (Spec.hex_byte (Z.of_nat n)))
          (seq 0 256) = true.
Proof. vm_compute. reflexivity. Qed.

Lemma format_X_2_byte (b : Z) :
  0 <= b <= 255 -> RabbitmqToTriq.format_X 2 b = Spec.hex_byte b.
Proof.
  intros Hb. pose proof format_X_2_table as H.
  rewrite forallb_forall in H. specialize (H (Z.to_nat b)).
  rewrite Z2Nat.id in H by lia. apply String.eqb_eq, H, in_seq. lia.
Qed.

Lemma format_X_4_table :
  forallb (fun hi =>
     forallb (fun lo =>
        String.eqb (RabbitmqToTriq.format_X 4 (Z.of_nat hi * 256 + Z.of_nat lo))
          (Spec.hex_byte (Z.of_nat hi) ++ Spec.hex_byte (Z.of_nat lo)))
       (seq 0 256))
    (seq 0 256) = true.
Proof. vm_compute. reflexivity. Qed.

Lemma format_X_4_be16 (x : Z) :
  0 <= x <= 65535 -> RabbitmqToTriq.format_X 4 x = Spec.to_hex (Spec.be16 x).
Proof.
  intros Hx. unfold Spec.be16, Spec.to_hex. cbn [map]. rewrite !join_cons.
  cbn [String.concat]. rewrite append_empty_r.
  rewrite Z.shiftr_div_pow2 by lia. change 255 with (Z.ones 8).
  rewrite Z.land_ones by lia. change (2 ^ 8) with 256.
  pose proof format_X_4_table as H. rewrite forallb_forall in H.
  specialize (H (Z.to_nat (x / 256))).
  assert (0 <= x / 256 < 256) as Hhi
    by (split; [apply Z.div_pos; lia|apply Z.div_lt_upper_bound; lia]).
  assert (0 <= x mod 256 < 256) as Hlo by (apply Z.mod_pos_bound; lia).
  assert (In (Z.to_nat (x / 256)) (seq 0 256)) as Hin_hi by (apply in_seq; lia).
  assert (In (Z.to_nat (x mod 256)) (seq 0 256)) as Hin_lo by (apply in_seq; lia).
  specialize (H Hin_hi). rewrite forallb_forall in H. specialize (H _ Hin_lo).
  rewrite !Z2Nat.id in H by lia.
  rewrite Z.mul_comm, <- Z.div_mod in H by lia.
  now apply String.eqb_eq.
Qed.

(* ------------------------------------------------------------------ *)
(** ** Pulses, gaps and pairs *)

Lemma pair_induction {A : Type} (P : list A -> Prop) :
  P [] -> (forall x, P [x]) -> (forall x y l, P l -> P (x :: y :: l)) ->
  forall l, P l.
Proof.
  intros H0 H1 H2 l. enough (P l /\ forall x, P (x :: l)) as [H _] by exact H.
  induction l as [|y l [IH IH']]; split; auto.
Qed.

Lemma fold_left_over_map {A B C : Type} (f : A -> B -> A) (g : C -> B)
    (l : list C) (a : A) :
  fold_left f (map g l) a = fold_left (fun a x => f a (g x)) l a.
Proof. revert a. induction l as [|x l IH]; intros a; simpl; [reflexivity|apply IH]. Qed.

Lemma range_by_2_SS (n : nat) :
  RabbitmqToTriq.range_by_2 (S (S n))
  = 0%nat :: map (fun i => S (S i)) (RabbitmqToTriq.range_by_2 n).
Proof.
  unfold RabbitmqToTriq.range_by_2.
  replace (S (S n) + 1)%nat with (S (S (n + 1))) by lia.
  cbn [Nat.div2 seq map]. f_equal.
  rewrite <- seq_shift, !map_map. apply map_ext. intros k. lia.
Qed.

Lemma fold_left_pointwise {A B : Type} (f g : A -> B -> A) (l : list B) (a : A) :
  (forall a x, f a x = g a x) -> fold_left f l a = fold_left g l a.
Proof.
  intros H. revert a. induction l as [|x l IH]; intros a; simpl; [reflexivity|].
  now rewrite H, IH.
Qed.

Lemma separate_every_other (pulses : list Z) :
  RabbitmqToTriq.separate pulses
  = (Spec.pulse_widths pulses, Spec.gap_widths pulses).
Proof.
  unfold RabbitmqToTriq.separate, Spec.pulse_widths, Spec.gap_widths.
  enough (forall pw gw,
    fold_left (RabbitmqToTriq.separate_at pulses)
      (RabbitmqToTriq.range_by_2 (length pulses)) (pw, gw)
    = (pw ++ PulseDataAnalyzer.every_other pulses,
       gw ++ PulseDataAnalyzer.every_other (tail pulses))) as H by apply (H [] []).
  induction pulses as [|x|x y l IH] using pair_induction; intros pw gw.
  - cbn. now rewrite !app_nil_r.
  - cbn. now rewrite !app_nil_r.
  - cbn [length]. rewrite range_by_2_SS. cbn [fold_left].
    rewrite fold_left_over_map.
    rewrite (fold_left_pointwise _ (RabbitmqToTriq.separate_at l))
      by (intros [a b] i; reflexivity).
    cbn [RabbitmqToTriq.separate_at lookup list_lookup Nat.add].
    rewrite IH. cbn [PulseDataAnalyzer.every_other tail].
    rewrite <- !app_assoc. f_equal; f_equal; simpl; f_equal; now destruct l.
Qed.

Lemma every_other_lengths {A : Type} (l : list A) :
  let pw := PulseDataAnalyzer.every_other l in
  let gw := PulseDataAnalyzer.every_other (tail l) in
  (length pw + length gw = length l)%nat /\
  (length gw <= length pw <= length gw + 1)%nat.
Proof.
  induction l as [|x|x y l IH] using pair_induction; cbn; [lia|lia|].
  cbn in IH. destruct l; cbn in *; lia.
Qed.

(* ------------------------------------------------------------------ *)
(** ** Index lookup and the data bytes *)

Lemma find_from_spec (t : Q) (v : Z) (i : Z) (rest : list bin) :
  (RabbitmqToTriq.find_from t v i rest = -1 /\ Spec.unmatched t v rest) \/
  (exists k, RabbitmqToTriq.find_from t v i rest = i + Z.of_nat k /\
             Spec.first_index t v rest k) \/
  i < 0.
Proof.
  destruct (Z.ltb_spec i 0) as [Hneg|Hi]; [now right; right|].
  revert i Hi. induction rest as [|b rest IH]; intros i Hi; simpl.
  - left. split; [reflexivity|]. intros b Hb. inversion Hb.
  - destruct (within t v (mean b)) eqn:E.
    + right; left. exists 0%nat. split; [lia|]. split.
      * exists b. split; [reflexivity|now apply within_joins].
      * intros j b' Hj. lia.
    + apply within_false in E.
      destruct (IH (i + 1)) as [[Hm Hu]|[(k & Hk & (b0 & Hb0 & Hj) & Hfirst)|Hneg]]; [lia| | |lia].
      * left. split; [exact Hm|]. intros b' Hb'.
        apply elem_of_cons in Hb' as [->|Hb']; [exact E|now apply Hu].
      * right; left. exists (S k). split; [lia|]. split.
        -- exists b0. split; [exact Hb0|exact Hj].
        -- intros [|j] b' Hlt Hb'; simpl in Hb'.
           ++ now injection Hb' as <-.
           ++ apply (Hfirst j); [lia|exact Hb'].
Qed.

(** [find_timing_bin_index] is a first-match scan: the index of the first
    bin the value joins, or -1 when it joins none. *)
Lemma find_timing_bin_index_spec (v : Z) (timing_bins : list bin) (t : Q) :
  (RabbitmqToTriq.find_timing_bin_index v timing_bins t = -1 /\
   Spec.unmatched t v timing_bins) \/
  (exists k, RabbitmqToTriq.find_timing_bin_index v timing_bins t = Z.of_nat k /\
             Spec.first_index t v timing_bins k).
Proof.
  unfold RabbitmqToTriq.find_timing_bin_index.
  destruct (find_from_spec t v 0 timing_bins) as [H|[H|H]]; [now left|now right|lia].
Qed.

Lemma first_index_bound (t : Q) (v : Z) (bins : list bin) (k : nat) :
  Spec.first_index t v bins k -> (k < length bins)%nat.
Proof. intros [(b & Hb & _) _]. now apply lookup_lt_Some in Hb. Qed.

Lemma data_byte_range (p g : Z) :
  0 <= p < 8 -> 0 <= g < 8 -> 128 <= Spec.data_byte p g <= 255.
Proof.
  intros Hp Hg.
  assert (p = 0 \/ p = 1 \/ p = 2 \/ p = 3 \/ p = 4 \/ p = 5 \/ p = 6 \/ p = 7) as Hp' by lia.
  assert (g = 0 \/ g = 1 \/ g = 2 \/ g = 3 \/ g = 4 \/ g = 5 \/ g = 6 \/ g = 7) as Hg' by lia.
  repeat (destruct Hp' as [->|Hp']); try subst p;
    repeat (destruct Hg' as [->|Hg']); try subst g; vm_compute; split; discriminate.
Qed.

Lemma pair_bytes_range (t : Q) (bins : list bin) (pr : Z * Z) (chunk : list Z) :
  (length bins <= 8)%nat -> Spec.pair_bytes t bins pr chunk ->
  Forall (fun b => 128 <= b <= 255) chunk.
Proof.
  intros Hlen [p g pi gi Hp Hg|p g _]; [|constructor].
  apply first_index_bound in Hp, Hg. repeat constructor; apply data_byte_range; lia.
Qed.

Lemma encode_pair_spec (p g : Z) (timing_bins : list bin) :
  exists chunk,
    Spec.pair_bytes RabbitmqToTriq.default_tolerance timing_bins (p, g) chunk /\
    RabbitmqToTriq.encode_pair p g timing_bins
    = map (RabbitmqToTriq.format_X 2) chunk.
Proof.
  unfold RabbitmqToTriq.encode_pair.
  destruct (find_timing_bin_index_spec p timing_bins RabbitmqToTriq.default_tolerance)
    as [[-> Hu]|(pi & -> & Hp)].
  - exists []. split; [apply Spec.pair_skipped; now left|reflexivity].
  - destruct (find_timing_bin_index_spec g timing_bins RabbitmqToTriq.default_tolerance)
      as [[-> Hu]|(gi & -> & Hg)].
    + exists []. split; [apply Spec.pair_skipped; now right|].
      now rewrite andb_false_r.
    + exists [Spec.data_byte (Z.of_nat pi) (Z.of_nat gi)].
      split; [now apply Spec.pair_encoded|].
      replace (Z.of_nat pi >=? 0) with true by (symmetry; apply Z.geb_le; lia).
      replace (Z.of_nat gi >=? 0) with true by (symmetry; apply Z.geb_le; lia).
      reflexivity.
Qed.

Lemma encode_pairs_spec (prs : list (Z * Z)) (timing_bins : list bin) :
  exists chunks,
    Forall2 (Spec.pair_bytes RabbitmqToTriq.default_tolerance timing_bins) prs chunks /\
    flat_map (fun '(p, g) => RabbitmqToTriq.encode_pair p g timing_bins) prs
    = map (RabbitmqToTriq.format_X 2) (concat chunks).
Proof.
  induction prs as [|[p g] prs (chunks & HF & IH)].
  - exists []. split; [constructor|reflexivity].
  - destruct (encode_pair_spec p g timing_bins) as (chunk & Hc & E).
    exists (chunk :: chunks). split; [now constructor|].
    cbn [flat_map concat]. now rewrite map_app, E, IH.
Qed.

(** The loop pairs pulse [i] with gap [i], and a pulse without a gap
    with 0. *)
Lemma encode_pulses_pairs (pulse_widths gap_widths : list Z) (timing_bins : list bin) :
  RabbitmqToTriq.encode_pulses pulse_widths gap_widths timing_bins
  = flat_map (fun '(p, g) => RabbitmqToTriq.encode_pair p g timing_bins)
      (zip pulse_widths gap_widths
       ++ map (fun p => (p, 0)) (drop (length gap_widths) pulse_widths)).
Proof.
  unfold RabbitmqToTriq.encode_pulses.
  revert gap_widths. induction pulse_widths as [|p pw IH]; intros gw.
  - now rewrite drop_nil.
  - cbn [length seq flat_map]. rewrite <- seq_shift, flat_map_concat_map, map_map.
    rewrite <- flat_map_concat_map. cbn [lookup list_lookup].
    destruct gw as [|g gw]; cbn [lookup list_lookup default from_option].
    + specialize (IH []). rewrite zip_with_nil_r in IH.
      cbn [length drop zip zip_with app map flat_map] in IH |- *.
      rewrite drop_0 in IH.
      f_equal. rewrite <- IH. apply flat_map_ext. intros i. now destruct (pw !! i).
    + cbn [length drop zip zip_with app map flat_map]. f_equal. apply IH.
Qed.

(* ------------------------------------------------------------------ *)
(** ** Means of the timing bins *)

(** What holds of a fresh bin and is kept by a merge holds of every bin. *)
Lemma built_Forall (P : bin -> Prop) (V : Z -> Prop) (t : Q)
    (vs : list Z) (bins bins' : list bin) :
  (forall v, V v -> P (fresh v)) ->
  (forall b v, V v -> P b -> P (merged b v)) ->
  Spec.built t vs bins bins' -> Forall V vs -> Forall P bins -> Forall P bins'.
Proof.
  intros Hfresh Hmerged H.
  induction H as [bins|v vs bins mid bins' Hp _ IH]; intros HV HP; [exact HP|].
  inversion HV as [|? ? Hv HV']; subst. apply IH; [exact HV'|].
  destruct Hp as [i b Hi _ _|_].
  - apply Forall_insert; [exact HP|]. rewrite <- merged_merge.
    apply Hmerged; [exact Hv|].
    rewrite Forall_forall in HP. apply HP, list_elem_of_lookup. eauto.
  - apply Forall_app. split; [exact HP|].
    constructor; [now apply Hfresh|constructor].
Qed.

(** The means of non-negative durations are not negative, and those of
    positive durations are positive: rounding keeps the sign. *)
Lemma histogram_mean_nonneg (t : Q) (values : list Z) :
  Forall (fun v => 0 <= v) values ->
  Forall (fun b => (0 <= mean b)%Q) (RabbitmqToTriq.create_histogram values t).
Proof.
  intros Hv. rewrite triq_histogram_fold, sort_by_mean_perm.
  eapply Forall_impl;
    [apply (built_Forall (fun b => 0 <= count b /\ (0 <= mean b)%Q) (fun v => 0 <= v)
              t (sorted values) [] _)|].
  - intros v H. unfold fresh, fl. cbn. split; [lia|].
    change 0%Q with (inject_Z 0). now rewrite <- Zle_Qle.
  - intros b v H [Hc Hm]. split; [cbn; lia|now apply merged_mean_sign].
  - apply fold_add_value_built.
  - now rewrite sorted_perm.
  - constructor.
  - cbn. now intros b [_ H].
Qed.

Lemma histogram_mean_positive (t : Q) (values : list Z) :
  Forall (fun v => 0 < v) values ->
  Forall (fun b => (0 < mean b)%Q) (RabbitmqToTriq.create_histogram values t).
Proof.
  intros Hv. rewrite triq_histogram_fold, sort_by_mean_perm.
  eapply Forall_impl;
    [apply (built_Forall (fun b => 0 <= count b /\ (0 < mean b)%Q) (fun v => 0 < v)
              t (sorted values) [] _)|].
  - intros v H. unfold fresh, fl. cbn. split; [lia|].
    change 0%Q with (inject_Z 0). now rewrite <- Zlt_Qlt.
  - intros b v H [Hc Hm]. split; [cbn; lia|].
    apply merged_mean_sign; [exact Hc|now apply Qlt_le_weak|lia|exact H].
  - apply fold_add_value_built.
  - now rewrite sorted_perm.
  - constructor.
  - cbn. now intros b [_ H].
Qed.

Lemma to_us_positive (rate_hz : Z) : 0 < rate_hz -> (0 < 1000000 / fl rate_hz)%Q.
Proof.
  intros H. apply Qlt_shift_div_l.
  - unfold fl. change 0%Q with (inject_Z 0). now rewrite <- Zlt_Qlt.
  - rewrite Qmult_0_l. reflexivity.
Qed.

Lemma int_of_nonneg (x : Q) : (0 <= x)%Q -> 0 <= RabbitmqToTriq.int_of x.
Proof.
  intros H. unfold RabbitmqToTriq.int_of. apply Z.quot_pos; [|lia].
  unfold Qle in H. simpl in H. lia.
Qed.

Lemma timing_us_range (to_us : Q) (b : bin) :
  (0 < to_us)%Q -> (0 <= mean b)%Q -> 0 <= Spec.timing_us to_us b <= 65535.
Proof.
  intros Hu Hm. unfold Spec.timing_us.
  assert (0 <= RabbitmqToTriq.int_of (mean b * to_us)).
  { apply int_of_nonneg, Qmult_le_0_compat; [exact Hm|now apply Qlt_le_weak]. }
  lia.
Qed.

Lemma timing_table_hex (to_us : Q) (timing_bins : list bin) :
  (0 < to_us)%Q -> Forall (fun b => (0 <= mean b)%Q) timing_bins ->
  String.concat "" (RabbitmqToTriq.timing_table to_us timing_bins)
  = Spec.to_hex (flat_map (fun b => Spec.be16 (Spec.timing_us to_us b)) timing_bins).
Proof.
  intros Hu. induction 1 as [|b bins Hb _ IH]; [reflexivity|].
  cbn [RabbitmqToTriq.timing_table map flat_map].
  rewrite join_cons, to_hex_app. fold (RabbitmqToTriq.timing_table to_us bins).
  rewrite IH. f_equal. apply format_X_4_be16. now apply timing_us_range.
Qed.

Lemma bytes_hex (bytes : list Z) :
  Forall Spec.is_byte bytes ->
  String.concat "" (map (RabbitmqToTriq.format_X 2) bytes) = Spec.to_hex bytes.
Proof.
  unfold Spec.to_hex. induction 1 as [|b bytes Hb _ IH]; [reflexivity|].
  cbn [map]. rewrite !join_cons, IH. f_equal. now apply format_X_2_byte.
Qed.

(** The strings joined by the encoder are the hexadecimal rendering of
    the frame. *)
Lemma hex_parts_frame (to_us : Q) (timing_bins : list bin) (data : list Z) :
  (0 < to_us)%Q -> Forall (fun b => (0 <= mean b)%Q) timing_bins ->
  (length timing_bins <= 8)%nat -> Forall Spec.is_byte data ->
  String.concat ""
    (["AA"%string; "B1"%string;
      RabbitmqToTriq.format_X 2 (Z.of_nat (length timing_bins))]
     ++ RabbitmqToTriq.timing_table to_us timing_bins
     ++ map (RabbitmqToTriq.format_X 2) data ++ ["55"%string])
  = Spec.to_hex (Spec.frame to_us timing_bins data).
Proof.
  intros Hu Hm Hlen Hd. unfold Spec.frame.
  rewrite !join_app, !to_hex_app, timing_table_hex, bytes_hex by assumption.
  rewrite format_X_2_byte by lia. reflexivity.
Qed.

Lemma pair_bytes_chunks_length (t : Q) (bins : list bin)
    (prs : list (Z * Z)) (chunks : list (list Z)) :
  Forall2 (Spec.pair_bytes t bins) prs chunks ->
  (length (concat chunks) <= length prs)%nat.
Proof.
  induction 1 as [|pr chunk prs chunks Hc _ IH]; [reflexivity|].
  cbn [concat length]. rewrite length_app. destruct Hc; simpl; lia.
Qed.

Lemma pair_bytes_chunks_range (t : Q) (bins : list bin)
    (prs : list (Z * Z)) (chunks : list (list Z)) :
  (length bins <= 8)%nat ->
  Forall2 (Spec.pair_bytes t bins) prs chunks ->
  Forall (fun b => 128 <= b <= 255) (concat chunks).
Proof.
  intros Hlen. induction 1 as [|pr chunk prs chunks Hc _ IH]; [constructor|].
  cbn [concat]. apply Forall_app. split; [|exact IH].
  now apply (pair_bytes_range t bins pr).
Qed.

(* ------------------------------------------------------------------ *)
(** ** The encoder, end to end *)

(** What [generate_rfraw_from_rabbitmq] returns on a message with at
    least two durations and a sample rate other than zero.  [trailing] is
    what the loop appends for a last pulse that has no gap. *)
Lemma generate_rfraw_parts (json : RabbitmqToTriq.json_data) (pulse_train : list Z) :
  RabbitmqToTriq.pulses json = Some pulse_train ->
  (2 <= length pulse_train)%nat ->
  default 250000 (RabbitmqToTriq.rate_Hz json) <> 0 ->
  let to_us := (1000000 / fl (default 250000%Z (RabbitmqToTriq.rate_Hz json)))%Q in
  let timing_bins :=
    RabbitmqToTriq.create_histogram
      (Spec.pulse_widths pulse_train ++ Spec.gap_widths pulse_train)
      RabbitmqToTriq.default_tolerance in
  ((8 < length timing_bins)%nat ->
   RabbitmqToTriq.generate_rfraw_from_rabbitmq json
   = RabbitmqToTriq.TooManyTimings (length timing_bins)) /\
  ((length timing_bins <= 8)%nat ->
   exists chunks trailing,
     Forall2 (Spec.pair_bytes RabbitmqToTriq.default_tolerance timing_bins)
       (Spec.captured_pairs pulse_train) chunks /\
     (length trailing <= 1)%nat /\
     (length (Spec.gap_widths pulse_train) = length (Spec.pulse_widths pulse_train) ->
      trailing = []) /\
     map (RabbitmqToTriq.format_X 2) trailing
     = flat_map (fun p => RabbitmqToTriq.encode_pair p 0 timing_bins)
         (drop (length (Spec.gap_widths pulse_train)) (Spec.pulse_widths pulse_train)) /\
     Forall (fun b => 128 <= b <= 255) (concat chunks ++ trailing) /\
     RabbitmqToTriq.generate_rfraw_from_rabbitmq json
     = RabbitmqToTriq.RfRaw
         (String.concat ""
            (["AA"%string; "B1"%string;
              RabbitmqToTriq.format_X 2 (Z.of_nat (length timing_bins))]
             ++ RabbitmqToTriq.timing_table to_us timing_bins
             ++ map (RabbitmqToTriq.format_X 2) (concat chunks ++ trailing)
             ++ ["55"%string]))).
Proof.
  intros Hp Hlen Hrate to_us timing_bins.
  unfold RabbitmqToTriq.generate_rfraw_from_rabbitmq.
  rewrite Hp. change (default [] (Some pulse_train)) with pulse_train.
  replace (Z.of_nat (length pulse_train) <? 2) with false by (symmetry; apply Z.ltb_ge; lia).
  apply Z.eqb_neq in Hrate. rewrite Hrate.
  rewrite separate_every_other. fold timing_bins. fold to_us.
  split.
  - intros H8. replace (8 <? Z.of_nat (length timing_bins)) with true
      by (symmetry; apply Z.ltb_lt; lia).
    reflexivity.
  - intros H8. replace (8 <? Z.of_nat (length timing_bins)) with false
      by (symmetry; apply Z.ltb_ge; lia).
    rewrite encode_pulses_pairs, flat_map_app.
    destruct (encode_pairs_spec
                (zip (Spec.pulse_widths pulse_train) (Spec.gap_widths pulse_train))
                timing_bins) as (chunks & HF & ->).
    destruct (encode_pairs_spec
                (map (fun p => (p, 0))
                   (drop (length (Spec.gap_widths pulse_train))
                      (Spec.pulse_widths pulse_train)))
                timing_bins) as (chunks' & HF' & E').
    rewrite E'.
    exists chunks, (concat chunks'). rewrite <- map_app.
    pose proof (pair_bytes_chunks_length _ _ _ _ HF') as Hl.
    rewrite length_map, length_drop in Hl.
    pose proof (every_other_lengths pulse_train) as [_ Hpg].
    fold (Spec.pulse_widths pulse_train) (Spec.gap_widths pulse_train) in Hpg.
    split; [exact HF|]. split; [lia|]. split; [|split; [|split; [|reflexivity]]].
    + intros E. rewrite E, Nat.sub_diag in Hl. destruct (concat chunks'); [reflexivity|].
      simpl in Hl. lia.
    + rewrite <- E', flat_map_concat_map, map_map, <- flat_map_concat_map. reflexivity.
    + apply Forall_app. split;
        [exact (pair_bytes_chunks_range _ _ _ _ H8 HF)
        |exact (pair_bytes_chunks_range _ _ _ _ H8 HF')].
Qed.

Lemma every_other_Forall {A : Type} (P : A -> Prop) (l : list A) :
  Forall P l -> Forall P (PulseDataAnalyzer.every_other l).
Proof.
  induction l as [|x|x y l IH] using pair_induction; intros H.
  - constructor.
  - exact H.
  - cbn [PulseDataAnalyzer.every_other]. inversion H as [|? ? Hx H']; subst.
    inversion H' as [|? ? Hy H'']; subst. constructor; [exact Hx|].
    fold (PulseDataAnalyzer.every_other (A:=A)). destruct l; [constructor|now apply IH].
Qed.

Lemma all_timings_Forall (P : Z -> Prop) (pulse_train : list Z) :
  Forall P pulse_train ->
  Forall P (Spec.pulse_widths pulse_train ++ Spec.gap_widths pulse_train).
Proof.
  intros H. apply Forall_app. split; apply every_other_Forall; [exact H|].
  destruct pulse_train; [constructor|]. now inversion H.
Qed.




(** With positive means, the gap 0 that stands in for a missing gap has
    no index in the timing table. *)
Lemma zero_gap_unmatched (timing_bins : list bin) :
  Forall (fun b => (0 < mean b)%Q) timing_bins ->
  RabbitmqToTriq.find_timing_bin_index 0 timing_bins RabbitmqToTriq.default_tolerance = -1.
Proof.
  intros Hpos.
  destruct (find_timing_bin_index_spec 0 timing_bins RabbitmqToTriq.default_tolerance)
    as [[H _]|(k & _ & (b & Hb & Hj) & _)]; [exact H|exfalso].
  rewrite Forall_forall in Hpos.
  assert (0 < mean b)%Q as Hm by (apply Hpos, list_elem_of_lookup; eauto).
  unfold Spec.joins, RabbitmqToTriq.default_tolerance, fsub, fmul in Hj.
  pose proof (rnd_pos _ Hm) as Hy.
  assert (rnd (rnd (mean b) * rnd (2 # 10)) < rnd (rnd (mean b)))%Q as Hlt
    by (apply rnd_scale_lt; [exact Hy|vm_compute; discriminate|vm_compute; discriminate]).
  assert (rnd (inject_Z 0) - rnd (mean b) == - rnd (mean b))%Q as E
    by (change (rnd (inject_Z 0)) with 0%Q; ring).
  rewrite (rnd_comp _ _ E), rnd_opp, Qabs_opp, Qabs_pos in Hj
    by (apply Qlt_le_weak; now apply rnd_pos).
  lra.
Qed.

Lemma encode_pair_zero_gap (p : Z) (timing_bins : list bin) :
  Forall (fun b => (0 < mean b)%Q) timing_bins ->
  RabbitmqToTriq.encode_pair p 0 timing_bins = [].
Proof.
  intros H. unfold RabbitmqToTriq.encode_pair. rewrite (zero_gap_unmatched _ H).
  now rewrite andb_false_r.
Qed.

(** The last pulse of an odd-length train of positive durations gets no
    data byte: the frame carries the bytes of the captured pairs only. *)
Lemma trailing_pulse_dropped (json : RabbitmqToTriq.json_data) (pulse_train : list Z) :
  RabbitmqToTriq.pulses json = Some pulse_train ->
  (2 <= length pulse_train)%nat ->
  0 < default 250000 (RabbitmqToTriq.rate_Hz json) ->
  Forall (fun d => 0 < d) pulse_train ->
  let to_us := (1000000 / fl (default 250000%Z (RabbitmqToTriq.rate_Hz json)))%Q in
  let timing_bins :=
    RabbitmqToTriq.create_histogram
      (Spec.pulse_widths pulse_train ++ Spec.gap_widths pulse_train)
      RabbitmqToTriq.default_tolerance in
  (length timing_bins <= 8)%nat ->
  exists chunks,
    Forall2 (Spec.pair_bytes RabbitmqToTriq.default_tolerance timing_bins)
      (Spec.captured_pairs pulse_train) chunks /\
    (length (concat chunks) <= length (Spec.gap_widths pulse_train))%nat /\
    RabbitmqToTriq.generate_rfraw_from_rabbitmq json
    = RabbitmqToTriq.RfRaw (Spec.to_hex (Spec.frame to_us timing_bins (concat chunks))).
Proof.
  intros Hp Hlen Hrate Hpos to_us timing_bins H8.
  assert (default 250000 (RabbitmqToTriq.rate_Hz json) <> 0) as Hrate' by lia.
  destruct (generate_rfraw_parts json pulse_train Hp Hlen Hrate') as [_ H].
  destruct (H H8) as (chunks & trailing & HF & _ & _ & Htr & Hrange & ->).
  assert (Forall (fun b => (0 < mean b)%Q) timing_bins) as Hmean.
  { apply histogram_mean_positive, all_timings_Forall, Hpos. }
  assert (trailing = []) as ->.
  { apply (map_eq_nil (RabbitmqToTriq.format_X 2)). rewrite Htr.
    generalize (drop (length (Spec.gap_widths pulse_train)) (Spec.pulse_widths pulse_train)).
    intros l. induction l as [|p l IH]; [reflexivity|]. cbn [flat_map].
    now rewrite IH, (encode_pair_zero_gap _ _ Hmean). }
  rewrite app_nil_r in *. exists chunks. split; [exact HF|]. split.
  - etransitivity; [apply (pair_bytes_chunks_length _ _ _ _ HF)|].
    unfold Spec.captured_pairs. rewrite length_zip_with. lia.
  - f_equal. apply hex_parts_frame; [now apply to_us_positive| |exact H8|].
    + eapply Forall_impl; [exact Hmean|]. cbn. intros b. apply Qlt_le_weak.
    + eapply Forall_impl; [exact Hrange|]. unfold Spec.is_byte. cbn. intros; lia.
Qed.








(** C8.  On the capture [100,200,100] (two pulses, one gap) the second
    pulse is looked up together with the gap 0; 0 has no index in the
    timing table, so nothing is appended for it: the frame has the one
    data byte 0x81 of the first pulse and its gap. *)
Theorem C8_trailing_pulse_gets_no_byte :
  let pulse_train := [100; 200; 100] in
  let json := RabbitmqToTriq.Json (Some pulse_train) None in
  let to_us := (1000000 / fl 250000)%Q in
  let timing_bins :=
    RabbitmqToTriq.create_histogram
      (Spec.pulse_widths pulse_train ++ Spec.gap_widths pulse_train)
      RabbitmqToTriq.default_tolerance in
  Spec.pulse_widths pulse_train = [100; 100] /\
  Spec.gap_widths pulse_train = [200] /\
  length timing_bins = 2%nat /\
  RabbitmqToTriq.find_timing_bin_index 100 timing_bins RabbitmqToTriq.default_tolerance
  = 0 /\
  RabbitmqToTriq.find_timing_bin_index 0 timing_bins RabbitmqToTriq.default_tolerance
  = -1 /\
  RabbitmqToTriq.encode_pulses [100; 100] [200] timing_bins = ["81"%string] /\
  RabbitmqToTriq.generate_rfraw_from_rabbitmq json
  = RabbitmqToTriq.RfRaw (Spec.to_hex (Spec.frame to_us timing_bins [129])) /\
  RabbitmqToTriq.generate_rfraw_from_rabbitmq json
  = RabbitmqToTriq.RfRaw "AAB102019003208155".
Proof. vm_compute. repeat split; reflexivity. Qed.

(* ------------------------------------------------------------------ *)
(** ** The loop, one bin at a time *)

Lemma find_bin_shift (t : Q) (v : Z) (pre bins rest : list bin) (i : nat) :
  RabbitmqToTriq.find_bin t v (pre ++ bins) (length pre + i) rest
  = option_map (app pre) (RabbitmqToTriq.find_bin t v bins i rest).
Proof.
  revert i. induction rest as [|b rest IH]; intros i; simpl; [reflexivity|].
  destruct (within t v (mean b)).
  - simpl. f_equal. now rewrite insert_app_r.
  - rewrite <- IH. f_equal. lia.
Qed.

(** [add_value] walks down the list: it merges into the head when the
    value joins it, and otherwise leaves the head and goes on. *)
Lemma add_value_nil (t : Q) (v : Z) : RabbitmqToTriq.add_value t [] v = [fresh v].
Proof. reflexivity. Qed.

Lemma add_value_cons (t : Q) (b : bin) (bins : list bin) (v : Z) :
  RabbitmqToTriq.add_value t (b :: bins) v
  = if within t v (mean b) then merged b v :: bins
    else b :: RabbitmqToTriq.add_value t bins v.
Proof.
  unfold RabbitmqToTriq.add_value. cbn [RabbitmqToTriq.find_bin].
  destruct (within t v (mean b)); [reflexivity|].
  change (b :: bins) with ([b] ++ bins) at 1.
  change 1%nat with (length [b] + 0)%nat.
  rewrite find_bin_shift.
  destruct (RabbitmqToTriq.find_bin t v bins 0 bins); reflexivity.
Qed.

Lemma add_value_length (t : Q) (bins : list bin) (v : Z) :
  (length bins <= length (RabbitmqToTriq.add_value t bins v) <= S (length bins))%nat.
Proof.
  induction bins as [|b bins IH]; [simpl; lia|].
  rewrite add_value_cons. destruct (within t v (mean b)); simpl; lia.
Qed.

Lemma add_value_not_nil (t : Q) (bins : list bin) (v : Z) :
  RabbitmqToTriq.add_value t bins v <> [].
Proof.
  destruct bins as [|b bins]; [discriminate|].
  rewrite add_value_cons. destruct (within t v (mean b)); discriminate.
Qed.

(* ------------------------------------------------------------------ *)
(** ** Input in range: the bins follow one another *)

(** A value the test turns down, at or above the mean: every greater
    value is turned down as well.  Rounding is monotone. *)
Lemma within_above (t : Q) (v0 v : Z) (m : Q) :
  (m <= inject_Z v0)%Q -> v0 <= v -> within t v0 m = false -> within t v m = false.
Proof.
  unfold within, fsub, fl. intros Hm Hv H.
  assert (inject_Z v0 <= inject_Z v)%Q as HvQ by now rewrite <- Zle_Qle.
  pose proof (rnd_mono _ _ Hm) as H1. pose proof (rnd_mono _ _ HvQ) as H2.
  assert (0 <= rnd (rnd (inject_Z v0) - rnd m))%Q as H3 by (apply rnd_nonneg; lra).
  assert (rnd (rnd (inject_Z v0) - rnd m) <= rnd (rnd (inject_Z v) - rnd m))%Q as H4
    by (apply rnd_mono; lra).
  destruct (Qle_bool (Qabs (rnd (rnd (inject_Z v) - rnd m))) (fmul m t)) eqn:E;
    [|reflexivity].
  apply Qle_bool_iff in E. rewrite Qabs_pos in E by lra.
  assert (Qle_bool (Qabs (rnd (rnd (inject_Z v0) - rnd m))) (fmul m t) = true) as E'
    by (apply Qle_bool_iff; rewrite Qabs_pos by exact H3; lra).
  congruence.
Qed.

(** One value more, not below any value seen so far: it joins the last
    bin or opens a new one. *)
Lemma add_value_closed (t : Q) (v : Z) (bins : list bin) :
  Sorted (Cluster.closed t) bins ->
  Forall (fun b => (inject_Z (bmin b) <= mean b <= inject_Z (bmax b))%Q) bins ->
  Forall (fun b => bmax b <= v) bins ->
  let bins' := RabbitmqToTriq.add_value t bins v in
  Sorted (Cluster.closed t) bins' /\
  Forall (fun b => bmax b <= v) bins' /\
  (forall b0, HdRel (Cluster.closed t) b0 bins -> bins <> [] ->
              HdRel (Cluster.closed t) b0 bins').
Proof.
  intros Hs. induction Hs as [|b bins Hs IH Hhd]; intros Hbetween Hmax.
  - cbv zeta. rewrite add_value_nil.
    split; [repeat constructor|]. split; [|congruence].
    constructor; [simpl; lia|constructor].
  - inversion Hbetween as [|? ? [Hlo Hhi] Hbetween']; subst.
    inversion Hmax as [|? ? Hbv Hmax']; subst.
    intros bins'. subst bins'. rewrite add_value_cons.
    assert (bmin b <= bmax b) as Hmm by (rewrite Zle_Qle; lra).
    destruct (within t v (mean b)) eqn:E.
    + destruct bins as [|b' bins].
      * repeat split.
        -- repeat constructor.
        -- constructor; [cbn; lia|constructor].
        -- intros b0 H0 _. inversion H0 as [|? ? [H1 H2]]; subst. constructor.
           unfold Cluster.closed. cbn [merged bmin].
           rewrite Z.min_l by lia. now split.
      * exfalso. inversion Hhd as [|? ? [H1 H2]]; subst.
        inversion Hbetween' as [|? ? [Hlo' Hhi'] _]; subst.
        inversion Hmax' as [|? ? Hb'v _]; subst.
        assert (bmin b' <= bmax b') by (rewrite Zle_Qle; lra).
        assert (within t v (mean b) = false) as E'.
        { apply (within_above t (bmin b') v); [|lia|exact H2].
          eapply Qle_trans; [exact Hhi|]. now rewrite <- Zle_Qle. }
        congruence.
    + destruct (IH Hbetween' Hmax') as (Hs' & Hm' & Hhd').
      repeat split.
      * constructor; [exact Hs'|].
        destruct bins as [|b' bins].
        -- cbn. constructor. split; [exact Hbv|exact E].
        -- apply Hhd'; [exact Hhd|discriminate].
      * constructor; assumption.
      * intros b0 H0 _. inversion H0; subst. now constructor.
Qed.

Lemma fold_add_value_closed (hi k : Z) (t : Q) (vs : list Z) (bins : list bin) :
  StronglySorted Z.le vs -> Forall (fun v => 0 <= v <= hi) vs -> 0 <= k ->
  (hi + 1) * (k + Z.of_nat (length vs)) < 2 ^ 53 ->
  Sorted (Cluster.closed t) bins -> Forall (Cluster.bounded hi k) bins ->
  Forall (fun b => Forall (fun v => bmax b <= v) vs) bins ->
  Sorted (Cluster.closed t) (fold_left (RabbitmqToTriq.add_value t) vs bins) /\
  Forall (Cluster.bounded hi (k + Z.of_nat (length vs)))
    (fold_left (RabbitmqToTriq.add_value t) vs bins).
Proof.
  intros Hs. revert k bins.
  induction Hs as [|v vs Hs IH Hv]; intros k bins Hr Hk H53 Hc Hb Hmax.
  - cbn. rewrite Z.add_0_r. now split.
  - inversion Hr as [|? ? Hv0 Hr']; subst. cbn [fold_left length] in *.
    rewrite Nat2Z.inj_succ in *.
    replace (k + Z.succ (Z.of_nat (length vs))) with ((k + 1) + Z.of_nat (length vs))
      in * by lia.
    destruct (add_value_closed t v bins Hc) as (Hc' & Hmax' & _).
    { eapply Forall_impl; [exact Hb|]. intros b Hb'. apply Hb'. }
    { eapply Forall_impl; [exact Hmax|]. cbn. intros b Hb'. now inversion Hb'. }
    apply IH; [exact Hr'|lia|exact H53|exact Hc'| |].
    + apply (place_bounded hi k t v bins _ (add_value_place t bins v) Hv0 Hk);
        [nia|exact Hb].
    + eapply Forall_impl; [exact Hmax'|]. cbn. intros b Hb'.
      eapply Forall_impl; [exact Hv|]. cbn. intros; lia.
Qed.

(** On an input in range, each bin the loop leaves is closed by the bin
    after it. *)
Lemma histogram_closed (hi : Z) (t : Q) (values : list Z) :
  Cluster.in_range hi values ->
  Sorted (Cluster.closed t) (fold_left (RabbitmqToTriq.add_value t) (sorted values) []) /\
  Forall (Cluster.bounded hi (Z.of_nat (length values)))
    (fold_left (RabbitmqToTriq.add_value t) (sorted values) []).
Proof.
  intros [Hv Hr].
  rewrite <- (Permutation_length (sorted_perm values)) in *.
  apply (fold_add_value_closed hi 0 t (sorted values) []);
    try constructor; try assumption; try lia.
  - apply Sorted_StronglySorted; [intros x y z; apply Z.le_trans|apply sorted_Sorted].
  - now rewrite sorted_perm.
Qed.

Lemma closed_by_mean (hi k : Z) (t : Q) (b b' : bin) :
  Cluster.bounded hi k b -> Cluster.bounded hi k b' -> Cluster.closed t b b' ->
  (mean b <= mean b')%Q.
Proof.
  intros (_ & _ & _ & _ & H1) (_ & _ & _ & H2 & _) [H3 _].
  rewrite Zle_Qle in H3. lra.
Qed.

Lemma Sorted_Forall_impl {A : Type} (P : A -> Prop) (R R' : A -> A -> Prop) (l : list A) :
  (forall x y, P x -> P y -> R x y -> R' x y) ->
  Forall P l -> Sorted R l -> Sorted R' l.
Proof.
  intros H HP Hs. induction Hs as [|x l Hs IH Hhd]; [constructor|].
  inversion HP as [|? ? Hx HP']; subst. constructor; [now apply IH|].
  destruct Hhd as [|y l Hxy]; constructor.
  inversion HP'; subst. now apply H.
Qed.

(** X1.  On durations in range (between 0 and [hi], with (hi + 1) times
    their number below 2^53) [_create_histogram] returns its clusters in
    ascending order, one after the other: each bin ends where the next
    one begins or before, the least value of the next bin fails the
    tolerance test of the bin, and the means ascend. *)
Theorem X1_bins_follow_one_another
    (self : PulseDataAnalyzer.t) (hi : Z) (values : list Z) :
  Cluster.in_range hi values ->
  Sorted (fun b b' =>
            bmax b <= bmin b' /\
            within (PulseDataAnalyzer.TOLERANCE self) (bmin b') (mean b) = false /\
            (mean b <= mean b')%Q)
    (PulseDataAnalyzer._create_histogram self values).
Proof.
  intros Hr. rewrite analyzer_histogram_fold.
  destruct (histogram_closed hi (PulseDataAnalyzer.TOLERANCE self) values Hr) as [Hs Hb].
  eapply Sorted_Forall_impl; [|exact Hb|exact Hs].
  intros b b' H H' Hbb'. pose proof (closed_by_mean _ _ _ b b' H H' Hbb') as Hm.
  destruct Hbb' as [H1 H2]. repeat split; assumption.
Qed.

Lemma X1_bins_follow_one_another_witness :
  exists self,
    PulseDataAnalyzer.init None = Some self /\
    Cluster.in_range 440 [400; 100; 118; 440] /\
    length (PulseDataAnalyzer._create_histogram self [400; 100; 118; 440]) = 2%nat /\
    Sorted (fun b b' =>
              bmax b <= bmin b' /\
              within (PulseDataAnalyzer.TOLERANCE self) (bmin b') (mean b) = false /\
              (mean b <= mean b')%Q)
      (PulseDataAnalyzer._create_histogram self [400; 100; 118; 440]).
Proof.
  eexists. split; [reflexivity|].
  assert (Cluster.in_range 440 [400; 100; 118; 440]) as H
    by (split; [repeat constructor; lia|reflexivity]).
  split; [exact H|]. split; [vm_compute; reflexivity|].
  exact (X1_bins_follow_one_another _ 440 [400; 100; 118; 440] H).
Defined.

(** On an input in range [create_histogram] returns its list of bins in
    the order in which they were created. *)
Lemma triq_histogram_unsorted (hi : Z) (t : Q) (values : list Z) :
  Cluster.in_range hi values ->
  RabbitmqToTriq.create_histogram values t
  = fold_left (RabbitmqToTriq.add_value t) (sorted values) [].
Proof.
  intros Hr. rewrite triq_histogram_fold.
  destruct (histogram_closed hi t values Hr) as [Hs Hb].
  apply stable_sort_of_Sorted.
  eapply Sorted_Forall_impl; [|exact Hb|exact Hs].
  intros b b' H H' Hbb'. cbv beta. apply Qle_bool_iff.
  now apply (closed_by_mean _ _ _ b b' H H' Hbb').
Qed.

(** X2.  On durations in range the final sort of [create_histogram]
    changes nothing: run with the tolerance of the analyzer, it returns
    the very list [_create_histogram] returns. *)
Theorem X2_sort_by_mean_is_identity_on_histogram
    (self : PulseDataAnalyzer.t) (hi : Z) (values : list Z) :
  Cluster.in_range hi values ->
  RabbitmqToTriq.create_histogram values (PulseDataAnalyzer.TOLERANCE self)
  = PulseDataAnalyzer._create_histogram self values.
Proof.
  intros Hr. rewrite (triq_histogram_unsorted hi _ values Hr), analyzer_histogram_fold.
  reflexivity.
Qed.

Lemma X2_sort_by_mean_is_identity_witness :
  exists self,
    PulseDataAnalyzer.init None = Some self /\
    Cluster.in_range 440 [400; 100; 118; 440] /\
    RabbitmqToTriq.create_histogram [400; 100; 118; 440] (PulseDataAnalyzer.TOLERANCE self)
    = PulseDataAnalyzer._create_histogram self [400; 100; 118; 440].
Proof.
  eexists. split; [reflexivity|].
  assert (Cluster.in_range 440 [400; 100; 118; 440]) as H
    by (split; [repeat constructor; lia|reflexivity]).
  split; [exact H|].
  exact (X2_sort_by_mean_is_identity_on_histogram _ 440 [400; 100; 118; 440] H).
Defined.

(* ------------------------------------------------------------------ *)
(** ** Size of the histogram *)
(* ------------------------------------------------------------------ *)
(** ** Size of the histogram *)

Lemma groups_length (groups : list (list Z)) (bins : list bin) :
  Forall2 Spec.stands_for groups bins ->
  (length bins <= length (concat groups))%nat /\
  Forall (fun b => 1 <= count b <= Z.of_nat (length (concat groups))) bins.
Proof.
  induction 1 as [|g b groups bins Hgb _ [IH1 IH2]]; [split; [reflexivity|constructor]|].
  cbn [concat length]. rewrite length_app.
  destruct Hgb as [Hne Hc _ _].
  assert (1 <= length g)%nat by (destruct g; [congruence|simpl; lia]).
  split; [lia|]. constructor; [lia|].
  eapply Forall_impl; [exact IH2|]. cbn. intros; lia.
Qed.

Lemma fold_add_value_not_nil (t : Q) (vs : list Z) (bins : list bin) :
  bins <> [] -> fold_left (RabbitmqToTriq.add_value t) vs bins <> [].
Proof.
  revert bins. induction vs as [|x vs IH]; intros bins Hb; [exact Hb|].
  cbn [fold_left]. apply IH, add_value_not_nil.
Qed.

Lemma analyzer_histogram_nil_iff (self : PulseDataAnalyzer.t) (values : list Z) :
  PulseDataAnalyzer._create_histogram self values = [] <-> values = [].
Proof.
  split; [|now intros ->]. rewrite analyzer_histogram_fold. intros E.
  destruct values as [|v values]; [reflexivity|exfalso].
  destruct (sorted (v :: values)) as [|w ws] eqn:Es.
  - apply sorted_nil_inv in Es. discriminate.
  - cbn [fold_left] in E.
    apply (fold_add_value_not_nil _ ws _ (add_value_not_nil _ _ _) E).
Qed.

(** X3.  [_create_histogram] returns at most as many bins as it is given
    values, no bin at all only on an empty input, and every bin counts at
    least one value and at most all of them. *)
Theorem X3_histogram_size (self : PulseDataAnalyzer.t) (values : list Z) :
  let bins := PulseDataAnalyzer._create_histogram self values in
  (length bins <= length values)%nat /\
  (bins = [] <-> values = []) /\
  Forall (fun b => 1 <= count b <= Z.of_nat (length values)) bins.
Proof.
  intros bins. subst bins.
  split; [|split; [apply analyzer_histogram_nil_iff|]];
    rewrite analyzer_histogram_fold;
    destruct (histogram_groups (PulseDataAnalyzer.TOLERANCE self) values)
      as (groups & HP & HF);
    destruct (groups_length _ _ HF) as [H1 H2];
    rewrite (Permutation_length HP) in H1, H2; assumption.
Qed.

(* ------------------------------------------------------------------ *)
(** ** The order of the input does not matter *)

Lemma Sorted_le_unique (l l' : list Z) :
  Sorted Z.le l -> Sorted Z.le l' -> Permutation l l' -> l = l'.
Proof.
  intros Hs Hs'.
  apply Sorted_StronglySorted in Hs; [|intros x y z; apply Z.le_trans].
  apply Sorted_StronglySorted in Hs'; [|intros x y z; apply Z.le_trans].
  revert l' Hs'. induction Hs as [|x l Hs IH Hx]; intros l' Hs' HP.
  - apply Permutation_nil in HP. now subst.
  - destruct Hs' as [|y l' Hs' Hy]; [apply Permutation_sym, Permutation_nil in HP; discriminate|].
    assert (x = y) as <-.
    { assert (In x (y :: l')) as Hin by (eapply Permutation_in; [exact HP|now left]).
      assert (In y (x :: l)) as Hin'
        by (eapply Permutation_in; [symmetry; exact HP|now left]).
      rewrite Forall_forall in Hx, Hy.
      destruct Hin as [->|Hin]; [reflexivity|].
      destruct Hin' as [->|Hin']; [reflexivity|].
      apply list_elem_of_In in Hin, Hin'.
      specialize (Hx _ Hin'). specialize (Hy _ Hin). lia. }
    f_equal. apply IH; [exact Hs'|]. now apply Permutation_cons_inv in HP.
Qed.

Lemma sorted_permutation (values values' : list Z) :
  Permutation values values' -> sorted values = sorted values'.
Proof.
  intros HP. apply Sorted_le_unique; try apply sorted_Sorted.
  now rewrite !sorted_perm.
Qed.

(** X4.  Both histograms depend on the values only, not on their order:
    rearranging the input changes nothing in the result. *)
Theorem X4_histogram_ignores_input_order
    (self : PulseDataAnalyzer.t) (t : Q) (values values' : list Z) :
  Permutation values values' ->
  PulseDataAnalyzer._create_histogram self values
  = PulseDataAnalyzer._create_histogram self values' /\
  RabbitmqToTriq.create_histogram values t = RabbitmqToTriq.create_histogram values' t.
Proof.
  intros HP. rewrite !analyzer_histogram_fold, !triq_histogram_fold.
  now rewrite (sorted_permutation _ _ HP).
Qed.

Lemma X4_histogram_ignores_input_order_witness :
  exists self,
  PulseDataAnalyzer.init None = Some self /\
  Permutation [100; 400; 118] [400; 118; 100] /\
  PulseDataAnalyzer._create_histogram self [100; 400; 118]
  = PulseDataAnalyzer._create_histogram self [400; 118; 100] /\
  RabbitmqToTriq.create_histogram [100; 400; 118] (2 # 10)
  = RabbitmqToTriq.create_histogram [400; 118; 100] (2 # 10).
Proof.
  eexists. split; [reflexivity|].
  assert (Permutation [100; 400; 118] [400; 118; 100]) as H.
  { apply perm_trans with [400; 100; 118]; [apply perm_swap|].
    apply perm_skip, perm_swap. }
  split; [exact H|].
  exact (X4_histogram_ignores_input_order _ (2 # 10)
           [100; 400; 118] [400; 118; 100] H).
Defined.

(* ------------------------------------------------------------------ *)
(** ** Tolerance zero *)

(** At tolerance 0 the test holds of the value of a single-valued bin
    only, as long as the values are binary64 numbers. *)
Lemma within_zero (hi k : Z) (v : Z) (b : bin) :
  hi < 2 ^ 53 -> 0 <= v <= hi ->
  Cluster.bounded hi k b -> bmin b = bmax b ->
  within 0 v (mean b) = true <-> v = bmin b.
Proof.
  intros H53 Hv (_ & Hmin & Hmax & Hlo & Hhi) Hmm.
  assert (mean b == inject_Z (bmin b))%Q as Hm
    by (apply Qle_antisym; [rewrite Hmm; exact Hhi|exact Hlo]).
  unfold within, fsub, fmul, fl.
  assert (rnd (rnd (mean b) * rnd 0) == 0)%Q as ->.
  { change (rnd 0) with 0%Q. rewrite (rnd_zero (rnd (mean b) * 0)%Q) by ring. reflexivity. }
  assert (rnd (inject_Z v) - rnd (mean b) == inject_Z (v - bmin b))%Q as E.
  { rewrite (rnd_comp _ _ Hm), !rnd_Z by lia.
    unfold Z.sub. rewrite inject_Z_plus, inject_Z_opp. reflexivity. }
  rewrite Qle_bool_iff. split.
  - intros H. apply Qabs_Qle_condition in H as [H1 H2].
    assert (rnd (rnd (inject_Z v) - rnd (mean b)) == 0)%Q as H0 by lra.
    apply rnd_eq_zero in H0.
    assert (inject_Z (v - bmin b) == inject_Z 0)%Q as H3 by (rewrite <- E; exact H0).
    apply (proj1 (inject_Z_injective _ _)) in H3. lia.
  - intros ->. rewrite (rnd_zero _) by (rewrite E, Z.sub_diag; reflexivity).
    apply Qle_refl.
Qed.

(** A single-valued bin in range stays one when its value is merged. *)
Lemma merged_single (hi k : Z) (b : bin) :
  (hi + 1) * (k + 1) < 2 ^ 53 ->
  Cluster.bounded hi k b -> bmin b = bmax b ->
  Cluster.bounded hi (k + 1) (merged b (bmin b)) /\
  bmin (merged b (bmin b)) = bmax (merged b (bmin b)).
Proof.
  intros H53 Hb Hmm. split.
  - apply merged_bounded; [|exact H53|exact Hb].
    destruct Hb as (_ & Hmin & Hmax & _). lia.
  - cbn [merged bmin bmax]. lia.
Qed.

(** At tolerance 0 a value is merged into the bin of its own value, if
    there is one, and opens a bin otherwise. *)
Lemma add_value_zero_old (hi k : Z) (bins : list bin) (v : Z) :
  hi < 2 ^ 53 -> 0 <= v <= hi ->
  Forall (fun b => Cluster.bounded hi k b /\ bmin b = bmax b) bins ->
  NoDup (map bmin bins) ->
  In v (map bmin bins) ->
  RabbitmqToTriq.add_value 0 bins v
  = map (fun b => if Z.eq_dec (bmin b) v then merged b v else b) bins.
Proof.
  intros H53 Hv.
  induction bins as [|b bins IH]; intros Hs Hnd Hin; [destruct Hin|].
  inversion Hs as [|? ? [Hb Hbs] Hs']; subst. cbn [map] in Hnd.
  inversion Hnd as [|? ? Hnotin Hnd']; subst.
  rewrite add_value_cons. cbn [map].
  destruct (within 0 v (mean b)) eqn:E.
  - apply (within_zero hi k v b H53 Hv Hb Hbs) in E. subst v.
    destruct (Z.eq_dec (bmin b) (bmin b)) as [_|Hne]; [|congruence]. f_equal.
    clear IH Hs' Hnd' Hin Hs Hnd. induction bins as [|b' bins IH]; [reflexivity|].
    cbn [map] in *. destruct (Z.eq_dec (bmin b') (bmin b)) as [Heq|_].
    + exfalso. apply Hnotin. rewrite Heq. apply list_elem_of_here.
    + f_equal. apply IH. intros H. apply Hnotin. now apply list_elem_of_further.
  - destruct (Z.eq_dec (bmin b) v) as [Heq|Hne].
    + symmetry in Heq. apply (within_zero hi k v b H53 Hv Hb Hbs) in Heq. congruence.
    + f_equal. apply IH; try assumption. destruct Hin as [Hin|Hin]; [congruence|exact Hin].
Qed.

Lemma add_value_zero_new (hi k : Z) (bins : list bin) (v : Z) :
  hi < 2 ^ 53 -> 0 <= v <= hi ->
  Forall (fun b => Cluster.bounded hi k b /\ bmin b = bmax b) bins ->
  ~ In v (map bmin bins) ->
  RabbitmqToTriq.add_value 0 bins v = bins ++ [fresh v].
Proof.
  intros H53 Hv.
  induction bins as [|b bins IH]; intros Hs Hnotin; [reflexivity|].
  inversion Hs as [|? ? [Hb Hbs] Hs']; subst. rewrite add_value_cons.
  destruct (within 0 v (mean b)) eqn:E.
  - apply (within_zero hi k v b H53 Hv Hb Hbs) in E. subst v.
    exfalso. apply Hnotin. now left.
  - cbn [app]. f_equal. apply IH; [exact Hs'|]. intros H. apply Hnotin. now right.
Qed.

(** The state of the loop at tolerance 0 after the values [done]. *)
Lemma add_value_zero_inv (hi k : Z) (bins : list bin) (done : list Z) (v : Z) :
  0 <= v <= hi -> 0 <= k -> (hi + 1) * (k + 1) < 2 ^ 53 ->
  Forall (fun b => Cluster.bounded hi k b /\ bmin b = bmax b) bins ->
  NoDup (map bmin bins) ->
  (forall x, In x done <-> In x (map bmin bins)) ->
  Forall (fun b => count b = Z.of_nat (count_occ Z.eq_dec done (bmin b))) bins ->
  let bins' := RabbitmqToTriq.add_value 0 bins v in
  Forall (fun b => Cluster.bounded hi (k + 1) b /\ bmin b = bmax b) bins' /\
  NoDup (map bmin bins') /\
  (forall x, In x (v :: done) <-> In x (map bmin bins')) /\
  Forall (fun b => count b = Z.of_nat (count_occ Z.eq_dec (v :: done) (bmin b))) bins'.
Proof.
  intros Hv Hk Hr Hs Hnd Hcov Hc bins'. subst bins'.
  assert (hi < 2 ^ 53) as H53 by nia.
  assert (Forall (fun b => Cluster.bounded hi (k + 1) b /\ bmin b = bmax b) bins) as Hs1.
  { eapply Forall_impl; [exact Hs|]. cbn. intros b [Hb Hbs].
    split; [|exact Hbs]. eapply bounded_weaken; [|exact Hb]. lia. }
  destruct (in_dec Z.eq_dec v (map bmin bins)) as [Hin|Hnotin].
  - rewrite (add_value_zero_old hi k bins v H53 Hv Hs Hnd Hin).
    assert (map bmin (map (fun b => if Z.eq_dec (bmin b) v then merged b v else b) bins)
            = map bmin bins) as Emap.
    { rewrite map_map. apply map_ext_in. intros b Hb.
      destruct (Z.eq_dec (bmin b) v) as [<-|_]; [|reflexivity].
      cbn. apply Z.min_id. }
    rewrite Emap. split; [|split; [exact Hnd|split]].
    + rewrite Forall_forall in Hs, Hs1. apply Forall_forall. intros b' Hb'.
      apply list_elem_of_In, in_map_iff in Hb' as (b & <- & Hb).
      apply list_elem_of_In in Hb.
      destruct (Z.eq_dec (bmin b) v) as [<-|_]; [|now apply Hs1].
      destruct (Hs b Hb) as [Hb1 Hb2]. now apply merged_single.
    + intros x. rewrite <- Hcov. split; [|now right].
      intros [<-|Hx]; [now apply Hcov|exact Hx].
    + rewrite Forall_forall in Hc. apply Forall_forall. intros b' Hb'.
      apply list_elem_of_In, in_map_iff in Hb' as (b & <- & Hb).
      apply list_elem_of_In in Hb. specialize (Hc b Hb).
      destruct (Z.eq_dec (bmin b) v) as [<-|Hne].
      * cbn [merged count bmin]. rewrite Z.min_id, count_occ_cons_eq by reflexivity. lia.
      * rewrite count_occ_cons_neq by congruence. exact Hc.
  - rewrite (add_value_zero_new hi k bins v H53 Hv Hs Hnotin).
    rewrite map_app. cbn [map fresh bmin].
    split; [|split; [|split]].
    + apply Forall_app. split; [exact Hs1|]. constructor; [|constructor].
      split; [apply fresh_bounded; [exact Hv|lia]|reflexivity].
    + apply NoDup_app. split; [exact Hnd|]. split.
      * intros x Hx Hx'. apply list_elem_of_In in Hx.
        apply list_elem_of_In in Hx'. destruct Hx' as [<-|[]]. contradiction.
      * apply NoDup_singleton.
    + intros x. rewrite in_app_iff, <- Hcov. cbn. intuition.
    + apply Forall_app. split.
      * rewrite Forall_forall in Hc. apply Forall_forall. intros b Hb.
        rewrite count_occ_cons_neq; [now apply Hc|].
        intros ->. apply Hnotin, in_map, list_elem_of_In, Hb.
      * constructor; [|constructor]. cbn [count bmin fresh].
        rewrite count_occ_cons_eq by reflexivity.
        assert (count_occ Z.eq_dec done v = 0%nat) as ->
          by (apply count_occ_not_In; intros H; apply Hnotin, Hcov, H).
        reflexivity.
Qed.

Lemma fold_add_value_zero (hi k : Z) (vs : list Z) (bins : list bin) (done : list Z) :
  Forall (fun v => 0 <= v <= hi) vs -> 0 <= k ->
  (hi + 1) * (k + Z.of_nat (length vs)) < 2 ^ 53 ->
  Forall (fun b => Cluster.bounded hi k b /\ bmin b = bmax b) bins ->
  NoDup (map bmin bins) ->
  (forall x, In x done <-> In x (map bmin bins)) ->
  Forall (fun b => count b = Z.of_nat (count_occ Z.eq_dec done (bmin b))) bins ->
  let bins' := fold_left (RabbitmqToTriq.add_value 0) vs bins in
  Forall (fun b => (mean b == inject_Z (bmin b))%Q /\ bmin b = bmax b) bins' /\
  NoDup (map bmin bins') /\
  (forall x, In x (rev vs ++ done) <-> In x (map bmin bins')) /\
  Forall (fun b => count b = Z.of_nat (count_occ Z.eq_dec (rev vs ++ done) (bmin b))) bins'.
Proof.
  revert k bins done. induction vs as [|v vs IH]; intros k bins done Hvs Hk Hr Hs Hnd Hcov Hc.
  - cbn. repeat split; try assumption; try apply Hcov.
    eapply Forall_impl; [exact Hs|]. cbn. intros b [(_ & _ & _ & Hlo & Hhi) Hbs].
    split; [|exact Hbs]. apply Qle_antisym; [rewrite Hbs; exact Hhi|exact Hlo].
  - inversion Hvs as [|? ? Hv Hvs']; subst.
    cbn [fold_left rev length] in *. rewrite <- app_assoc. cbn [app].
    rewrite Nat2Z.inj_succ in Hr.
    destruct (add_value_zero_inv hi k bins done v Hv Hk ltac:(nia) Hs Hnd Hcov Hc)
      as (Hs' & Hnd' & Hcov' & Hc').
    apply (IH (k + 1) _ (v :: done)); try assumption; lia.
Qed.

(** X5.  With tolerance 0 values are merged on equality only: on
    durations in range (between 0 and [hi], with (hi + 1) times their
    number below 2^53) [create_histogram] returns one bin for each
    distinct value of the input, with that value as min, max and mean and
    the number of its occurrences as count.  (Out of range the mean of
    equal values is rounded away from them: see [C2_mean_below_min].) *)
Theorem X5_zero_tolerance_counts_occurrences (hi : Z) (values : list Z) :
  Cluster.in_range hi values ->
  let bins := RabbitmqToTriq.create_histogram values 0 in
  Forall (fun b =>
            bmin b = bmax b /\ (mean b == inject_Z (bmin b))%Q /\
            count b = Z.of_nat (count_occ Z.eq_dec values (bmin b))) bins /\
  NoDup (map bmin bins) /\
  (forall v, In v values <-> In v (map bmin bins)).
Proof.
  intros [Hv Hr] bins. subst bins. rewrite triq_histogram_fold.
  destruct (fold_add_value_zero hi 0 (sorted values) [] [])
    as (Hs & Hnd & Hcov & Hc);
    [now rewrite sorted_perm|lia
    |now rewrite (Permutation_length (sorted_perm values))
    |constructor|constructor|cbn; tauto|constructor|].
  rewrite app_nil_r in Hcov, Hc.
  assert (Permutation (rev (sorted values)) values) as HP
    by (rewrite <- Permutation_rev; apply sorted_perm).
  pose proof (sort_by_mean_perm
                (fold_left (RabbitmqToTriq.add_value 0) (sorted values) [])) as HPb.
  split; [|split].
  - rewrite HPb. rewrite Forall_forall in Hs, Hc. apply Forall_forall. intros b Hb.
    destruct (Hs b Hb) as [H1 H2]. repeat split; try assumption.
    rewrite (Hc b Hb). f_equal.
    now apply (Permutation_count_occ Z.eq_dec).
  - now rewrite HPb.
  - intros v. rewrite HPb, <- Hcov. split; apply Permutation_in; [now symmetry|exact HP].
Qed.

Lemma X5_zero_tolerance_witness :
  Cluster.in_range 200 [200; 100; 200; 100; 100] /\
  let bins := RabbitmqToTriq.create_histogram [200; 100; 200; 100; 100] 0 in
  Forall (fun b =>
            bmin b = bmax b /\ (mean b == inject_Z (bmin b))%Q /\
            count b
            = Z.of_nat (count_occ Z.eq_dec [200; 100; 200; 100; 100] (bmin b))) bins /\
  NoDup (map bmin bins) /\
  (forall v, In v [200; 100; 200; 100; 100] <-> In v (map bmin bins)).
Proof.
  assert (Cluster.in_range 200 [200; 100; 200; 100; 100]) as H
    by (split; [repeat constructor; lia|reflexivity]).
  split; [exact H|].
  exact (X5_zero_tolerance_counts_occurrences 200 [200; 100; 200; 100; 100] H).
Defined.

(* ------------------------------------------------------------------ *)
(** ** Looking a value up in the timing table *)




(* ------------------------------------------------------------------ *)
(** ** When a decoder is suggested *)
(* ------------------------------------------------------------------ *)
(** ** When a decoder is suggested *)

Lemma last_cons_Some {A : Type} (x : A) (l : list A) : exists y, last (x :: l) = Some y.
Proof.
  destruct (last (x :: l)) as [y|] eqn:E; [eauto|].
  apply last_None in E. discriminate.
Qed.

Lemma pwm_params_total (self : PulseDataAnalyzer.t) (gap_bins : list bin)
    (short_width long_width sync_width : Q) :
  exists reset_limit,
    PulseDataAnalyzer.pwm_params self gap_bins short_width long_width sync_width
    = Some (PulseDataAnalyzer.FlexPWM short_width long_width reset_limit
              (Qabs (long_width - short_width) * (4 # 10)) sync_width).
Proof.
  destruct gap_bins as [|g gap_bins]; [eexists; reflexivity|].
  destruct (last_cons_Some g gap_bins) as [gl Hl].
  exists (fl (bmin gl) * PulseDataAnalyzer.to_us self + 100)%Q.
  now apply pwm_params_reset_limit.
Qed.

Lemma sort_by_mean_cons (b : bin) (bins : list bin) :
  exists b0 rest, sort_by_mean (b :: bins) = b0 :: rest /\ length rest = length bins.
Proof.
  assert (length (sort_by_mean (b :: bins)) = S (length bins)) as H
    by (unfold sort_by_mean; now rewrite stable_sort_length).
  destruct (sort_by_mean (b :: bins)) as [|b0 rest]; [discriminate|].
  exists b0, rest. split; [reflexivity|]. simpl in H. lia.
Qed.

(** The [OOK_PWM] branches on at least one pulse bin. *)
Lemma suggest_pwm_shape (self : PulseDataAnalyzer.t) (p : bin)
    (pulse_bins gap_bins : list bin) (has_sync : bool) :
  exists short_width long_width reset_limit sync_width,
    PulseDataAnalyzer.outcome
      (PulseDataAnalyzer._suggest_flex_decoder self "OOK_PWM" (p :: pulse_bins)
         gap_bins has_sync)
    = PulseDataAnalyzer.Suggested
        (PulseDataAnalyzer.FlexPWM short_width long_width reset_limit
           (Qabs (long_width - short_width) * (4 # 10)) sync_width) /\
    ((exists b1 b2, short_width = Qmin (mean b1 * PulseDataAnalyzer.to_us self)
                                     (mean b2 * PulseDataAnalyzer.to_us self) /\
                    long_width = Qmax (mean b1 * PulseDataAnalyzer.to_us self)
                                    (mean b2 * PulseDataAnalyzer.to_us self)) \/
     (exists b0 rest, sort_by_mean (p :: pulse_bins) = b0 :: rest /\
                      short_width = (mean b0 * PulseDataAnalyzer.to_us self)%Q /\
                      long_width = match rest with
                                   | b1 :: _ => (mean b1 * PulseDataAnalyzer.to_us self)%Q
                                   | [] => (short_width * 2)%Q
                                   end)).
Proof.
  unfold PulseDataAnalyzer._suggest_flex_decoder.
  cbn [String.eqb Ascii.eqb Bool.eqb].
  destruct (sort_by_mean_cons p pulse_bins) as (b0 & rest & E & Hlen).
  rewrite E.
  destruct (has_sync && (3 <=? Z.of_nat (length (b0 :: rest)))) eqn:Hs.
  - apply andb_true_iff in Hs as [_ H3]. apply Z.leb_le in H3.
    assert (length (sort_by_count (b0 :: rest)) = length (b0 :: rest)) as Hc
      by (unfold sort_by_count; now rewrite stable_sort_length).
    destruct (sort_by_count (b0 :: rest)) as [|c0 [|c1 [|c2 cs]]]; simpl in Hc, H3; try lia.
    cbn [PulseDataAnalyzer.outcome PulseDataAnalyzer.item lookup list_lookup
         mbind option_bind].
    destruct (pwm_params_total self (sort_by_mean gap_bins)
                (Qmin (mean c1 * PulseDataAnalyzer.to_us self)
                   (mean c2 * PulseDataAnalyzer.to_us self))
                (Qmax (mean c1 * PulseDataAnalyzer.to_us self)
                   (mean c2 * PulseDataAnalyzer.to_us self))
                (mean c0 * PulseDataAnalyzer.to_us self)) as [r ->].
    eexists _, _, _, _. split; [reflexivity|]. left. eauto.
  - cbn [PulseDataAnalyzer.outcome PulseDataAnalyzer.item lookup list_lookup
         mbind option_bind].
    destruct rest as [|b1 rest].
    + change (1 <? Z.of_nat (length [b0])) with false.
      cbn [lookup list_lookup mbind option_bind].
      destruct (pwm_params_total self (sort_by_mean gap_bins)
                  (mean b0 * PulseDataAnalyzer.to_us self)
                  (mean b0 * PulseDataAnalyzer.to_us self * 2) 0) as [r ->].
      eexists _, _, _, _. split; [reflexivity|]. right. eauto.
    + replace (1 <? Z.of_nat (length (b0 :: b1 :: rest))) with true
        by (symmetry; apply Z.ltb_lt; simpl; lia).
      cbn [lookup list_lookup mbind option_bind].
      destruct (pwm_params_total self (sort_by_mean gap_bins)
                  (mean b0 * PulseDataAnalyzer.to_us self)
                  (mean b1 * PulseDataAnalyzer.to_us self) 0) as [r ->].
      eexists _, _, _, _. split; [reflexivity|]. right. eauto.
Qed.

(** The [OOK_PPM] branch on at least one pulse bin. *)
Lemma suggest_ppm_shape (self : PulseDataAnalyzer.t) (p : bin)
    (pulse_bins gap_bins : list bin) (has_sync : bool) :
  PulseDataAnalyzer.outcome
    (PulseDataAnalyzer._suggest_flex_decoder self "OOK_PPM" (p :: pulse_bins)
       gap_bins has_sync)
  = match sort_by_mean gap_bins with
    | [] => PulseDataAnalyzer.IndexError
    | g0 :: rest =>
        let short_width := (mean g0 * PulseDataAnalyzer.to_us self)%Q in
        let long_width := match rest with
                          | g1 :: _ => (mean g1 * PulseDataAnalyzer.to_us self)%Q
                          | [] => (short_width * 2)%Q
                          end in
        PulseDataAnalyzer.Suggested
          (PulseDataAnalyzer.FlexPPM short_width long_width (long_width + 100)
             (fl (bmin (default g0 (last rest))) * PulseDataAnalyzer.to_us self + 100))
    end.
Proof.
  unfold PulseDataAnalyzer._suggest_flex_decoder.
  cbn [String.eqb Ascii.eqb Bool.eqb PulseDataAnalyzer.outcome].
  destruct (sort_by_mean gap_bins) as [|g0 rest]; [reflexivity|].
  unfold PulseDataAnalyzer.item, PulseDataAnalyzer.item_last.
  cbn [lookup list_lookup mbind option_bind].
  assert (last (g0 :: rest) = Some (default g0 (last rest))) as ->
    by (rewrite last_cons; now destruct (last rest)).
  destruct rest as [|g1 rest].
  - reflexivity.
  - replace (1 <? Z.of_nat (length (g0 :: g1 :: rest))) with true
      by (symmetry; apply Z.ltb_lt; simpl; lia).
    reflexivity.
Qed.

Lemma sort_by_mean_nil_iff (bins : list bin) : sort_by_mean bins = [] <-> bins = [].
Proof.
  split; [|now intros ->]. intros H.
  apply Permutation_nil. rewrite <- H. apply sort_by_mean_perm.
Qed.

(** X7.  A direct call of [_suggest_flex_decoder] fails with an index
    error exactly when it is asked for an [OOK_PPM] decoder with some
    pulse bin and no gap bin, and returns without a suggestion exactly
    when there is no pulse bin or the modulation is neither [OOK_PPM] nor
    [OOK_PWM]; in every other case it suggests a decoder. *)
Theorem X7_suggestion_outcomes
    (self : PulseDataAnalyzer.t) (modulation : string)
    (pulse_bins gap_bins : list bin) (has_sync : bool) :
  let result :=
    PulseDataAnalyzer.outcome
      (PulseDataAnalyzer._suggest_flex_decoder self modulation pulse_bins gap_bins
         has_sync) in
  (result = PulseDataAnalyzer.IndexError <->
   pulse_bins <> [] /\ modulation = "OOK_PPM"%string /\ gap_bins = []) /\
  (result = PulseDataAnalyzer.NoSuggestion <->
   pulse_bins = [] \/ (modulation <> "OOK_PPM"%string /\ modulation <> "OOK_PWM"%string)).
Proof.
  intros result. subst result.
  destruct pulse_bins as [|p pulse_bins].
  - cbn. split; split.
    + discriminate.
    + intros (H & _). congruence.
    + intros _. now left.
    + reflexivity.
  - destruct (String.eqb_spec modulation "OOK_PPM") as [->|Hppm].
    + rewrite suggest_ppm_shape.
      destruct (sort_by_mean gap_bins) as [|g0 rest] eqn:E.
      * assert (gap_bins = []) as -> by (now apply sort_by_mean_nil_iff).
        split; split.
        -- intros _. repeat split. discriminate.
        -- reflexivity.
        -- discriminate.
        -- intros [H|[H _]]; congruence.
      * assert (gap_bins <> []) as Hne by (intros ->; discriminate).
        cbv zeta. split; split.
        -- discriminate.
        -- intros (_ & _ & H). congruence.
        -- discriminate.
        -- intros [H|[H _]]; congruence.
    + destruct (String.eqb_spec modulation "OOK_PWM") as [->|Hpwm].
      * destruct (suggest_pwm_shape self p pulse_bins gap_bins has_sync)
          as (s & l & r & y & -> & _).
        split; split.
        -- discriminate.
        -- intros (_ & H & _). discriminate.
        -- discriminate.
        -- intros [H|[_ H]]; congruence.
      * unfold PulseDataAnalyzer._suggest_flex_decoder.
        apply String.eqb_neq in Hppm, Hpwm. rewrite Hppm, Hpwm.
        apply String.eqb_neq in Hppm, Hpwm. cbn.
        split; split.
        -- discriminate.
        -- intros (_ & H & _). congruence.
        -- intros _. right. now split.
        -- reflexivity.
Qed.

(** X8.  [_guess_modulation] never runs into the index error of
    [_suggest_flex_decoder]: it asks for a decoder exactly on the four
    verdicts PpmFixedPulse, PwmFixedGap, PwmFixedPeriod and PwmWithSync,
    and then a decoder is suggested. *)
Theorem X8_guess_always_gets_its_decoder
    (self : PulseDataAnalyzer.t) (pulse_widths gap_widths : list Z) :
  match PulseDataAnalyzer._guess_modulation self pulse_widths gap_widths with
  | (verdict, Some call) =>
      In verdict [PulseDataAnalyzer.PpmFixedPulse; PulseDataAnalyzer.PwmFixedGap;
                  PulseDataAnalyzer.PwmFixedPeriod; PulseDataAnalyzer.PwmWithSync] /\
      exists d, PulseDataAnalyzer.outcome call = PulseDataAnalyzer.Suggested d
  | (verdict, None) =>
      In verdict [PulseDataAnalyzer.SinglePulse; PulseDataAnalyzer.Unmodulated;
                  PulseDataAnalyzer.Unknown]
  end.
Proof.
  unfold PulseDataAnalyzer._guess_modulation.
  set (pulse_bins := PulseDataAnalyzer._create_histogram self pulse_widths).
  set (gap_bins := PulseDataAnalyzer._create_histogram self gap_widths).
  assert (forall hs, (0 < length pulse_bins)%nat ->
            exists d, PulseDataAnalyzer.outcome
                        (PulseDataAnalyzer._suggest_flex_decoder self "OOK_PWM"
                           pulse_bins gap_bins hs)
                      = PulseDataAnalyzer.Suggested d) as Hpwm.
  { intros hs Hl. destruct pulse_bins as [|p pb]; [simpl in Hl; lia|].
    destruct (suggest_pwm_shape self p pb gap_bins hs) as (s & l & r & y & -> & _).
    eauto. }
  destruct (Z.of_nat (length pulse_widths) =? 1); [cbn; tauto|].
  destruct (Z.eqb_spec (Z.of_nat (length pulse_bins)) 1) as [H1|H1];
    destruct (Z.eqb_spec (Z.of_nat (length gap_bins)) 1) as [G1|G1]; cbn [andb].
  - cbn; tauto.
  - destruct (Z.gtb_spec (Z.of_nat (length gap_bins)) 1) as [Hg|Hg].
    + split; [cbn; tauto|].
      destruct pulse_bins as [|p pb]; [simpl in H1; lia|].
      rewrite suggest_ppm_shape.
      destruct (sort_by_mean gap_bins) as [|g0 rest] eqn:E.
      * assert (gap_bins = []) as Eg by (now apply sort_by_mean_nil_iff).
        rewrite Eg in Hg. simpl in Hg. lia.
      * cbv zeta. eauto.
    + replace (Z.of_nat (length pulse_bins) =? 2) with false
        by (symmetry; apply Z.eqb_neq; lia).
      replace (Z.of_nat (length pulse_bins) =? 3) with false
        by (symmetry; apply Z.eqb_neq; lia).
      cbn; tauto.
  - destruct (Z.eqb_spec (Z.of_nat (length pulse_bins)) 2) as [H2|H2].
    + split; [cbn; tauto|]. apply Hpwm. lia.
    + destruct (Z.eqb_spec (Z.of_nat (length pulse_bins)) 3) as [H3|H3].
      * split; [cbn; tauto|]. apply Hpwm. lia.
      * cbn; tauto.
  - destruct (Z.eqb_spec (Z.of_nat (length pulse_bins)) 2) as [H2|H2]; cbn [andb].
    + destruct (Z.eqb_spec (Z.of_nat (length gap_bins)) 2) as [G2|G2].
      * split; [cbn; tauto|]. apply Hpwm. lia.
      * replace (Z.of_nat (length pulse_bins) =? 3) with false
          by (symmetry; apply Z.eqb_neq; lia).
        cbn; tauto.
    + destruct (Z.eqb_spec (Z.of_nat (length pulse_bins)) 3) as [H3|H3].
      * split; [cbn; tauto|]. apply Hpwm. lia.
      * cbn; tauto.
Qed.




(* ------------------------------------------------------------------ *)
(** ** What the encoder returns, and when *)

(** X10.  The four ways [generate_rfraw_from_rabbitmq] ends.  It returns
    without a frame for "insufficient pulse data" exactly when the message
    has fewer than two durations (or no [pulses] key); otherwise it raises
    the division error exactly when the rate is 0; otherwise it returns
    without a frame for "too many timings" exactly when the combined
    histogram has more than 8 bins; in every other case it returns a
    frame. *)
Theorem X10_encoder_outcomes (json : RabbitmqToTriq.json_data) :
  let pulse_train := default [] (RabbitmqToTriq.pulses json) in
  let rate_hz := default 250000 (RabbitmqToTriq.rate_Hz json) in
  let timing_bins :=
    RabbitmqToTriq.create_histogram
      (Spec.pulse_widths pulse_train ++ Spec.gap_widths pulse_train)
      RabbitmqToTriq.default_tolerance in
  let result := RabbitmqToTriq.generate_rfraw_from_rabbitmq json in
  (result = RabbitmqToTriq.InsufficientPulseData <-> (length pulse_train < 2)%nat) /\
  (result = RabbitmqToTriq.ZeroDivisionError <->
   (2 <= length pulse_train)%nat /\ rate_hz = 0) /\
  (forall n, result = RabbitmqToTriq.TooManyTimings n <->
             (2 <= length pulse_train)%nat /\ rate_hz <> 0 /\
             (8 < length timing_bins)%nat /\ n = length timing_bins) /\
  ((exists rfraw, result = RabbitmqToTriq.RfRaw rfraw) <->
   (2 <= length pulse_train)%nat /\ rate_hz <> 0 /\ (length timing_bins <= 8)%nat).
Proof.
  intros pulse_train rate_hz timing_bins result. subst result.
  unfold RabbitmqToTriq.generate_rfraw_from_rabbitmq.
  fold pulse_train rate_hz. rewrite separate_every_other. fold timing_bins.
  destruct (Z.ltb_spec (Z.of_nat (length pulse_train)) 2) as [Hl|Hl].
  { split; [split; [intros _; lia|reflexivity]|].
    split; [split; [discriminate|intros [H _]; lia]|].
    split; [intros n; split; [discriminate|intros [H _]; lia]|].
    split; [intros [s H]; discriminate|intros [H _]; lia]. }
  destruct (Z.eqb_spec rate_hz 0) as [Hr|Hr].
  { split; [split; [discriminate|intros H; lia]|].
    split; [split; [intros _; split; [lia|exact Hr]|reflexivity]|].
    split; [intros n; split; [discriminate|intros (_ & H & _); contradiction]|].
    split; [intros [s H]; discriminate|intros (_ & H & _); contradiction]. }
  destruct (Z.ltb_spec 8 (Z.of_nat (length timing_bins))) as [H8|H8].
  { split; [split; [discriminate|intros H; lia]|].
    split; [split; [discriminate|intros [_ H]; contradiction]|].
    split; [intros n; split|].
    - intros [= <-]. repeat split; [lia|exact Hr|lia].
    - intros (_ & _ & _ & ->). reflexivity.
    - split; [intros [s H]; discriminate|intros (_ & _ & H); lia]. }
  split; [split; [discriminate|intros H; lia]|].
  split; [split; [discriminate|intros [_ H]; contradiction]|].
  split; [intros n; split; [discriminate|intros (_ & _ & H & _); lia]|].
  split; [intros _; repeat split; [lia|exact Hr|lia]|intros _; eauto].
Qed.

Lemma triq_histogram_length (values : list Z) (t : Q) :
  (length (RabbitmqToTriq.create_histogram values t) <= length values)%nat.
Proof.
  rewrite triq_histogram_fold.
  unfold sort_by_mean. rewrite stable_sort_length.
  destruct (histogram_groups t values) as (groups & HP & HF).
  destruct (groups_length _ _ HF) as [H _]. now rewrite (Permutation_length HP) in H.
Qed.

Lemma all_timings_length (pulse_train : list Z) :
  length (Spec.pulse_widths pulse_train ++ Spec.gap_widths pulse_train)
  = length pulse_train.
Proof.
  rewrite length_app. apply (every_other_lengths pulse_train).
Qed.

(** X11.  A message with two to eight durations and a rate other than 0
    always gets a frame: eight values cannot make more than eight bins. *)
Theorem X11_short_trains_are_encodable
    (json : RabbitmqToTriq.json_data) (pulse_train : list Z) :
  RabbitmqToTriq.pulses json = Some pulse_train ->
  (2 <= length pulse_train <= 8)%nat ->
  default 250000 (RabbitmqToTriq.rate_Hz json) <> 0 ->
  exists rfraw,
    RabbitmqToTriq.generate_rfraw_from_rabbitmq json = RabbitmqToTriq.RfRaw rfraw.
Proof.
  intros Hp Hlen Hrate.
  destruct (generate_rfraw_parts json pulse_train Hp) as [_ H]; [lia|exact Hrate|].
  destruct H as (chunks & trailing & _ & _ & _ & _ & _ & E).
  - etransitivity; [apply triq_histogram_length|]. rewrite all_timings_length. lia.
  - eauto.
Qed.

Lemma X11_short_trains_are_encodable_witness :
  let pulse_train : list Z := [2396; 23964] in
  let json := RabbitmqToTriq.Json (Some pulse_train) (Some 250000) in
  (RabbitmqToTriq.pulses json = Some pulse_train /\
   (2 <= length pulse_train <= 8)%nat /\
   default 250000 (RabbitmqToTriq.rate_Hz json) <> 0) /\
  exists rfraw,
    RabbitmqToTriq.generate_rfraw_from_rabbitmq json = RabbitmqToTriq.RfRaw rfraw.
Proof.
  intros pulse_train json.
  assert (RabbitmqToTriq.pulses json = Some pulse_train) as H1 by reflexivity.
  assert (2 <= length pulse_train <= 8)%nat as H2 by (simpl; lia).
  assert (default 250000 (RabbitmqToTriq.rate_Hz json) <> 0) as H3 by (simpl; lia).
  split; [split; [exact H1|split; [exact H2|exact H3]]|].
  exact (X11_short_trains_are_encodable json pulse_train H1 H2 H3).
Defined.

(* ------------------------------------------------------------------ *)
(** ** The frame as a string *)

Lemma hex_digit_is_hex (d : Z) : Cluster.is_hex_char (RabbitmqToTriq.hex_digit d).
Proof.
  unfold Cluster.is_hex_char.
  destruct d as [|p|p]; [cbn; tauto| |cbn; tauto].
  do 4 (try destruct p as [p|p|]); cbn; tauto.
Qed.

Lemma to_hex_chars (bytes : list Z) :
  Forall Cluster.is_hex_char (list_ascii_of_string (Spec.to_hex bytes)).
Proof.
  unfold Spec.to_hex. induction bytes as [|b bytes IH]; [constructor|].
  cbn [map]. rewrite join_cons. cbn [Spec.hex_byte append list_ascii_of_string].
  repeat (constructor; [apply hex_digit_is_hex|]). exact IH.
Qed.

Lemma generate_rfraw_RfRaw_inv (json : RabbitmqToTriq.json_data) (rfraw : string) :
  RabbitmqToTriq.generate_rfraw_from_rabbitmq json = RabbitmqToTriq.RfRaw rfraw ->
  let pulse_train := default [] (RabbitmqToTriq.pulses json) in
  (2 <= length pulse_train)%nat /\
  default 250000 (RabbitmqToTriq.rate_Hz json) <> 0 /\
  (length (RabbitmqToTriq.create_histogram
             (Spec.pulse_widths pulse_train ++ Spec.gap_widths pulse_train)
             RabbitmqToTriq.default_tolerance) <= 8)%nat.
Proof.
  intros H pulse_train. unfold RabbitmqToTriq.generate_rfraw_from_rabbitmq in H.
  fold pulse_train in H. rewrite separate_every_other in H.
  destruct (Z.ltb_spec (Z.of_nat (length pulse_train)) 2); [discriminate|].
  destruct (Z.eqb_spec (default 250000 (RabbitmqToTriq.rate_Hz json)) 0); [discriminate|].
  destruct (Z.ltb_spec 8 (Z.of_nat (length
              (RabbitmqToTriq.create_histogram
                 (Spec.pulse_widths pulse_train ++ Spec.gap_widths pulse_train)
                 RabbitmqToTriq.default_tolerance)))); [discriminate|].
  repeat split; [lia|assumption|lia].
Qed.

Lemma RfRaw_inj (s1 s2 : string) :
  RabbitmqToTriq.RfRaw s1 = RabbitmqToTriq.RfRaw s2 -> s1 = s2.
Proof. now intros [= ->]. Qed.

Lemma frame_length (to_us : Q) (timing_bins : list bin) (data : list Z) :
  length (Spec.frame to_us timing_bins data)
  = (4 + 2 * length timing_bins + length data)%nat.
Proof.
  unfold Spec.frame. rewrite !length_app. cbn [length].
  assert (length (flat_map (fun b => Spec.be16 (Spec.timing_us to_us b)) timing_bins)
          = (2 * length timing_bins)%nat) as ->.
  { induction timing_bins as [|b bins IH]; [reflexivity|].
    cbn [flat_map]. rewrite length_app, IH. simpl. lia. }
  lia.
Qed.

(** X12.  A frame returned for non-negative durations at a positive rate
    is a string of uppercase hexadecimal digits that starts with "AAB1"
    and ends with "55"; with N timing bins (at most 8) and d data bytes
    (at most one per pulse) it has 2·(4 + 2·N + d) characters. *)
Theorem X12_frame_is_wellformed_hex
    (json : RabbitmqToTriq.json_data) (pulse_train : list Z) (rfraw : string) :
  RabbitmqToTriq.pulses json = Some pulse_train ->
  0 < default 250000 (RabbitmqToTriq.rate_Hz json) ->
  Forall (fun d => 0 <= d) pulse_train ->
  RabbitmqToTriq.generate_rfraw_from_rabbitmq json = RabbitmqToTriq.RfRaw rfraw ->
  let N := length (RabbitmqToTriq.create_histogram
                     (Spec.pulse_widths pulse_train ++ Spec.gap_widths pulse_train)
                     RabbitmqToTriq.default_tolerance) in
  Forall Cluster.is_hex_char (list_ascii_of_string rfraw) /\
  (exists body, rfraw = ("AAB1" ++ body ++ "55")%string) /\
  (N <= 8)%nat /\
  exists d, (d <= length (Spec.pulse_widths pulse_train))%nat /\
            String.length rfraw = (2 * (4 + 2 * N + d))%nat.
Proof.
  intros Hp Hrate Hpos Hgen N.
  destruct (generate_rfraw_RfRaw_inv json rfraw Hgen) as (Hlen & Hr & H8).
  rewrite Hp in Hlen, H8. change (default [] (Some pulse_train)) with pulse_train in Hlen, H8.
  destruct (generate_rfraw_parts json pulse_train Hp Hlen Hr) as [_ Hframe].
  destruct (Hframe H8) as (chunks & trailing & HF & Hl & Hev & _ & Hrange & E).
  rewrite Hgen in E. apply RfRaw_inj in E.
  assert (Forall (fun b => (0 <= mean b)%Q)
            (RabbitmqToTriq.create_histogram
               (Spec.pulse_widths pulse_train ++ Spec.gap_widths pulse_train)
               RabbitmqToTriq.default_tolerance)) as Hmean
    by (apply histogram_mean_nonneg, all_timings_Forall, Hpos).
  assert (Forall Spec.is_byte (concat chunks ++ trailing)) as Hdata
    by (eapply Forall_impl; [exact Hrange|unfold Spec.is_byte; cbn; intros; lia]).
  rewrite hex_parts_frame in E
    by (try apply to_us_positive; assumption).
  subst rfraw. split; [apply to_hex_chars|]. split; [|split; [exact H8|]].
  - unfold Spec.frame.
    change [170; 177; Z.of_nat ?n] with ([170; 177] ++ [Z.of_nat n]).
    rewrite <- !app_assoc, !app_assoc.
    rewrite to_hex_app. rewrite <- !app_assoc. rewrite (to_hex_app [170; 177]).
    eexists. rewrite append_assoc. reflexivity.
  - exists (length (concat chunks ++ trailing)). split.
    + rewrite length_app.
      pose proof (pair_bytes_chunks_length _ _ _ _ HF) as Hc.
      unfold Spec.captured_pairs in Hc. rewrite length_zip_with in Hc.
      pose proof (every_other_lengths pulse_train) as [_ Hpg].
      fold (Spec.pulse_widths pulse_train) (Spec.gap_widths pulse_train) in Hpg.
      destruct (Nat.eq_dec (length (Spec.gap_widths pulse_train))
                  (length (Spec.pulse_widths pulse_train))) as [Heq|Hne].
      * rewrite (Hev Heq). simpl. lia.
      * lia.
    + rewrite to_hex_length, frame_length. reflexivity.
Qed.

Lemma data_byte_digits_table :
  forallb (fun p =>
     forallb (fun g =>
        String.eqb
          (RabbitmqToTriq.format_X 2
             (Z.lor 128 (Z.lor (Z.shiftl (Z.of_nat p) 4) (Z.of_nat g))))
          (String (RabbitmqToTriq.hex_digit (8 + Z.of_nat p))
             (String (RabbitmqToTriq.hex_digit (Z.of_nat g)) EmptyString)))
       (seq 0 8))
    (seq 0 8) = true.
Proof. vm_compute. reflexivity. Qed.

Lemma find_timing_bin_index_range (v : Z) (timing_bins : list bin) (t : Q) :
  -1 <= RabbitmqToTriq.find_timing_bin_index v timing_bins t
     < Z.of_nat (length timing_bins).
Proof.
  destruct (find_timing_bin_index_spec v timing_bins t) as [[-> _]|(k & -> & Hk)]; [lia|].
  apply first_index_bound in Hk. lia.
Qed.

(** X13.  With a timing table of at most 8 bins, the data byte of a pair
    reads as two hexadecimal digits: 8 plus the index of the pulse, then
    the index of the gap; a pair with a duration that has no index gets
    nothing. *)
Theorem X13_data_byte_digits (p g : Z) (timing_bins : list bin) :
  (length timing_bins <= 8)%nat ->
  let pulse_idx :=
    RabbitmqToTriq.find_timing_bin_index p timing_bins RabbitmqToTriq.default_tolerance in
  let gap_idx :=
    RabbitmqToTriq.find_timing_bin_index g timing_bins RabbitmqToTriq.default_tolerance in
  RabbitmqToTriq.encode_pair p g timing_bins
  = if (0 <=? pulse_idx) && (0 <=? gap_idx)
    then [String (RabbitmqToTriq.hex_digit (8 + pulse_idx))
            (String (RabbitmqToTriq.hex_digit gap_idx) EmptyString)]
    else [].
Proof.
  intros H8 pulse_idx gap_idx. unfold RabbitmqToTriq.encode_pair.
  fold pulse_idx gap_idx. rewrite !Z.geb_leb.
  pose proof (find_timing_bin_index_range p timing_bins RabbitmqToTriq.default_tolerance)
    as Hp.
  pose proof (find_timing_bin_index_range g timing_bins RabbitmqToTriq.default_tolerance)
    as Hg.
  fold pulse_idx in Hp. fold gap_idx in Hg.
  destruct (Z.leb_spec 0 pulse_idx) as [Hp0|_]; [|reflexivity].
  destruct (Z.leb_spec 0 gap_idx) as [Hg0|_]; [|reflexivity].
  cbn [andb]. f_equal.
  pose proof data_byte_digits_table as T. rewrite forallb_forall in T.
  assert (In (Z.to_nat pulse_idx) (seq 0 8)) as Hpi by (apply in_seq; lia).
  assert (In (Z.to_nat gap_idx) (seq 0 8)) as Hgi by (apply in_seq; lia).
  specialize (T _ Hpi). rewrite forallb_forall in T. specialize (T _ Hgi).
  rewrite !Z2Nat.id in T by lia. now apply String.eqb_eq.
Qed.

(* ------------------------------------------------------------------ *)
(** ** The report of the analyzer *)

Lemma every_other_length {A : Type} (l : list A) :
  length (PulseDataAnalyzer.every_other l) = Nat.div2 (length l + 1).
Proof.
  induction l as [|x|x y l IH] using pair_induction; [reflexivity|reflexivity|].
  cbn [PulseDataAnalyzer.every_other length]. fold (PulseDataAnalyzer.every_other (A:=A)).
  replace (S (S (length l)) + 1)%nat with (S (S (length l + 1))) by lia.
  cbn [Nat.div2]. rewrite <- IH. now destruct l.
Qed.

Lemma every_other_tail_length {A : Type} (l : list A) :
  length (PulseDataAnalyzer.every_other (tail l)) = Nat.div2 (length l).
Proof.
  destruct l as [|x l]; [reflexivity|]. cbn [tail length].
  rewrite every_other_length. f_equal. lia.
Qed.

Lemma div2_bounds (n : nat) : (2 * Nat.div2 n <= n <= 2 * Nat.div2 n + 1)%nat.
Proof.
  rewrite Nat.div2_div. pose proof (Nat.div_mod_eq n 2) as H.
  pose proof (Nat.mod_upper_bound n 2) as H'. lia.
Qed.

Lemma sum_from (l : list Z) (a : Z) : fold_left Z.add l a = a + Report.sum l.
Proof.
  unfold Report.sum. revert a. induction l as [|x l IH]; intros a; cbn [fold_left]; [lia|].
  rewrite (IH (a + x)), (IH (0 + x)). lia.
Qed.

Lemma sum_cons (x : Z) (l : list Z) : Report.sum (x :: l) = x + Report.sum l.
Proof. unfold Report.sum at 1. cbn [fold_left]. rewrite sum_from. lia. Qed.

Lemma sum_app (l1 l2 : list Z) : Report.sum (l1 ++ l2) = Report.sum l1 + Report.sum l2.
Proof.
  induction l1 as [|x l1 IH]; [reflexivity|].
  cbn [app]. rewrite !sum_cons, IH. lia.
Qed.

(** The loop of [periods_pg] adds each pulse to the gap after it. *)
Lemma periods_pg_zip (pulse_widths gap_widths : list Z) :
  Report.periods_pg pulse_widths gap_widths = zip_with Z.add pulse_widths gap_widths.
Proof.
  unfold Report.periods_pg.
  enough (forall acc,
    fold_left
      (fun periods i =>
         match pulse_widths !! i, gap_widths !! i with
         | Some p, Some g => periods ++ [p + g]
         | _, _ => periods
         end)
      (seq 0 (Nat.min (length pulse_widths) (length gap_widths))) acc
    = acc ++ zip_with Z.add pulse_widths gap_widths) as H by apply (H []).
  revert gap_widths. induction pulse_widths as [|p pw IH]; intros gw acc.
  - cbn. now rewrite app_nil_r.
  - destruct gw as [|g gw]; [cbn; now rewrite app_nil_r|].
    cbn [length Nat.min seq fold_left lookup list_lookup zip_with].
    rewrite <- seq_shift, fold_left_over_map.
    rewrite (fold_left_pointwise _
               (fun periods i =>
                  match pw !! i, gw !! i with
                  | Some p, Some g => periods ++ [p + g]
                  | _, _ => periods
                  end)) by reflexivity.
    rewrite IH, <- app_assoc. reflexivity.
Qed.

Lemma sum_zip_every_other (l : list Z) :
  length (PulseDataAnalyzer.every_other (tail l)) = length (PulseDataAnalyzer.every_other l) ->
  Report.sum (zip_with Z.add (PulseDataAnalyzer.every_other l)
                (PulseDataAnalyzer.every_other (tail l)))
  = Report.sum l.
Proof.
  induction l as [|x|x y l IH] using pair_induction; [reflexivity|discriminate|].
  cbn [tail PulseDataAnalyzer.every_other].
  replace (match l with [] => [] | _ :: l'' => PulseDataAnalyzer.every_other l'' end)
    with (PulseDataAnalyzer.every_other (tail l)) by now destruct l.
  replace (x :: match l with [] => [] | _ :: _ => PulseDataAnalyzer.every_other l end)
    with (x :: PulseDataAnalyzer.every_other l) by now destruct l.
  replace (PulseDataAnalyzer.every_other (y :: l))
    with (y :: PulseDataAnalyzer.every_other (tail l)) by now destruct l.
  cbn [length zip_with]. intros H. rewrite !sum_cons, IH by lia. lia.
Qed.

(** X14.  The pulse+gap periods of [analyze] are the sums of each pulse
    and the gap after it, one per captured gap; on a train of even length
    they add up to the whole train.  [total_period], the sum of all
    durations but the last, is the sum of the train less its last
    duration. *)
Theorem X14_periods_and_total (pulses : list Z) :
  let pulse_widths := PulseDataAnalyzer.every_other pulses in
  let gap_widths := PulseDataAnalyzer.every_other (tail pulses) in
  let periods := Report.periods_pg pulse_widths gap_widths in
  periods = zip_with Z.add pulse_widths gap_widths /\
  length periods = length gap_widths /\
  length periods = Nat.div2 (length pulses) /\
  (length gap_widths = length pulse_widths -> Report.sum periods = Report.sum pulses) /\
  Report.total_period pulses + default 0 (last pulses) = Report.sum pulses.
Proof.
  intros pulse_widths gap_widths periods. subst periods.
  rewrite periods_pg_zip.
  pose proof (every_other_lengths pulses) as [_ Hpg].
  fold pulse_widths gap_widths in Hpg.
  split; [reflexivity|]. split; [rewrite length_zip_with; lia|].
  split; [rewrite length_zip_with; subst gap_widths;
          rewrite <- every_other_tail_length; lia|].
  split; [apply sum_zip_every_other|].
  unfold Report.total_period.
  destruct pulses as [|x l] using rev_ind; [reflexivity|].
  rewrite removelast_last, last_snoc, sum_app, sum_cons. cbn. lia.
Qed.

(** X15.  [analyze] returns early exactly on fewer than two durations:
    its second early return ("No pulses detected") is never taken.  When
    it goes on, the number of pulses is half the number of durations,
    rounded up, the three distributions all have data (the "No data" line
    is never printed), and the raw timings are listed exactly when there
    are at most 16 durations. *)
Theorem X15_analyze_returns (self : PulseDataAnalyzer.t) (pulses : list Z) :
  (Report.analyze self pulses = None <-> (length pulses < 2)%nat) /\
  (forall r, Report.analyze self pulses = Some r ->
     Report.num_pulses r = Nat.div2 (length pulses + 1) /\
     (1 <= Report.num_pulses r)%nat /\
     Report.pulse_distribution r <> None /\
     Report.gap_distribution r <> None /\
     Report.period_distribution r <> None /\
     PulseDataAnalyzer.analyze self pulses = Some (Report.modulation r) /\
     (Report.rfraw_timings r = None <-> (16 < length pulses)%nat)).
Proof.
  unfold Report.analyze, PulseDataAnalyzer.analyze.
  pose proof (every_other_length pulses) as Hpw.
  pose proof (every_other_tail_length pulses) as Hgw.
  pose proof (div2_bounds (length pulses + 1)) as Hb1.
  pose proof (div2_bounds (length pulses)) as Hb2.
  destruct (Z.ltb_spec (Z.of_nat (length pulses)) 2) as [Hl|Hl].
  { split; [split; [intros _; lia|reflexivity]|discriminate]. }
  destruct (Z.eqb_spec (Z.of_nat (length (PulseDataAnalyzer.every_other pulses))) 0)
    as [H0|H0]; [lia|].
  split; [split; [discriminate|intros; lia]|].
  intros r [= <-]. cbn [Report.num_pulses Report.pulse_distribution
                        Report.gap_distribution Report.period_distribution
                        Report.modulation Report.rfraw_timings].
  split; [exact Hpw|]. split; [lia|].
  assert (forall values, values <> [] -> Report._analyze_distribution self values <> None)
    as Hd by (intros [|v values] Hv; [congruence|discriminate]).
  split; [apply Hd; intros E; rewrite E in H0; simpl in H0; lia|].
  split; [apply Hd; intros E; rewrite E in Hgw; simpl in Hgw; lia|].
  split.
  - apply Hd. intros E. apply (f_equal length) in E.
    rewrite periods_pg_zip, length_zip_with in E. simpl in E. lia.
  - split; [reflexivity|]. unfold Report._generate_rfraw.
    destruct (Z.ltb_spec 16 (Z.of_nat (length pulses))); split;
      try discriminate; try reflexivity; intros; lia.
Qed.

(** X16.  Verdicts of [analyze].  On a capture of two durations the
    verdict is SinglePulse, and only there.  On a longer capture every
    number of pulse bins up to three leads to a named scheme, except two
    pulse bins with three or more gap bins: the verdict is Unknown exactly
    when there are four or more pulse bins, or two pulse bins and three or
    more gap bins. *)
Theorem X16_verdicts_of_analyze
    (self : PulseDataAnalyzer.t) (pulses : list Z)
    (verdict : PulseDataAnalyzer.guess) (call : option PulseDataAnalyzer.flex_call) :
  PulseDataAnalyzer.analyze self pulses = Some (verdict, call) ->
  let P := length (PulseDataAnalyzer._create_histogram self
                     (PulseDataAnalyzer.every_other pulses)) in
  let G := length (PulseDataAnalyzer._create_histogram self
                     (PulseDataAnalyzer.every_other (tail pulses))) in
  (1 <= P)%nat /\ (1 <= G)%nat /\
  (verdict = PulseDataAnalyzer.SinglePulse <-> length pulses = 2%nat) /\
  (verdict = PulseDataAnalyzer.Unknown <->
   (3 <= length pulses)%nat /\ ((4 <= P)%nat \/ (P = 2%nat /\ (3 <= G)%nat))).
Proof.
  unfold PulseDataAnalyzer.analyze.
  pose proof (every_other_length pulses) as Hpw.
  pose proof (every_other_tail_length pulses) as Hgw.
  pose proof (div2_bounds (length pulses + 1)) as Hb1.
  pose proof (div2_bounds (length pulses)) as Hb2.
  destruct (Z.ltb_spec (Z.of_nat (length pulses)) 2) as [Hl|Hl]; [discriminate|].
  destruct (Z.eqb_spec (Z.of_nat (length (PulseDataAnalyzer.every_other pulses))) 0)
    as [H0|H0]; [lia|].
  intros H.
  set (P := length (PulseDataAnalyzer._create_histogram self
                      (PulseDataAnalyzer.every_other pulses))).
  set (G := length (PulseDataAnalyzer._create_histogram self
                      (PulseDataAnalyzer.every_other (tail pulses)))).
  assert (1 <= P)%nat as HP.
  { subst P. destruct (PulseDataAnalyzer._create_histogram self
                         (PulseDataAnalyzer.every_other pulses)) eqn:E; [|simpl; lia].
    apply analyzer_histogram_nil_iff in E. rewrite E in H0. simpl in H0. lia. }
  assert (1 <= G)%nat as HG.
  { subst G. destruct (PulseDataAnalyzer._create_histogram self
                         (PulseDataAnalyzer.every_other (tail pulses))) eqn:E; [|simpl; lia].
    apply analyzer_histogram_nil_iff in E. rewrite E in Hgw. simpl in Hgw. lia. }
  split; [exact HP|]. split; [exact HG|].
  injection H as H. unfold PulseDataAnalyzer._guess_modulation in H.
  fold P G in H. rewrite Z.gtb_ltb in H.
  destruct (Z.eqb_spec (Z.of_nat (length (PulseDataAnalyzer.every_other pulses))) 1)
    as [N1|N1].
  { injection H as <- _. split; split; intros; first [discriminate|reflexivity|lia]. }
  destruct (Z.eqb_spec (Z.of_nat P) 1) as [P1|P1];
    destruct (Z.eqb_spec (Z.of_nat G) 1) as [G1|G1]; cbn [andb] in H.
  - injection H as <- _. split; split; intros; first [discriminate|reflexivity|lia].
  - destruct (Z.ltb_spec 1 (Z.of_nat G)); [|lia].
    injection H as <- _. split; split; intros; first [discriminate|reflexivity|lia].
  - destruct (Z.eqb_spec (Z.of_nat P) 2) as [P2|P2]; cbn [andb] in H.
    + injection H as <- _. split; split; intros; first [discriminate|reflexivity|lia].
    + destruct (Z.eqb_spec (Z.of_nat P) 3) as [P3|P3];
        injection H as <- _; split; split; intros; first [discriminate|reflexivity|lia].
  - destruct (Z.eqb_spec (Z.of_nat P) 2) as [P2|P2]; cbn [andb] in H.
    + destruct (Z.eqb_spec (Z.of_nat G) 2) as [G2|G2].
      * injection H as <- _. split; split; intros; first [discriminate|reflexivity|lia].
      * replace (Z.of_nat P =? 3) with false in H by (symmetry; apply Z.eqb_neq; lia).
        injection H as <- _. split; split; intros; first [discriminate|reflexivity|lia].
    + destruct (Z.eqb_spec (Z.of_nat P) 3) as [P3|P3];
        injection H as <- _; split; split; intros; first [discriminate|reflexivity|lia].
Qed.




Lemma imap_row_index {A : Type} (f : nat -> A -> Report.row) (k : nat) (l : list A) :
  (forall i x, Report.row_index (f i x) = (k + i)%nat) ->
  map Report.row_index (imap f l) = seq k (length l).
Proof.
  revert f k. induction l as [|x l IH]; intros f k Hf; [reflexivity|].
  cbn [imap map length seq]. rewrite Hf, Nat.add_0_r. f_equal.
  apply IH. intros i y. unfold compose. rewrite Hf. lia.
Qed.

Lemma imap_Forall {A B : Type} (f : nat -> A -> B) (P : A -> Prop) (Q : B -> Prop)
    (l : list A) :
  (forall i x, P x -> Q (f i x)) -> Forall P l -> Forall Q (imap f l).
Proof.
  revert f. induction l as [|x l IH]; intros f Hf Hl; [constructor|].
  inversion Hl; subst. cbn [imap]. constructor; [now apply Hf|].
  apply IH; [|assumption]. intros i y. apply Hf.
Qed.

Lemma imap_map_const {A B C : Type} (f : nat -> A -> B) (g : B -> C) (h : A -> C)
    (l : list A) :
  (forall i x, g (f i x) = h x) -> map g (imap f l) = map h l.
Proof.
  revert f. induction l as [|x l IH]; intros f Hf; [reflexivity|].
  cbn [imap map]. rewrite Hf. f_equal. apply IH. intros i y. apply Hf.
Qed.

(** X18.  [_analyze_distribution] reports "No data" exactly on an empty
    list.  Otherwise it prints one line per bin, numbered from 0, at most
    as many lines as values; every line counts at least one value and the
    counts of the lines add up to the number of values.  With a
    conversion factor that is not negative and durations in range
    (between 0 and [hi], with (hi + 1) times their number below 2^53) the
    width of each line lies within the range printed beside it. *)
Theorem X18_distribution_lines (self : PulseDataAnalyzer.t) (hi : Z) (values : list Z) :
  (0 <= PulseDataAnalyzer.to_us self)%Q ->
  match Report._analyze_distribution self values with
  | None => values = []
  | Some rows =>
      values <> [] /\
      (1 <= length rows <= length values)%nat /\
      map Report.row_index rows = seq 0 (length rows) /\
      Spec.sum_list (map Report.row_count rows) = Z.of_nat (length values) /\
      Forall (fun r => 1 <= Report.row_count r) rows /\
      (Cluster.in_range hi values ->
       Forall (fun r => (Report.us_min r <= Report.us_value r <= Report.us_max r)%Q) rows)
  end.
Proof.
  intros Hu. unfold Report._analyze_distribution.
  destruct values as [|v values]; [reflexivity|].
  set (vals := v :: values).
  set (bins := PulseDataAnalyzer._create_histogram self vals).
  assert (bins <> []) as Hne
    by (intros E; apply analyzer_histogram_nil_iff in E; discriminate).
  assert (exists groups, Permutation (concat groups) vals /\
                         Forall2 Spec.stands_for groups bins) as (groups & HP & HF).
  { subst bins. rewrite analyzer_histogram_fold. apply histogram_groups. }
  destruct (groups_length _ _ HF) as [Hlen Hcount].
  rewrite (Permutation_length HP) in Hlen, Hcount.
  split; [discriminate|]. rewrite length_imap.
  split; [split; [destruct bins; [congruence|simpl; lia]|exact Hlen]|].
  split; [apply imap_row_index; reflexivity|].
  split; [|split].
  - rewrite (imap_map_const _ _ count) by reflexivity.
    rewrite (stands_for_count_sum _ _ HF). now rewrite HP.
  - apply (imap_Forall _ (fun b => 1 <= count b <= Z.of_nat (length vals)));
      [|exact Hcount].
    intros i b [Hc _]. exact Hc.
  - intros Hr.
    apply (imap_Forall _
             (fun b => (inject_Z (bmin b) <= mean b <= inject_Z (bmax b))%Q)).
    + intros i b [Hlo Hhi]. cbn [Report.us_min Report.us_value Report.us_max]. unfold fl.
      split; apply Qmult_le_compat_r; assumption.
    + subst bins. rewrite analyzer_histogram_fold.
      eapply Forall_impl; [apply (histogram_bounded hi _ vals Hr)|].
      intros b Hb. apply Hb.
Qed.

(* ------------------------------------------------------------------ *)
(** ** The conditional statements above, on captures *)
(* ------------------------------------------------------------------ *)
(** ** The conditional statements above, on captures *)



Lemma X12_frame_is_wellformed_hex_witness :
  let pulse_train : list Z := [100; 200; 100; 200] in
  let json := RabbitmqToTriq.Json (Some pulse_train) None in
  let rfraw := "AAB10201900320818155"%string in
  (RabbitmqToTriq.pulses json = Some pulse_train /\
   0 < default 250000 (RabbitmqToTriq.rate_Hz json) /\
   Forall (fun d => 0 <= d) pulse_train /\
   RabbitmqToTriq.generate_rfraw_from_rabbitmq json = RabbitmqToTriq.RfRaw rfraw) /\
  let N := length (RabbitmqToTriq.create_histogram
                     (Spec.pulse_widths pulse_train ++ Spec.gap_widths pulse_train)
                     RabbitmqToTriq.default_tolerance) in
  Forall Cluster.is_hex_char (list_ascii_of_string rfraw) /\
  (exists body, rfraw = ("AAB1" ++ body ++ "55")%string) /\
  (N <= 8)%nat /\
  exists d, (d <= length (Spec.pulse_widths pulse_train))%nat /\
            String.length rfraw = (2 * (4 + 2 * N + d))%nat.
Proof.
  intros pulse_train json rfraw.
  assert (RabbitmqToTriq.pulses json = Some pulse_train) as H1 by reflexivity.
  assert (0 < default 250000 (RabbitmqToTriq.rate_Hz json)) as H2 by (simpl; lia).
  assert (Forall (fun d => 0 <= d) pulse_train) as H3 by (repeat constructor; lia).
  assert (RabbitmqToTriq.generate_rfraw_from_rabbitmq json = RabbitmqToTriq.RfRaw rfraw)
    as H4 by (vm_compute; reflexivity).
  split; [repeat split; assumption|].
  exact (X12_frame_is_wellformed_hex json pulse_train rfraw H1 H2 H3 H4).
Defined.

Lemma X13_data_byte_digits_witness :
  let timing_bins := RabbitmqToTriq.create_histogram [100; 200] RabbitmqToTriq.default_tolerance in
  (length timing_bins <= 8)%nat /\
  let pulse_idx :=
    RabbitmqToTriq.find_timing_bin_index 100 timing_bins RabbitmqToTriq.default_tolerance in
  let gap_idx :=
    RabbitmqToTriq.find_timing_bin_index 200 timing_bins RabbitmqToTriq.default_tolerance in
  RabbitmqToTriq.encode_pair 100 200 timing_bins
  = if (0 <=? pulse_idx) && (0 <=? gap_idx)
    then [String (RabbitmqToTriq.hex_digit (8 + pulse_idx))
            (String (RabbitmqToTriq.hex_digit gap_idx) EmptyString)]
    else [].
Proof.
  intros timing_bins.
  assert (length timing_bins <= 8)%nat as H by (vm_compute; lia).
  split; [exact H|].
  exact (X13_data_byte_digits 100 200 timing_bins H).
Defined.

Lemma X16_verdicts_of_analyze_witness :
  exists self,
  PulseDataAnalyzer.init None = Some self /\
  let pulses : list Z := [100; 200; 100; 400; 100; 200] in
  let verdict := PulseDataAnalyzer.PpmFixedPulse in
  let call :=
    snd (PulseDataAnalyzer._guess_modulation self
           (PulseDataAnalyzer.every_other pulses)
           (PulseDataAnalyzer.every_other (tail pulses))) in
  PulseDataAnalyzer.analyze self pulses = Some (verdict, call) /\
  let P := length (PulseDataAnalyzer._create_histogram self
                     (PulseDataAnalyzer.every_other pulses)) in
  let G := length (PulseDataAnalyzer._create_histogram self
                     (PulseDataAnalyzer.every_other (tail pulses))) in
  (1 <= P)%nat /\ (1 <= G)%nat /\
  (verdict = PulseDataAnalyzer.SinglePulse <-> length pulses = 2%nat) /\
  (verdict = PulseDataAnalyzer.Unknown <->
   (3 <= length pulses)%nat /\ ((4 <= P)%nat \/ (P = 2%nat /\ (3 <= G)%nat))).
Proof.
  eexists. split; [reflexivity|].
  intros pulses verdict call.
  match goal with
  | |- PulseDataAnalyzer.analyze ?s _ = _ /\ _ => set (self := s)
  end.
  assert (PulseDataAnalyzer.analyze self pulses = Some (verdict, call)) as H
    by (vm_compute; reflexivity).
  split; [exact H|].
  exact (X16_verdicts_of_analyze self pulses verdict call H).
Defined.

Lemma X18_distribution_lines_witness :
  exists self,
  PulseDataAnalyzer.init None = Some self /\
  let values : list Z := [100; 118; 400] in
  ((0 <= PulseDataAnalyzer.to_us self)%Q /\ Cluster.in_range 400 values) /\
  match Report._analyze_distribution self values with
  | None => values = []
  | Some rows =>
      values <> [] /\
      (1 <= length rows <= length values)%nat /\
      map Report.row_index rows = seq 0 (length rows) /\
      Spec.sum_list (map Report.row_count rows) = Z.of_nat (length values) /\
      Forall (fun r => 1 <= Report.row_count r) rows /\
      Forall (fun r => (Report.us_min r <= Report.us_value r <= Report.us_max r)%Q) rows
  end.
Proof.
  eexists. split; [reflexivity|].
  intros values.
  match goal with
  | |- ((0 <= PulseDataAnalyzer.to_us ?s)%Q /\ _) /\ _ => set (self := s)
  end.
  assert (0 <= PulseDataAnalyzer.to_us self)%Q as H by (vm_compute; discriminate).
  assert (Cluster.in_range 400 values) as Hr
    by (split; [repeat constructor; lia|reflexivity]).
  split; [split; assumption|].
  pose proof (X18_distribution_lines self 400 values H) as HX.
  destruct (Report._analyze_distribution self values) as [rows|]; [|exact HX].
  destruct HX as (H1 & H2 & H3 & H4 & H5 & H6).
  repeat split; try assumption; try apply H2. now apply H6.
Defined.
